(** * The access/refresh token lifecycle of the zpredict front end

    A shallow embedding of the token handling found in
    [website/static/js/auth-utils.js], in the [AuthManager] class of
    [UI/static/js/app.js] (the former [static/js/auth.js]), in the
    chat-history page script and in the navbar component, together with
    the properties the specification states about them.

    The scripts are sequential [async] functions over three pieces of
    browser state: the two Web Storage areas, the network reached through
    [fetch], and the console.  They are embedded as computations in a
    state-and-exception monad over a [World]; an [await] is the sequencing
    of that monad and a rejected promise is a thrown value.  One call is
    followed from start to end: nothing else touches the store while it
    runs.  The server and the built-ins [atob], [JSON.parse], the numeric
    reading of strings and the printing of numbers are parameters
    ([Env]); the general theorems hold for all of them, and the worked
    cases run in a reference browser defined here. *)

From Stdlib Require Import ZArith QArith_base String Ascii List Bool Lia
  DecimalString.
From stdpp Require Import base option gmap strings list.

Local Open Scope string_scope.
Local Open Scope Z_scope.

(** ** JavaScript values *)

Module Js.

(** A number: a rational, an infinity or [NaN].  The rational is the value
    the number stands for; the scripts compare numbers, test them for
    zero, multiply a time stamp by 1000 or divide [Date.now()] by 1000,
    and these are taken exactly, without the rounding of a binary64
    product or quotient, which leaves the answers as they are for whole
    seconds and milliseconds in the range of [Date].  Which number a
    literal or a string denotes, and how a number prints, is the
    browser's business ([Env]). *)
Inductive Number : Type :=
  | Finite (q : Q)
  | Infinity (negative : bool)
  | NaN.

(** A whole number, as a JWT [NumericDate] in seconds and [Date.now()]
    are. *)
Definition integer (n : Z) : Number := Finite (inject_Z n).

Definition is_NaN (a : Number) : bool :=
  match a with
  | NaN => true
  | _ => false
  end.

(** [a < b]; a comparison with [NaN] on either side is [false]. *)
Definition less_than (a b : Number) : bool :=
  match a, b with
  | NaN, _ | _, NaN => false
  | Finite x, Finite y => negb (Qle_bool y x)
  | Finite _, Infinity negative => negb negative
  | Infinity negative, Finite _ => negative
  | Infinity negative, Infinity negative' => negative && negb negative'
  end.

(** [a > b] and [a >= b] *)
Definition greater_than (a b : Number) : bool := less_than b a.

Definition at_least (a b : Number) : bool :=
  negb (is_NaN a || is_NaN b || less_than a b).

(** [a * b] *)
Definition times (a b : Number) : Number :=
  match a, b with
  | NaN, _ | _, NaN => NaN
  | Finite x, Finite y => Finite (x * y)
  | Infinity negative, Finite y | Finite y, Infinity negative =>
      if Qeq_bool y 0 then NaN
      else Infinity (xorb negative (negb (Qle_bool 0 y)))
  | Infinity negative, Infinity negative' =>
      Infinity (xorb negative negative')
  end.

(** The values that [JSON.parse] and [Response.json] hand to the scripts,
    plus [undefined], which property reads produce.  An object is the
    list of its members as the text had them; it has no other own
    properties and its prototype is [Object.prototype], an array's is
    [Array.prototype]. *)
#[warnings="-register-all"]
Inductive JsVal : Type :=
  | JUndefined
  | JNull
  | JBool (b : bool)
  | JNum (n : Number)
  | JStr (s : string)
  | JArr (items : list JsVal)
  | JObj (fields : list (string * JsVal)).

(** What a script can throw, or a promise reject with. *)
Inductive JsError : Type :=
  | Error (message : string)          (* [new Error(message)] *)
  | FetchFailed (reason : string)     (* the [TypeError] of a failed [fetch] *)
  | BodyNotJson                       (* [response.json()] rejected *)
  | NullishRead (property : string)   (* property read on [null]/[undefined] *)
  | InvalidCharacter                  (* [atob] on a non-base64 string *)
  | JsonSyntax                        (* [JSON.parse] on a non-JSON string *)
  | NotPrimitive                      (* [TypeError]: an object that cannot
                                         be converted to a primitive *)
  | NotAFunction (property : string). (* [TypeError]: the call of a property
                                         that is not a function *)

Definition Z_to_string (n : Z) : string :=
  NilZero.string_of_int (Z.to_int n).

Fixpoint join (sep : string) (parts : list string) : string :=
  match parts with
  | [] => ""
  | [p] => p
  | p :: rest => (p ++ sep ++ join sep rest)%string
  end.

(** [ToBoolean], the test behind [!v], [v || w] and [if (v)]. *)
Definition to_boolean (v : JsVal) : bool :=
  match v with
  | JUndefined | JNull => false
  | JBool b => b
  | JNum (Finite q) => negb (Qeq_bool q 0)
  | JNum (Infinity _) => true
  | JNum NaN => false
  | JStr s => negb (String.eqb s "")
  | JArr _ | JObj _ => true
  end.

(** [a || b] *)
Definition or_else (a b : JsVal) : JsVal :=
  if to_boolean a then a else b.

(** The own property [key] of a parsed object: [JSON.parse] keeps the last
    of several members with one name. *)
Fixpoint own_property (key : string) (fields : list (string * JsVal))
  : option JsVal :=
  match fields with
  | [] => None
  | (k, v) :: rest =>
      match own_property key rest with
      | Some later => Some later
      | None => if String.eqb k key then Some v else None
      end
  end.

(** [v.key] for the member names the scripts read ([access], [refresh],
    [detail], [message], [exp], [user_id], [email], ...), none of which a
    prototype supplies: reading them off a primitive or an array gives
    [undefined], and reading anything off [null] or [undefined] throws. *)
Definition get (v : JsVal) (key : string) : JsError + JsVal :=
  match v with
  | JUndefined | JNull => inl (NullishRead key)
  | JObj fields => inr (default JUndefined (own_property key fields))
  | _ => inr JUndefined
  end.

Section Conversions.
(** [Number::toString] and [StringToNumber], the browser's. *)
Context (number_to_string : Number -> string).
Context (string_to_number : string -> Number).

(** [ToString].  An array renders as its elements joined by commas, with
    [null] and [undefined] elements rendered empty.  An object renders as
    the fixed text of [Object.prototype.toString], unless it has a member
    [toString] of its own: that member, which is no function, hides the
    inherited one, and the conversion throws a [TypeError].  The same
    holds for the conversion to a primitive behind [+], a comparison or a
    product, where [valueOf] is tried first and never yields a
    primitive. *)
Fixpoint to_string (v : JsVal) : JsError + string :=
  match v with
  | JUndefined => inr "undefined"
  | JNull => inr "null"
  | JBool true => inr "true"
  | JBool false => inr "false"
  | JNum n => inr (number_to_string n)
  | JStr s => inr s
  | JArr items =>
      let fix texts (items : list JsVal) : JsError + list string :=
        match items with
        | [] => inr []
        | item :: rest =>
            match
              match item with
              | JUndefined | JNull => inr ""
              | _ => to_string item
              end
            with
            | inl e => inl e
            | inr text =>
                match texts rest with
                | inl e => inl e
                | inr more => inr (text :: more)
                end
            end
        end in
      match texts items with
      | inl e => inl e
      | inr parts => inr (join "," parts)
      end
  | JObj fields =>
      match own_property "toString" fields with
      | Some _ => inl NotPrimitive
      | None => inr "[object Object]"
      end
  end.

(** [v.toString()] for a [v] that is neither [null] nor [undefined]: the
    method of the prototype, which gives the text [ToString] gives, or for
    an object with a member [toString] of its own the call of that
    member. *)
Definition toString_method (v : JsVal) : JsError + string :=
  match v with
  | JObj fields =>
      match own_property "toString" fields with
      | Some _ => inl (NotAFunction "toString")
      | None => to_string v
      end
  | JUndefined | JNull => inl (NullishRead "toString")
  | _ => to_string v
  end.

(** [ToNumber].  An array or object is first rendered as text. *)
Definition to_number (v : JsVal) : JsError + Number :=
  match v with
  | JUndefined => inr NaN
  | JNull => inr (integer 0)
  | JBool b => inr (integer (if b then 1 else 0))
  | JNum n => inr n
  | JStr s => inr (string_to_number s)
  | JArr _ | JObj _ =>
      match to_string v with
      | inl e => inl e
      | inr text => inr (string_to_number text)
      end
  end.

End Conversions.

(** [s.split(sep)] for a one-character separator. *)
Fixpoint split (sep : ascii) (s : string) : list string :=
  match s with
  | EmptyString => [""]
  | String c rest =>
      if Ascii.eqb c sep then "" :: split sep rest
      else match split sep rest with
           | [] => [String c ""]
           | first :: others => String c first :: others
           end
  end.

(** A storage read is falsy when it is [null] or the empty string;
    [truthy] keeps the text of a read that passes [if (item)]. *)
Definition truthy (item : option string) : option string :=
  match item with
  | Some s => if String.eqb s "" then None else Some s
  | None => None
  end.

Definition present (item : option string) : bool :=
  match truthy item with
  | Some _ => true
  | None => false
  end.

(** A storage read inside a template literal: [null] prints as such. *)
Definition in_template (item : option string) : string :=
  default "null" item.

(** [s.split(sep)] for the two-character separator [a b]: the text is cut
    at each occurrence, found from the left and not overlapping. *)
Fixpoint split_pair (a b : ascii) (s : string) : list string :=
  match s with
  | EmptyString => [""]
  | String c rest =>
      let onward :=
        match split_pair a b rest with
        | [] => [String c ""]
        | first :: others => String c first :: others
        end in
      match rest with
      | String d rest' =>
          if Ascii.eqb c a && Ascii.eqb d b then "" :: split_pair a b rest'
          else onward
      | EmptyString => onward
      end
  end.

(** [s.replace(/c/g, replacement)] for a pattern of one character. *)
Fixpoint replace_all (c : ascii) (replacement : string) (s : string)
  : string :=
  match s with
  | EmptyString => ""
  | String d rest =>
      if Ascii.eqb d c
      then (replacement ++ replace_all c replacement rest)%string
      else String d (replace_all c replacement rest)
  end.

(** The double quote. *)
Definition double_quote : ascii := ascii_of_N 34.

(** Whether the character [c] occurs in [s]. *)
Fixpoint occurs (c : ascii) (s : string) : bool :=
  match s with
  | EmptyString => false
  | String d rest => Ascii.eqb d c || occurs c rest
  end.

End Js.
Export Js.

(** ** The browser the scripts run in *)

Module Browser.

(** The [body] member of a [fetch] init dictionary: a ready-made text, or
    [JSON.stringify] of a value, kept as that value. *)
Inductive Body : Type :=
  | Text (s : string)
  | Stringified (v : JsVal).

(** A [fetch] init dictionary.  [headers] is absent when the caller gave
    none; [others] holds the members the scripts copy without looking at
    them ([credentials], [mode], ...). *)
Record Init : Type := mkInit {
  method : option string;
  headers : option (gmap string string);
  body : option Body;
  others : gmap string JsVal
}.

Definition no_init : Init := mkInit None None None ∅.

Record Request : Type := mkRequest {
  url : string;
  init : Init
}.

(** A [Response]: its status and what [response.json()] resolves to, [None]
    when that promise rejects because the body is not JSON. *)
Record Response : Type := mkResponse {
  status : Z;
  json : option JsVal
}.

(** [response.ok] *)
Definition ok (r : Response) : bool :=
  (200 <=? status r) && (status r <=? 299).

Inductive FetchResult : Type :=
  | Responded (r : Response)
  | Unreachable (reason : string).

(** An element of the page, as far as the navbar touches it. *)
Record Element : Type := mkElement {
  display : string;
  textContent : string
}.

Inductive LogEntry : Type :=
  | Log (text : string)
  | LogError (text : string) (e : JsError).

Record World : Type := mkWorld {
  localStorage : gmap string string;
  sessionStorage : gmap string string;
  sent : list Request;          (* every [fetch] issued so far, oldest first *)
  console : list LogEntry;
  document : gmap string Element
}.

(** What lies outside the page: the server, as the answer to a request
    given the requests that came before it, and the built-ins whose
    results the scripts consume. *)
Record Env : Type := mkEnv {
  net : list Request -> Request -> FetchResult;
  atob : string -> option string;           (* [None]: throws *)
  JSON_parse : string -> option JsVal;      (* [None]: throws *)
  string_to_number : string -> Number;      (* [StringToNumber] *)
  number_to_string : Number -> string       (* [Number::toString] *)
}.

Inductive Completion (A : Type) : Type :=
  | Returned (a : A)
  | Thrown (e : JsError).
Arguments Returned {A} a.
Arguments Thrown {A} e.

Definition Script (A : Type) : Type := World -> Completion A * World.

Definition ret {A} (a : A) : Script A := fun w => (Returned a, w).

Definition throw {A} (e : JsError) : Script A := fun w => (Thrown e, w).

Definition bind {A B} (m : Script A) (k : A -> Script B) : Script B :=
  fun w =>
    match m w with
    | (Returned a, w') => k a w'
    | (Thrown e, w') => (Thrown e, w')
    end.

(** [try { body } catch (error) { handler }] *)
Definition try_catch {A} (body : Script A) (handler : JsError -> Script A)
  : Script A :=
  fun w =>
    match body w with
    | (Returned a, w') => (Returned a, w')
    | (Thrown e, w') => handler e w'
    end.

(** [try { body } finally { ...; return v }]: the [return] of the [finally]
    block replaces whatever completion the body had. *)
Definition finally_return {A B} (body : Script A) (final : Script B)
  : Script B :=
  fun w => final (snd (body w)).

Definition lift {A} (r : JsError + A) : Script A :=
  match r with
  | inl e => throw e
  | inr a => ret a
  end.

Definition with_localStorage (f : gmap string string -> gmap string string)
    (w : World) : World :=
  mkWorld (f (localStorage w)) (sessionStorage w) (sent w) (console w)
          (document w).

Definition with_sessionStorage (f : gmap string string -> gmap string string)
    (w : World) : World :=
  mkWorld (localStorage w) (f (sessionStorage w)) (sent w) (console w)
          (document w).

Definition with_sent (f : list Request -> list Request) (w : World) : World :=
  mkWorld (localStorage w) (sessionStorage w) (f (sent w)) (console w)
          (document w).

Definition with_console (f : list LogEntry -> list LogEntry) (w : World)
  : World :=
  mkWorld (localStorage w) (sessionStorage w) (sent w) (f (console w))
          (document w).

Definition with_document (f : gmap string Element -> gmap string Element)
    (w : World) : World :=
  mkWorld (localStorage w) (sessionStorage w) (sent w) (console w)
          (f (document w)).

(** The world after one more request, and after one more console line. *)
Definition record (request : Request) : World -> World :=
  with_sent (fun s => (s ++ [request])%list).

Definition logged (entry : LogEntry) : World -> World :=
  with_console (fun c => (c ++ [entry])%list).

(** [localStorage.getItem(key)], [null] being [None]. *)
Definition localStorage_getItem (key : string) : Script (option string) :=
  fun w => (Returned (localStorage w !! key), w).

(** [localStorage.setItem(key, value)]: the value is stored as text, and
    the call throws when the value has none. *)
Definition localStorage_setItem (env : Env) (key : string) (value : JsVal)
  : Script unit :=
  fun w =>
    match to_string (number_to_string env) value with
    | inr text => (Returned tt, with_localStorage (insert key text) w)
    | inl e => (Thrown e, w)
    end.

Definition localStorage_removeItem (key : string) : Script unit :=
  fun w => (Returned tt, with_localStorage (delete key) w).

Definition sessionStorage_getItem (key : string) : Script (option string) :=
  fun w => (Returned (sessionStorage w !! key), w).

Definition sessionStorage_setItem (env : Env) (key : string) (value : JsVal)
  : Script unit :=
  fun w =>
    match to_string (number_to_string env) value with
    | inr text => (Returned tt, with_sessionStorage (insert key text) w)
    | inl e => (Thrown e, w)
    end.

(** [sessionStorage.clear()] *)
Definition sessionStorage_clear : Script unit :=
  fun w => (Returned tt, with_sessionStorage (fun _ => ∅) w).

Definition sessionStorage_removeItem (key : string) : Script unit :=
  fun w => (Returned tt, with_sessionStorage (delete key) w).

Definition console_log (text : string) : Script unit :=
  fun w => (Returned tt, logged (Log text) w).

Definition console_error (text : string) (e : JsError) : Script unit :=
  fun w => (Returned tt, logged (LogError text e) w).

(** [await fetch(url, init)]: the request is recorded, and the server's
    answer to it is the completion. *)
Definition fetch (env : Env) (u : string) (i : Init) : Script Response :=
  fun w =>
    let request := mkRequest u i in
    match net env (sent w) request with
    | Responded r => (Returned r, record request w)
    | Unreachable reason => (Thrown (FetchFailed reason), record request w)
    end.

(** [await response.json()] *)
Definition response_json (r : Response) : Script JsVal :=
  match json r with
  | Some v => ret v
  | None => throw BodyNotJson
  end.

(** [JSON.parse(atob(token.split('.')[1]))]: a token without a second
    segment hands [undefined] to [atob], which reads it as text. *)
Definition claims (env : Env) (token : string) : JsError + JsVal :=
  let segment := default "undefined" (split "." token !! 1%nat) in
  match atob env segment with
  | None => inl InvalidCharacter
  | Some text =>
      match JSON_parse env text with
      | None => inl JsonSyntax
      | Some payload => inr payload
      end
  end.

Definition decode_payload (env : Env) (token : string) : Script JsVal :=
  lift (claims env token).

(** A call whose promise is dropped: its effects happen, its completion
    reaches nobody. *)
Definition not_awaited {A} (m : Script A) : Script unit :=
  fun w => (Returned tt, snd (m w)).

(** [element.style.display = value] behind an [if (element)] guard. *)
Definition set_display (id value : string) : Script unit :=
  fun w =>
    (Returned tt,
     with_document (fun d =>
       match d !! id with
       | Some e => <[id := mkElement value (textContent e)]> d
       | None => d
       end) w).

(** [element.textContent = value] behind an [if (element)] guard. *)
Definition set_textContent (id value : string) : Script unit :=
  fun w =>
    (Returned tt,
     with_document (fun d =>
       match d !! id with
       | Some e => <[id := mkElement (display e) value]> d
       | None => d
       end) w).

(** Whether [document.getElementById(id)] finds an element. *)
Definition has_element (id : string) : Script bool :=
  fun w => (Returned (bool_decide (is_Some (document w !! id))), w).

End Browser.
Export Browser.

Declare Scope script_scope.
Delimit Scope script_scope with script.
Notation "'let*' x ':=' m 'in' k" := (bind m (fun x => k))
  (at level 10, x name, m at level 100, k at level 200) : script_scope.
Notation "m '>>' k" := (bind m (fun _ => k))
  (at level 90, right associativity) : script_scope.
Local Open Scope script_scope.

(** ** [website/static/js/auth-utils.js] *)

Module AuthUtils.

Record UserInfo : Type := mkUserInfo {
  user_id : JsVal;
  email : JsVal;
  exp : JsVal
}.

Definition refresh_url : string := "http://127.0.0.1:8000/api/token/refresh/".

Definition refresh_init (refreshToken : string) : Init :=
  mkInit (Some "POST")
         (Some {[ "Content-Type" := "application/json" ]})
         (Some (Stringified (JObj [("refresh", JStr refreshToken)])))
         ∅.

Definition refresh_request (refreshToken : string) : Request :=
  mkRequest refresh_url (refresh_init refreshToken).

(** The headers of a request: the defaults, overridden by the caller's. *)
Definition merged_headers (token : string) (options : Init)
  : gmap string string :=
  default ∅ (headers options)
  ∪ <[ "Authorization" := ("Bearer " ++ token)%string ]>
      {[ "Content-Type" := "application/json" ]}.

(** [{ ...options, headers }] *)
Definition requestOptions (token : string) (options : Init) : Init :=
  mkInit (method options) (Some (merged_headers token options))
         (body options) (others options).

(** [requestOptions.headers['Authorization'] = value] *)
Definition set_authorization (value : string) (i : Init) : Init :=
  mkInit (method i)
         (Some (<[ "Authorization" := value ]> (default ∅ (headers i))))
         (body i) (others i).

Section Scripts.
Context (env : Env).

Definition refreshAccessToken : Script bool :=
  let* refreshToken := localStorage_getItem "refresh_token" in
  match truthy refreshToken with
  | None => ret false
  | Some refreshToken =>
      try_catch
        (let* response := fetch env refresh_url (refresh_init refreshToken) in
         if ok response then
           let* data := response_json response in
           let* access := lift (get data "access") in
           localStorage_setItem env "access_token" access >>
           ret true
         else
           (* Refresh token is also invalid *)
           localStorage_removeItem "access_token" >>
           localStorage_removeItem "refresh_token" >>
           ret false)
        (fun error =>
           console_error "Token refresh failed:" error >>
           ret false)
  end.

Definition authenticatedFetch (url : string) (options : Init)
  : Script Response :=
  let* token := localStorage_getItem "access_token" in
  match truthy token with
  | None => throw (Error "No access token available")
  | Some token =>
      (* Add authorization header *)
      let requestOptions := requestOptions token options in
      try_catch
        (let* response := fetch env url requestOptions in
         (* If unauthorized, try to refresh token and retry *)
         if status response =? 401 then
           console_log "Token expired, attempting refresh..." >>
           let* refreshSuccess := refreshAccessToken in
           if refreshSuccess then
             (* Retry with new token *)
             let* newToken := localStorage_getItem "access_token" in
             fetch env url
               (set_authorization ("Bearer " ++ in_template newToken)%string
                                  requestOptions)
           else
             throw (Error "Authentication failed - please login again")
         else
           ret response)
        (fun error =>
           console_error "Authenticated fetch error:" error >>
           throw error)
  end.

Definition isAuthenticated : Script bool :=
  let* accessToken := localStorage_getItem "access_token" in
  let* refreshToken := localStorage_getItem "refresh_token" in
  ret (present accessToken && present refreshToken).

Definition clearAuthTokens : Script unit :=
  localStorage_removeItem "access_token" >>
  localStorage_removeItem "refresh_token" >>
  localStorage_removeItem "user_info".

Definition getCurrentUserInfo : Script (option UserInfo) :=
  let* token := localStorage_getItem "access_token" in
  match truthy token with
  | None => ret None
  | Some token =>
      try_catch
        ((* Basic JWT decode *)
         let* payload := decode_payload env token in
         let* user_id := lift (get payload "user_id") in
         let* email := lift (get payload "email") in
         let* exp := lift (get payload "exp") in
         ret (Some (mkUserInfo user_id email exp)))
        (fun error =>
           console_error "Token decode error:" error >>
           ret None)
  end.

(** [window.location.href = address] is the last thing [logout] does; the
    address is what the script hands back. *)
Definition logout : Script string :=
  clearAuthTokens >>
  (* Clear any other user-related data *)
  localStorage_removeItem "user_data" >>
  sessionStorage_clear >>
  (* Redirect to home page *)
  ret "http://127.0.0.1:8000/website/".

(** [now] is the reading of [Date.now()].  The comparison converts
    [userInfo.exp] to a number, outside any [try]. *)
Definition isTokenExpired (now : Z) : Script bool :=
  let* userInfo := getCurrentUserInfo in
  match userInfo with
  | None => ret true
  | Some userInfo =>
      if negb (to_boolean (exp userInfo)) then ret true
      else
        let currentTime := integer (now / 1000) in
        let* e :=
          lift (to_number (number_to_string env) (string_to_number env)
                          (exp userInfo)) in
        ret (at_least currentTime e)
  end.

End Scripts.

End AuthUtils.

(** ** The [AuthManager] class of [UI/static/js/app.js] *)

Module AuthManager.

Record Result : Type := mkResult {
  success : bool;
  message : string
}.

Definition TOKEN_KEY : string := "access_token".
Definition REFRESH_KEY : string := "refresh_token".

(** What [checkAuthStatus] answers. *)
Record AuthStatus : Type := mkAuthStatus {
  isAuthenticated : bool;
  needsRefresh : bool
}.

(** What [getCurrentUserInfo] answers. *)
Record UserInfo : Type := mkUserInfo {
  userId : JsVal;
  email : JsVal;
  first_name : JsVal;
  last_name : JsVal;
  exp : JsVal
}.

(** [getCSRFToken], with [cookie] the reading of [document.cookie]: the
    text between the first and the second [=] of the first cookie whose
    name is [csrftoken], and the empty text when there is none. *)
Definition getCSRFToken (cookie : string) : string :=
  let cookieValue :=
    match List.find (String.prefix "csrftoken=") (split_pair ";" " " cookie) with
    | Some row => split "=" row !! 1%nat
    | None => None
    end in
  default "" cookieValue.

Section Scripts.
Context (env : Env).
(** The fields the constructor sets. *)
Context (API_BASE_URL CSRF_TOKEN : string).

Definition json_headers : gmap string string :=
  <[ "Content-Type" := "application/json" ]>
    {[ "X-CSRFToken" := CSRF_TOKEN ]}.

Definition getToken : Script (option string) :=
  localStorage_getItem TOKEN_KEY.

Definition getRefreshToken : Script (option string) :=
  localStorage_getItem REFRESH_KEY.

Definition clearTokens : Script unit :=
  localStorage_removeItem TOKEN_KEY >>
  localStorage_removeItem REFRESH_KEY.

(** [now] is the reading of [Date.now()]. *)
Definition isTokenExpired (now : Z) : Script bool :=
  let* token := getToken in
  match truthy token with
  | None => ret true
  | Some token =>
      try_catch
        (let* payload := decode_payload env token in
         let* exp := lift (get payload "exp") in
         let* e :=
           lift (to_number (number_to_string env) (string_to_number env)
                           exp) in
         ret (less_than (times e (integer 1000)) (integer now)))
        (fun _ => ret true)
  end.

Definition refresh_init (refreshToken : string) : Init :=
  mkInit (Some "POST") (Some json_headers)
         (Some (Stringified (JObj [("refresh", JStr refreshToken)])))
         ∅.

Definition refresh_request (refreshToken : string) : Request :=
  mkRequest (API_BASE_URL ++ "/token/refresh/")%string
            (refresh_init refreshToken).

Definition refreshAccessToken (refreshToken : string) : Script bool :=
  try_catch
    (let* res :=
       fetch env (API_BASE_URL ++ "/token/refresh/")%string
         (refresh_init refreshToken) in
     if ok res then
       let* data := response_json res in
       let* access := lift (get data "access") in
       localStorage_setItem env TOKEN_KEY access >>
       ret true
     else
       clearTokens >>
       ret false)
    (fun err =>
       console_error "Token refresh failed:" err >>
       ret false).

(** [now] is the reading of [Date.now()]. *)
Definition checkAuthStatus (now : Z) : Script AuthStatus :=
  let* token := getToken in
  let* live :=
    (if present token
     then let* expired := isTokenExpired now in ret (negb expired)
     else ret false) in
  if live then
    ret (mkAuthStatus true false)
  else
    (* Try refreshing token if refresh token exists *)
    let* refreshToken := getRefreshToken in
    match truthy refreshToken with
    | Some refreshToken =>
        let* refreshSuccess := refreshAccessToken refreshToken in
        ret (mkAuthStatus refreshSuccess (negb refreshSuccess))
    | None => ret (mkAuthStatus false false)
    end.

Definition getAuthHeader : Script (gmap string string) :=
  let* token := getToken in
  match truthy token with
  | Some token =>
      ret (<[ "Authorization" := ("Bearer " ++ token)%string ]>
             {[ "X-CSRFToken" := CSRF_TOKEN ]})
  | None => ret {[ "X-CSRFToken" := CSRF_TOKEN ]}
  end.

(** [now] is the reading of [Date.now()]. *)
Definition validateSession (now : Z) : Script bool :=
  let* token := getToken in
  let* invalid :=
    (if present token then isTokenExpired now else ret true) in
  if invalid then ret false else ret true.

Definition getCurrentUserInfo : Script (option UserInfo) :=
  let* token := getToken in
  match truthy token with
  | None => ret None
  | Some token =>
      try_catch
        (let* payload := decode_payload env token in
         let* userId := lift (get payload "user_id") in
         let* email := lift (get payload "email") in
         let* first_name := lift (get payload "first_name") in
         let* last_name := lift (get payload "last_name") in
         let* exp := lift (get payload "exp") in
         ret (Some (mkUserInfo userId email
                      (or_else first_name (JStr "Admin"))
                      (or_else last_name (JStr "User"))
                      exp)))
        (fun _ => ret None)
  end.

Definition login_init (email password : string) : Init :=
  mkInit (Some "POST") (Some json_headers)
         (Some (Stringified (JObj [("email", JStr email);
                                   ("password", JStr password)])))
         ∅.

Definition login_request (email password : string) : Request :=
  mkRequest (API_BASE_URL ++ "/admin/login/")%string
            (login_init email password).

Definition login (email password : string) : Script Result :=
  try_catch
    (let* res :=
       fetch env (API_BASE_URL ++ "/admin/login/")%string
         (login_init email password) in
     if ok res then
       let* data := response_json res in
       let* access := lift (get data "access") in
       localStorage_setItem env TOKEN_KEY access >>
       let* refresh := lift (get data "refresh") in
       localStorage_setItem env REFRESH_KEY refresh >>
       ret (mkResult true "Login successful! Welcome back.")
     else
       let* error := response_json res in
       let* detail := lift (get error "detail") in
       let* reason :=
         (if to_boolean detail then ret detail
          else
            let* message := lift (get error "message") in
            ret (or_else message (JStr "Invalid credentials"))) in
       let* text := lift (to_string (number_to_string env) reason) in
       ret (mkResult false ("Login failed: " ++ text)%string))
    (fun err =>
       console_error "Login error:" err >>
       ret (mkResult false
              "Connection error. Please check your connection and try again.")).

Definition logout_init (token : string) : Init :=
  mkInit (Some "POST")
         (Some (<[ "Authorization" := ("Bearer " ++ token)%string ]>
                  {[ "X-CSRFToken" := CSRF_TOKEN ]}))
         None ∅.

Definition logout_request (token : string) : Request :=
  mkRequest (API_BASE_URL ++ "/admin/logout/")%string (logout_init token).

Definition logout : Script Result :=
  finally_return
    (try_catch
       ((* Optional: Call backend logout endpoint *)
        let* token := getToken in
        match truthy token with
        | Some token =>
            fetch env (API_BASE_URL ++ "/admin/logout/")%string
                  (logout_init token) >>
            ret tt
        | None => ret tt
        end)
       (fun err => console_error "Logout API call failed:" err))
    (clearTokens >>
     ret (mkResult true "Logged out successfully")).

End Scripts.

End AuthManager.

(** ** The chat-history page script *)

Module ChatHistory.

(** [escapeHtml]: nothing for a falsy argument, else the text that its
    [toString] method gives, with the five replacements made one after
    the other; the call throws when that method does. *)
Definition escapeHtml (env : Env) (unsafe : JsVal) : JsError + string :=
  if negb (to_boolean unsafe) then inr ""
  else
    match toString_method (number_to_string env) unsafe with
    | inl e => inl e
    | inr text =>
        inr (replace_all "'" "&#039;"
               (replace_all double_quote "&quot;"
                  (replace_all ">" "&gt;"
                     (replace_all "<" "&lt;"
                        (replace_all "&" "&amp;" text)))))
    end.

(** What one character of the text becomes once [escapeHtml] is through. *)
Definition entity (c : ascii) : string :=
  if Ascii.eqb c "&" then "&amp;"
  else if Ascii.eqb c "<" then "&lt;"
  else if Ascii.eqb c ">" then "&gt;"
  else if Ascii.eqb c double_quote then "&quot;"
  else if Ascii.eqb c "'" then "&#039;"
  else String c "".

Fixpoint entities (s : string) : string :=
  match s with
  | EmptyString => ""
  | String c rest => (entity c ++ entities rest)%string
  end.

(** The characters that open or close markup or an attribute value. *)
Definition markup (c : ascii) : bool :=
  Ascii.eqb c "<" || Ascii.eqb c ">" || Ascii.eqb c double_quote
  || Ascii.eqb c "'".

(** The controls that [renderPagination] writes into the page, in the
    order of the markup: each button with the page of its [data-page]
    attribute, the end buttons with their [disabled] attribute, a numbered
    button with whether it has the class [active]. *)
Inductive PageItem : Type :=
  | PreviousButton (disabled : bool) (page : Z)
  | PageButton (active : bool) (page : Z)
  | PageDots
  | NextButton (disabled : bool) (page : Z).

Definition renderPagination (currentPage totalPages : Z) : list PageItem :=
  if totalPages <=? 1 then []
  else
    let maxVisiblePages := 5 in
    let startPage := Z.max 1 (currentPage - maxVisiblePages / 2) in
    let endPage := Z.min totalPages (startPage + maxVisiblePages - 1) in
    (* Adjust start page if we're near the end *)
    let startPage :=
      if endPage - startPage + 1 <? maxVisiblePages
      then Z.max 1 (endPage - maxVisiblePages + 1)
      else startPage in
    ([PreviousButton (currentPage =? 1) (currentPage - 1)]
     (* First page and ellipsis *)
     ++ (if 1 <? startPage
         then PageButton false 1 :: (if 2 <? startPage then [PageDots] else [])
         else [])
     (* Page numbers *)
     ++ List.map (fun i => PageButton (i =? currentPage) i)
                 (seqZ startPage (endPage - startPage + 1))
     (* Last page and ellipsis *)
     ++ (if endPage <? totalPages
         then (if endPage <? totalPages - 1 then [PageDots] else [])
              ++ [PageButton false totalPages]
         else [])
     ++ [NextButton (currentPage =? totalPages) (currentPage + 1)])%list.


Section Scripts.
Context (env : Env).

(** [localStorage.getItem(key) || sessionStorage.getItem(key)] *)
Definition either_storage (key : string) : Script (option string) :=
  let* local := localStorage_getItem key in
  if present local then ret local else sessionStorage_getItem key.

Definition getAuthToken : Script (option string) :=
  either_storage "access_token".

(** What [either_storage] reads in the world [w]. *)
Definition stored (key : string) (w : World) : option string :=
  if present (localStorage w !! key) then localStorage w !! key
  else sessionStorage w !! key.

Definition refresh_request (refreshToken : string) : Request :=
  mkRequest "/api/token/refresh/" (AuthUtils.refresh_init refreshToken).

(** [now] is the reading of [Date.now()]. *)
Definition isAuthenticated (now : Z) : Script bool :=
  let* token := getAuthToken in
  match truthy token with
  | None => ret false
  | Some token =>
      try_catch
        ((* Check if token is expired (basic check) *)
         let* payload := decode_payload env token in
         let now := Finite (Qmake now 1000) in
         let* exp := lift (get payload "exp") in
         let* e :=
           lift (to_number (number_to_string env) (string_to_number env)
                           exp) in
         ret (greater_than e now))
        (fun _ => ret false)
  end.

Definition defaultHeaders (token : option string) : gmap string string :=
  match truthy token with
  | Some token =>
      <[ "Authorization" := ("Bearer " ++ token)%string ]>
        {[ "Content-Type" := "application/json" ]}
  | None => {[ "Content-Type" := "application/json" ]}
  end.

Definition config (token : option string) (options : Init) : Init :=
  mkInit (method options)
         (Some (default ∅ (headers options) ∪ defaultHeaders token))
         (body options) (others options).

Definition authenticatedFetch (url : string) (options : Init)
  : Script Response :=
  let* token := getAuthToken in
  let config := config token options in
  let* response := fetch env url config in
  (* Handle token refresh if needed *)
  if (status response =? 401) && present token then
    let* refreshToken := either_storage "refresh_token" in
    match truthy refreshToken with
    | Some refreshToken =>
        try_catch
          (let* refreshResponse :=
             fetch env "/api/token/refresh/"
                   (AuthUtils.refresh_init refreshToken) in
           if ok refreshResponse then
             let* data := response_json refreshResponse in
             let* stored := localStorage_getItem "access_token" in
             let* access := lift (get data "access") in
             (if present stored
              then localStorage_setItem env "access_token" access
              else sessionStorage_setItem env "access_token" access) >>
             (* Retry original request with new token *)
             let* bearer := lift (to_string (number_to_string env) access) in
             fetch env url
               (AuthUtils.set_authorization
                  ("Bearer " ++ bearer)%string config)
           else
             ret response)
          (fun error =>
             console_error "Token refresh failed:" error >>
             ret response)
    | None => ret response
    end
  else
    ret response.

End Scripts.

End ChatHistory.

(** ** The navbar component *)

Module Navbar.

Section Scripts.
Context (env : Env).

Definition refresh_request (refreshToken : string) : Request :=
  mkRequest "/api/token/refresh/" (AuthUtils.refresh_init refreshToken).

Definition showAuthButtons : Script unit :=
  set_display "authButtons" "flex" >>
  set_display "userMenu" "none".

Definition clearTokensAndShowAuth : Script unit :=
  localStorage_removeItem "access_token" >>
  localStorage_removeItem "refresh_token" >>
  showAuthButtons.

(** [checkAuthStatus] stands for the method of that name, which
    [tryRefreshToken] calls back into without awaiting it. *)
Definition tryRefreshToken (checkAuthStatus : Script unit) : Script unit :=
  let* refreshToken := localStorage_getItem "refresh_token" in
  match truthy refreshToken with
  | None => showAuthButtons
  | Some refreshToken =>
      try_catch
        (let* response :=
           fetch env "/api/token/refresh/"
                 (AuthUtils.refresh_init refreshToken) in
         if ok response then
           let* data := response_json response in
           let* access := lift (get data "access") in
           localStorage_setItem env "access_token" access >>
           (* Re-check with new token *)
           not_awaited checkAuthStatus
         else
           clearTokensAndShowAuth)
        (fun error =>
           console_error "Token refresh failed:" error >>
           clearTokensAndShowAuth)
  end.

Definition showUserMenu : Script unit :=
  set_display "authButtons" "none" >>
  set_display "userMenu" "flex".

Definition verify_init (token : string) : Init :=
  mkInit None
         (Some (<[ "Authorization" := ("Bearer " ++ token)%string ]>
                  {[ "Content-Type" := "application/json" ]}))
         None ∅.

Definition verify_request (token : string) : Request :=
  mkRequest "/api/admin/verify/" (verify_init token).

(** [checkAuthStatus] and [tryRefreshToken] call each other; [fuel] is the
    number of re-checks that are followed, the one after the last being
    left pending. *)
Fixpoint checkAuthStatus (fuel : nat) : Script unit :=
  let* token := localStorage_getItem "access_token" in
  match truthy token with
  | None => showAuthButtons
  | Some token =>
      try_catch
        ((* Try to verify the token *)
         let* response := fetch env "/api/admin/verify/" (verify_init token) in
         if ok response then
           let* userData := response_json response in
           let* userName := has_element "userName" in
           (if userName then
              let* username := lift (get userData "username") in
              let* shown :=
                (if to_boolean username then ret username
                 else
                   let* name := lift (get userData "name") in
                   ret (or_else name (JStr "Admin"))) in
              let* text := lift (to_string (number_to_string env) shown) in
              set_textContent "userName" text
            else ret tt) >>
           showUserMenu
         else
           (* Token is invalid, try to refresh *)
           tryRefreshToken
             match fuel with
             | S fuel' => checkAuthStatus fuel'
             | O => ret tt
             end)
        (fun error =>
           console_error "Auth check failed:" error >>
           showAuthButtons)
  end.

(** [logout] ends with [window.location.href = '/login/']; the address is
    what the script hands back. *)
Definition logout : Script string :=
  clearTokensAndShowAuth >>
  (* Redirect to login page *)
  ret "/login/".

End Scripts.

End Navbar.

(** ** A reference browser

    Executable versions of the built-ins, for running the scripts on
    concrete tokens and responses.  [atob] follows the forgiving-base64
    decoding of the HTML standard.  [JSON_parse] reads the JSON grammar
    with the two-character escapes; a [\u] escape is outside what it
    reads.  A number literal denotes its decimal value, an infinity when
    that is beyond what a binary64 holds and zero when it is below it,
    and a number prints with up to 17 significant digits; the rounding of
    a literal to the nearest binary64 is not followed, so that literals
    and prints are exact for numbers of up to 15 significant digits.  The
    general theorems below hold for every [Env], not only for this
    one. *)

Module Reference.

Definition is_whitespace (c : ascii) : bool :=
  let n := N_of_ascii c in
  ((n =? 9) || (n =? 10) || (n =? 12) || (n =? 13) || (n =? 32))%N.

Definition sextet (c : ascii) : option N :=
  let n := N_of_ascii c in
  (if (65 <=? n) && (n <=? 90) then Some (n - 65)
   else if (97 <=? n) && (n <=? 122) then Some (n - 71)
   else if (48 <=? n) && (n <=? 57) then Some (n + 4)
   else if n =? 43 then Some 62
   else if n =? 47 then Some 63
   else None)%N.

Fixpoint sextets (cs : list ascii) : option (list N) :=
  match cs with
  | [] => Some []
  | c :: rest =>
      match sextet c, sextets rest with
      | Some n, Some ns => Some (n :: ns)
      | _, _ => None
      end
  end.

Fixpoint octets (ns : list N) : list ascii :=
  (match ns with
   | a :: b :: c :: d :: rest =>
       let n := a * 262144 + b * 4096 + c * 64 + d in
       ascii_of_N (n / 65536) :: ascii_of_N (n / 256 mod 256)
         :: ascii_of_N (n mod 256) :: octets rest
   | [a; b; c] =>
       let n := (a * 4096 + b * 64 + c) / 4 in
       [ascii_of_N (n / 256); ascii_of_N (n mod 256)]
   | [a; b] => [ascii_of_N ((a * 64 + b) / 16)]
   | _ => []
   end)%N.

Definition strip_padding (cs : list ascii) : list ascii :=
  if (length cs mod 4 =? 0)%nat then
    match rev cs with
    | "="%char :: "="%char :: front => rev front
    | "="%char :: front => rev front
    | _ => cs
    end
  else cs.

Definition atob (s : string) : option string :=
  let cs :=
    strip_padding
      (List.filter (fun c => negb (is_whitespace c)) (list_ascii_of_string s)) in
  if (length cs mod 4 =? 1)%nat then None
  else option_map (fun ns => string_of_list_ascii (octets ns)) (sextets cs).

Definition is_digit (c : ascii) : bool :=
  let n := N_of_ascii c in ((48 <=? n) && (n <=? 57))%N.

Definition digit_value (c : ascii) : Z := Z.of_N (N_of_ascii c) - 48.

Fixpoint skip_ws (cs : list ascii) : list ascii :=
  match cs with
  | c :: rest =>
      let n := N_of_ascii c in
      if ((n =? 9) || (n =? 10) || (n =? 13) || (n =? 32))%N
      then skip_ws rest else cs
  | [] => []
  end.

(** The digits at the front of [cs], read onto [acc]. *)
Fixpoint parse_digits (acc : Z) (cs : list ascii) : Z * list ascii :=
  match cs with
  | c :: rest =>
      if is_digit c then parse_digits (acc * 10 + digit_value c) rest
      else (acc, cs)
  | [] => (acc, [])
  end.

(** The digits at the front of [cs], read onto [acc] and counted. *)
Fixpoint parse_digits_counted (acc count : Z) (cs : list ascii)
  : Z * Z * list ascii :=
  match cs with
  | c :: rest =>
      if is_digit c
      then parse_digits_counted (acc * 10 + digit_value c) (count + 1) rest
      else (acc, count, cs)
  | [] => (acc, count, [])
  end.

(** The number [m * 10^e] as a binary64 has it, but for the rounding of
    its digits: an infinity from [2^1024 - 2^970] on, zero up to
    [2^-1075]. *)
Definition decimal (m e : Z) : Number :=
  if m =? 0 then Finite 0
  else if 400 <=? e then Infinity (m <? 0)
  else if e + Z.log2 (Z.abs m) <=? -401 then Finite 0
  else
    let above := if 0 <=? e then m * 10 ^ e else m in
    let below := if 0 <=? e then 1 else 10 ^ (- e) in
    let common := Z.gcd above below in
    let q := Qmake (above / common) (Z.to_pos (below / common)) in
    let magnitude := Z.abs (Qnum q) in
    let below := Zpos (Qden q) in
    if (2 ^ 54 - 1) * 2 ^ 970 * below <=? magnitude then Infinity (m <? 0)
    else if magnitude * 2 ^ 1075 <=? below then Finite 0
    else Finite q.

(** An integer literal: a lone zero, or digits not starting with one. *)
Definition parse_natural (cs : list ascii) : option (Z * list ascii) :=
  match cs with
  | c :: rest =>
      if Ascii.eqb c "0" then Some (0, rest)
      else if is_digit c then Some (parse_digits 0 cs)
      else None
  | [] => None
  end.

(** A fraction, if there is one: its digits and how many they are. *)
Definition parse_fraction (cs : list ascii) : option (Z * Z * list ascii) :=
  match cs with
  | "."%char :: rest =>
      match rest with
      | c :: _ =>
          if is_digit c then Some (parse_digits_counted 0 0 rest) else None
      | [] => None
      end
  | _ => Some (0, 0, cs)
  end.

(** An exponent, if there is one. *)
Definition parse_exponent (cs : list ascii) : option (Z * list ascii) :=
  match cs with
  | c :: rest =>
      if Ascii.eqb c "e" || Ascii.eqb c "E" then
        let '(negative, digits) :=
          match rest with
          | "-"%char :: digits => (true, digits)
          | "+"%char :: digits => (false, digits)
          | _ => (false, rest)
          end in
        match digits with
        | d :: _ =>
            if is_digit d then
              let '(n, rest') := parse_digits 0 digits in
              Some (if negative then - n else n, rest')
            else None
        | [] => None
        end
      else Some (0, cs)
  | [] => Some (0, [])
  end.

Definition parse_number (cs : list ascii) : option (Number * list ascii) :=
  let '(negative, cs) :=
    match cs with
    | "-"%char :: rest => (true, rest)
    | _ => (false, cs)
    end in
  match parse_natural cs with
  | Some (whole, rest) =>
      match parse_fraction rest with
      | Some (fraction, count, rest') =>
          match parse_exponent rest' with
          | Some (e, rest'') =>
              let m := whole * 10 ^ count + fraction in
              Some (decimal (if negative then - m else m) (e - count), rest'')
          | None => None
          end
      | None => None
      end
  | None => None
  end.

Definition quote : ascii := ascii_of_N 34.
Definition backslash : ascii := ascii_of_N 92.

Definition unescape (c : ascii) : option ascii :=
  if Ascii.eqb c quote then Some quote
  else if Ascii.eqb c backslash then Some backslash
  else
    match c with
    | "/"%char => Some "/"%char
    | "b"%char => Some (ascii_of_N 8)
    | "f"%char => Some (ascii_of_N 12)
    | "n"%char => Some (ascii_of_N 10)
    | "r"%char => Some (ascii_of_N 13)
    | "t"%char => Some (ascii_of_N 9)
    | _ => None
    end.

(** The rest of a string literal, after its opening quote. *)
Fixpoint parse_string (cs : list ascii) : option (string * list ascii) :=
  match cs with
  | [] => None
  | c :: rest =>
      if Ascii.eqb c quote then Some ("", rest)
      else if Ascii.eqb c backslash then
        match rest with
        | e :: rest' =>
            match unescape e, parse_string rest' with
            | Some c', Some (s, rest'') => Some (String c' s, rest'')
            | _, _ => None
            end
        | [] => None
        end
      else if (N_of_ascii c <? 32)%N then None
      else match parse_string rest with
           | Some (s, rest') => Some (String c s, rest')
           | None => None
           end
  end.

Fixpoint parse_value (fuel : nat) (cs : list ascii)
  : option (JsVal * list ascii) :=
  match fuel with
  | O => None
  | S fuel =>
      match skip_ws cs with
      | "n"%char :: "u"%char :: "l"%char :: "l"%char :: rest =>
          Some (JNull, rest)
      | "t"%char :: "r"%char :: "u"%char :: "e"%char :: rest =>
          Some (JBool true, rest)
      | "f"%char :: "a"%char :: "l"%char :: "s"%char :: "e"%char :: rest =>
          Some (JBool false, rest)
      | "["%char :: rest =>
          match skip_ws rest with
          | "]"%char :: rest' => Some (JArr [], rest')
          | _ => parse_elements fuel rest []
          end
      | "{"%char :: rest =>
          match skip_ws rest with
          | "}"%char :: rest' => Some (JObj [], rest')
          | _ => parse_members fuel rest []
          end
      | c :: rest =>
          if Ascii.eqb c quote then
            option_map (fun '(s, rest') => (JStr s, rest')) (parse_string rest)
          else
            option_map (fun '(n, rest') => (JNum n, rest'))
                       (parse_number (c :: rest))
      | [] => None
      end
  end
with parse_elements (fuel : nat) (cs : list ascii) (seen : list JsVal)
  : option (JsVal * list ascii) :=
  match fuel with
  | O => None
  | S fuel =>
      match parse_value fuel cs with
      | Some (v, rest) =>
          match skip_ws rest with
          | ","%char :: rest' => parse_elements fuel rest' (v :: seen)
          | "]"%char :: rest' => Some (JArr (rev (v :: seen)), rest')
          | _ => None
          end
      | None => None
      end
  end
with parse_members (fuel : nat) (cs : list ascii)
                   (seen : list (string * JsVal))
  : option (JsVal * list ascii) :=
  match fuel with
  | O => None
  | S fuel =>
      match skip_ws cs with
      | q :: rest =>
          match (if Ascii.eqb q quote then parse_string rest else None) with
          | Some (key, rest') =>
              match skip_ws rest' with
              | ":"%char :: rest'' =>
                  match parse_value fuel rest'' with
                  | Some (v, rest3) =>
                      match skip_ws rest3 with
                      | ","%char :: rest4 =>
                          parse_members fuel rest4 ((key, v) :: seen)
                      | "}"%char :: rest4 =>
                          Some (JObj (rev ((key, v) :: seen)), rest4)
                      | _ => None
                      end
                  | None => None
                  end
              | _ => None
              end
          | None => None
          end
      | [] => None
      end
  end.

Definition JSON_parse (s : string) : option JsVal :=
  let cs := list_ascii_of_string s in
  match parse_value (2 * length cs + 2) cs with
  | Some (v, rest) =>
      match skip_ws rest with
      | [] => Some v
      | _ => None
      end
  | None => None
  end.

(** The white space that [StringToNumber] strips, as far as one byte
    holds it. *)
Definition is_blank (c : ascii) : bool :=
  let n := N_of_ascii c in
  ((n =? 9) || (n =? 10) || (n =? 11) || (n =? 12) || (n =? 13)
   || (n =? 32))%N.

Fixpoint drop_blanks (cs : list ascii) : list ascii :=
  match cs with
  | c :: rest => if is_blank c then drop_blanks rest else cs
  | [] => []
  end.

(** An unsigned decimal literal of a string: digits with an optional
    fraction, or a fraction alone, and an optional exponent; the pair is
    its mantissa and its power of ten. *)
Definition str_decimal (cs : list ascii) : option (Z * Z) :=
  let '(whole, whole_count, rest) := parse_digits_counted 0 0 cs in
  let mantissa :=
    match rest with
    | "."%char :: rest' =>
        let '(fraction, count, rest'') := parse_digits_counted 0 0 rest' in
        if (whole_count =? 0) && (count =? 0) then None
        else Some (whole * 10 ^ count + fraction, count, rest'')
    | _ => if whole_count =? 0 then None else Some (whole, 0, rest)
    end in
  match mantissa with
  | Some (m, count, rest') =>
      match parse_exponent rest' with
      | Some (e, []) => Some (m, e - count)
      | _ => None
      end
  | None => None
  end.

(** The value of a digit in a base up to sixteen. *)
Definition digit_in (base : Z) (c : ascii) : option Z :=
  let n := Z.of_N (N_of_ascii c) in
  let value :=
    if (48 <=? n) && (n <=? 57) then Some (n - 48)
    else if (97 <=? n) && (n <=? 102) then Some (n - 87)
    else if (65 <=? n) && (n <=? 70) then Some (n - 55)
    else None in
  match value with
  | Some d => if d <? base then Some d else None
  | None => None
  end.

Fixpoint digits_in (base acc : Z) (cs : list ascii) : option Z :=
  match cs with
  | [] => Some acc
  | c :: rest =>
      match digit_in base c with
      | Some d => digits_in base (acc * base + d) rest
      | None => None
      end
  end.

(** [StringToNumber]: nothing but white space is zero; else a decimal
    literal or [Infinity], signed or not, or an unsigned literal in base
    sixteen, eight or two; anything else is [NaN]. *)
Definition string_to_number (s : string) : Number :=
  let cs :=
    rev (drop_blanks (rev (drop_blanks (list_ascii_of_string s)))) in
  let unsigned (negative : bool) (ds : list ascii) : Number :=
    if String.eqb (string_of_list_ascii ds) "Infinity" then Infinity negative
    else
      match str_decimal ds with
      | Some (m, e) => decimal (if negative then - m else m) e
      | None => NaN
      end in
  let based (base : Z) (ds : list ascii) : Number :=
    match ds with
    | [] => NaN
    | _ =>
        match digits_in base 0 ds with
        | Some n => decimal n 0
        | None => NaN
        end
    end in
  match cs with
  | [] => Finite 0
  | "-"%char :: ds => unsigned true ds
  | "+"%char :: ds => unsigned false ds
  | "0"%char :: "x"%char :: ds | "0"%char :: "X"%char :: ds => based 16 ds
  | "0"%char :: "o"%char :: ds | "0"%char :: "O"%char :: ds => based 8 ds
  | "0"%char :: "b"%char :: ds | "0"%char :: "B"%char :: ds => based 2 ds
  | ds => unsigned false ds
  end.

(** The power of ten just above [a / b], for positive [a] and [b]: the
    [n] with [10^(n-1) <= a / b < 10^n]. *)
Fixpoint raise (fuel : nat) (a b n : Z) : Z :=
  match fuel with
  | O => n
  | S fuel => if b * 10 ^ n <=? a then raise fuel a b (n + 1) else n
  end.

Fixpoint lower (fuel : nat) (a b n : Z) : Z :=
  match fuel with
  | O => n
  | S fuel => if a * 10 ^ (1 - n) <? b then lower fuel a b (n - 1) else n
  end.

Fixpoint strip_zeros (fuel : nat) (digits : Z) : Z :=
  match fuel with
  | O => digits
  | S fuel =>
      if (digits mod 10 =? 0) && negb (digits =? 0)
      then strip_zeros fuel (digits / 10)
      else digits
  end.

Fixpoint zeros (count : nat) : string :=
  match count with
  | O => ""
  | S count => String "0" (zeros count)
  end.

(** The text of [0.digits * 10^n], as [Number::toString] lays it out. *)
Definition layout (digits : string) (n : Z) : string :=
  let k := Z.of_nat (String.length digits) in
  if (k <=? n) && (n <=? 21) then
    (digits ++ zeros (Z.to_nat (n - k)))%string
  else if (0 <? n) && (n <=? 21) then
    (substring 0 (Z.to_nat n) digits ++ "."
     ++ substring (Z.to_nat n) (Z.to_nat (k - n)) digits)%string
  else if (-6 <? n) && (n <=? 0) then
    ("0." ++ zeros (Z.to_nat (- n)) ++ digits)%string
  else
    let e := n - 1 in
    let power :=
      ((if (e <? 0)%Z then "e-" else "e+") ++ Z_to_string (Z.abs e))%string in
    if k =? 1 then (digits ++ power)%string
    else (substring 0 1 digits ++ "."
          ++ substring 1 (Z.to_nat (k - 1)) digits ++ power)%string.

(** [Number::toString], to 17 significant digits. *)
Definition number_to_string (x : Number) : string :=
  match x with
  | NaN => "NaN"
  | Infinity false => "Infinity"
  | Infinity true => "-Infinity"
  | Finite q =>
      let a := Z.abs (Qnum q) in
      let b := Zpos (Qden q) in
      if a =? 0 then "0"
      else
        let n := if b <=? a then raise 400 a b 1 else lower 400 a b 0 in
        let above := a * 10 ^ Z.max 0 (17 - n) in
        let below := b * 10 ^ Z.max 0 (n - 17) in
        let rounded := (2 * above + below) / (2 * below) in
        let '(rounded, n) :=
          if 10 ^ 17 <=? rounded then (10 ^ 16, n + 1) else (rounded, n) in
        ((if (Qnum q <? 0)%Z then "-" else "")
         ++ layout (Z_to_string (strip_zeros 17 rounded)) n)%string
  end.

(** The claims of a token read as the data model has them, with the
    middle segment in the URL-safe alphabet: [-] for [+] and [_] for [/]. *)
Definition to_base64 (c : ascii) : ascii :=
  if Ascii.eqb c "-" then "+"%char
  else if Ascii.eqb c "_" then "/"%char
  else c.

Definition base64url_claims (token : string) : option JsVal :=
  match split "." token !! 1%nat with
  | Some segment =>
      atob (string_of_list_ascii
              (List.map to_base64 (list_ascii_of_string segment)))
      ≫= JSON_parse
  | None => None
  end.

(** The reference browser in front of a given server. *)
Definition browser (server : list Request -> Request -> FetchResult) : Env :=
  mkEnv server atob JSON_parse string_to_number number_to_string.

(** A server nobody can reach. *)
Definition offline : list Request -> Request -> FetchResult :=
  fun _ _ => Unreachable "Failed to fetch".

End Reference.

(** ** Worlds and servers for the worked cases *)

Module Scenario.

(** A page with both tokens stored and nothing done yet. *)
Definition session (access refresh : string) : World :=
  mkWorld (<[ "access_token" := access ]> {[ "refresh_token" := refresh ]})
          ∅ [] [] ∅.

(** A page with empty storage. *)
Definition signed_out : World := mkWorld ∅ ∅ [] [] ∅.

(** A server that answers every request the same way. *)
Definition always (r : Response) : list Request -> Request -> FetchResult :=
  fun _ _ => Responded r.

(** A server whose refresh endpoint answers [refreshed] and whose other
    endpoints answer [resource]. *)
Definition backend (refreshed resource : Response)
  : list Request -> Request -> FetchResult :=
  fun _ request =>
    if String.eqb (url request) AuthUtils.refresh_url
    then Responded refreshed
    else Responded resource.

Definition unauthorized : Response := mkResponse 401 None.

Definition bad_credentials : Response :=
  mkResponse 400 (Some (JObj [("detail", JStr "bad credentials")])).

Definition token_pair (access refresh : string) : Response :=
  mkResponse 200 (Some (JObj [("access", JStr access);
                              ("refresh", JStr refresh)])).

Definition new_access (token : string) : Response :=
  mkResponse 200 (Some (JObj [("access", JStr token)])).

(** Sample tokens: the middle segments are the base64 of an object whose
    only member is [exp], 1000 in the first and 2000000000 in the second. *)
Definition token_exp_1000 : string := "h.eyJleHAiOjEwMDB9.s".
Definition token_exp_2000000000 : string := "h.eyJleHAiOjIwMDAwMDAwMDB9.s".

(** Tokens whose claims are [{"exp": {"toString": null}}] and
    [{"exp": 1000.5}]. *)
Definition token_exp_textless : string :=
  "h.eyJleHAiOnsidG9TdHJpbmciOm51bGx9fQ.s".
Definition token_exp_1000_5 : string := "h.eyJleHAiOjEwMDAuNX0.s".

(** A token whose claims are [exp] 2000000000 and [name] "Zoe?": the
    question mark puts a [_] into the URL-safe segment. *)
Definition token_zoe : string :=
  "h.eyJleHAiOjIwMDAwMDAwMDAsIm5hbWUiOiJab2U_In0.s".

(** A site whose refresh endpoint answers [refreshed] and whose other
    endpoints answer [resource], for the scripts that address it by
    path. *)
Definition site (refreshed resource : Response)
  : list Request -> Request -> FetchResult :=
  fun _ request =>
    if String.eqb (url request) "/api/token/refresh/"
    then Responded refreshed
    else Responded resource.

(** A page with the navbar's three elements, all hidden and empty. *)
Definition navbar_page (access refresh : string) : World :=
  mkWorld (<[ "access_token" := access ]> {[ "refresh_token" := refresh ]})
          ∅ [] []
          (<[ "authButtons" := mkElement "none" "" ]>
             (<[ "userMenu" := mkElement "none" "" ]>
                {[ "userName" := mkElement "" "" ]})).

(** A 200 answer whose body has no [access] member. *)
Definition no_access_member : Response :=
  mkResponse 200 (Some (JObj [("detail", JStr "ok")])).

(** A 200 answer whose [access] member is the parsed
    [{"toString": null}]. *)
Definition textless_access : Response :=
  mkResponse 200 (Some (JObj [("access", JObj [("toString", JNull)])])).

End Scenario.

(** * Properties *)

(** ** The built-ins on examples *)

Example decode_claims :
  Reference.atob "eyJleHAiOjIwMDAwMDAwMDB9" ≫= Reference.JSON_parse
  = Some (JObj [("exp", JNum (integer 2000000000))]).
Proof. reflexivity. Qed.

Example decode_identity :
  Reference.atob
    "eyJ1c2VyX2lkIjo3LCJlbWFpbCI6ImFAYi5jb20iLCJleHAiOjE3MDAwMDAwMDB9"
  ≫= Reference.JSON_parse
  = Some (JObj [("user_id", JNum (integer 7)); ("email", JStr "a@b.com");
                ("exp", JNum (integer 1700000000))]).
Proof. reflexivity. Qed.

Example atob_undefined : Reference.atob "undefined" = None.
Proof. reflexivity. Qed.

Example atob_base64url : Reference.atob "eyJh-_8" = None.
Proof. reflexivity. Qed.

Example to_string_undefined (number_to_string : Number -> string) :
  to_string number_to_string JUndefined = inr "undefined".
Proof. reflexivity. Qed.

Example to_string_array :
  to_string Reference.number_to_string
    (JArr [JNum (integer 1); JNull; JStr "x";
           JArr [JNum (integer (-2)); JBool true]])
  = inr "1,,x,-2,true".
Proof. reflexivity. Qed.

(** A parsed object with a member [toString] has no text, and neither has
    an array that holds one; [v.toString()] then is the call of something
    that is no function. *)
Example to_string_own_toString (number_to_string : Number -> string) :
  to_string number_to_string (JObj [("toString", JNull)]) = inl NotPrimitive /\
  to_string number_to_string (JArr [JStr "a"; JObj [("toString", JStr "b")]])
  = inl NotPrimitive /\
  toString_method number_to_string (JObj [("toString", JNull)])
  = inl (NotAFunction "toString") /\
  to_string number_to_string (JObj [("valueOf", JNull)])
  = inr "[object Object]".
Proof. repeat split. Qed.

(** Numbers as the reference browser reads and prints them. *)
Example numbers_read_and_printed :
  List.map (fun text =>
              Reference.number_to_string (Reference.string_to_number text))
           ["1000"; "1000.5"; "-2.50"; "1e21"; "1e20"; "1e-7"; "0.000001";
            "1e999"; " 12 "; ""; "0x1F"; "12px"]
  = ["1000"; "1000.5"; "-2.5"; "1e+21"; "100000000000000000000"; "1e-7";
     "0.000001"; "Infinity"; "12"; "0"; "31"; "NaN"].
Proof. vm_compute. reflexivity. Qed.

Example parse_fraction_and_exponent :
  Reference.JSON_parse "[1000.5, -2e3, 1e999]"
  = Some (JArr [JNum (Finite (Qmake 2001 2)); JNum (integer (-2000));
                JNum (Infinity false)]).
Proof. vm_compute. reflexivity. Qed.

Example split_token : split "." "aa.bb.cc" = ["aa"; "bb"; "cc"].
Proof. reflexivity. Qed.

Example split_no_dot : split "." "garbage" !! 1%nat = None.
Proof. reflexivity. Qed.

(** ** Reading the store *)

Lemma ok_iff (r : Response) : ok r = true <-> 200 <= status r <= 299.
Proof. unfold ok. rewrite andb_true_iff, !Z.leb_le. tauto. Qed.

Lemma not_ok_iff (r : Response) :
  ok r = false <-> ~ (200 <= status r <= 299).
Proof. rewrite <- ok_iff. destruct (ok r); split; congruence. Qed.

Lemma truthy_Some (item : option string) (s : string) :
  truthy item = Some s <-> item = Some s /\ s <> "".
Proof.
  destruct item as [t|]; simpl; [|split; [|intros []]; discriminate].
  destruct (String.eqb_spec t ""); split; try discriminate.
  - intros [[= ->] ?]. contradiction.
  - intros [= ->]. auto.
  - intros [[= ->] _]. reflexivity.
Qed.

(** After the two [removeItem] calls neither token is left. *)
Lemma cleared_access_token (store : gmap string string) :
  delete "refresh_token" (delete "access_token" store) !! "access_token"
  = None.
Proof. rewrite lookup_delete_ne by discriminate. apply lookup_delete_eq. Qed.

Lemma cleared_refresh_token (store : gmap string string) :
  delete "refresh_token" (delete "access_token" store) !! "refresh_token"
  = None.
Proof. apply lookup_delete_eq. Qed.

Create HintDb store discriminated.
#[local] Hint Resolve cleared_access_token cleared_refresh_token : store.

Lemma get_of_value (data : JsVal) (key : string) :
  data <> JNull -> data <> JUndefined -> exists v, get data key = inr v.
Proof. destruct data; simpl; intros; try congruence; eauto. Qed.

Lemma get_twice (data : JsVal) (key key' : string) (v : JsVal) :
  get data key = inr v -> exists v', get data key' = inr v'.
Proof. destruct data; simpl; intros; try discriminate; eauto. Qed.

(** ** Texts and numbers *)

(** Everything but an array or an object has a text. *)
Lemma to_string_primitive (number_to_string : Number -> string) (v : JsVal) :
  (forall items, v <> JArr items) ->
  (forall fields, v <> JObj fields) ->
  exists text, to_string number_to_string v = inr text.
Proof.
  intros Harray Hobject.
  destruct v as [| |[|]|n|s|items|fields]; cbn; eauto.
  - now destruct (Harray items).
  - now destruct (Hobject fields).
Qed.

(** The two storage writes, by whether the value has a text. *)
Lemma localStorage_setItem_text (env : Env) (key : string) (value : JsVal)
    (text : string) (w : World) :
  to_string (number_to_string env) value = inr text ->
  localStorage_setItem env key value w
  = (Returned tt, with_localStorage (insert key text) w).
Proof. intros Htext. unfold localStorage_setItem. now rewrite Htext. Qed.

Lemma localStorage_setItem_throws (env : Env) (key : string) (value : JsVal)
    (e : JsError) (w : World) :
  to_string (number_to_string env) value = inl e ->
  localStorage_setItem env key value w = (Thrown e, w).
Proof. intros Htext. unfold localStorage_setItem. now rewrite Htext. Qed.

Lemma sessionStorage_setItem_text (env : Env) (key : string) (value : JsVal)
    (text : string) (w : World) :
  to_string (number_to_string env) value = inr text ->
  sessionStorage_setItem env key value w
  = (Returned tt, with_sessionStorage (insert key text) w).
Proof. intros Htext. unfold sessionStorage_setItem. now rewrite Htext. Qed.

Lemma sessionStorage_setItem_throws (env : Env) (key : string)
    (value : JsVal) (e : JsError) (w : World) :
  to_string (number_to_string env) value = inl e ->
  sessionStorage_setItem env key value w = (Thrown e, w).
Proof. intros Htext. unfold sessionStorage_setItem. now rewrite Htext. Qed.

(** Whole numbers compare as the integers do. *)
Lemma less_than_integer (a b : Z) :
  less_than (integer a) (integer b) = (a <? b).
Proof.
  unfold less_than, integer.
  destruct (Qle_bool (inject_Z b) (inject_Z a)) eqn:Hle.
  - apply Qle_bool_iff in Hle. rewrite <- Zle_Qle in Hle.
    symmetry. apply Z.ltb_ge. exact Hle.
  - symmetry. apply Z.ltb_lt.
    destruct (Z.lt_ge_cases a b) as [Hlt|Hge]; [exact Hlt|].
    rewrite Zle_Qle in Hge. apply Qle_bool_iff in Hge. congruence.
Qed.

Lemma at_least_integer (a b : Z) :
  at_least (integer a) (integer b) = (a >=? b).
Proof.
  unfold at_least. cbn [is_NaN integer orb].
  change (Finite (inject_Z a)) with (integer a).
  change (Finite (inject_Z b)) with (integer b).
  rewrite less_than_integer, Z.geb_leb.
  destruct (Z.ltb_spec a b); cbn; symmetry;
    [apply Z.leb_gt|apply Z.leb_le]; assumption.
Qed.

Lemma times_integer (a b : Z) :
  times (integer a) (integer b) = Finite (inject_Z a * inject_Z b).
Proof. reflexivity. Qed.

Lemma to_boolean_integer (e : Z) :
  to_boolean (JNum (integer e)) = negb (e =? 0).
Proof.
  cbn. f_equal. destruct (Z.eqb_spec e 0) as [->|Hne]; [reflexivity|].
  destruct (Qeq_bool (inject_Z e) 0) eqn:Heq; [|reflexivity].
  apply Qeq_bool_iff in Heq. change 0%Q with (inject_Z 0) in Heq.
  apply -> inject_Z_injective in Heq. contradiction.
Qed.

(** A whole number of seconds, in milliseconds, against the clock. *)
Lemma less_than_milliseconds (e now : Z) :
  less_than (times (integer e) (integer 1000)) (integer now)
  = (e * 1000 <? now).
Proof.
  rewrite times_integer. unfold less_than, integer.
  destruct (Qle_bool (inject_Z now) (inject_Z e * inject_Z 1000)) eqn:Hle.
  - apply Qle_bool_iff in Hle.
    rewrite <- inject_Z_mult, <- Zle_Qle in Hle.
    symmetry. apply Z.ltb_ge. exact Hle.
  - symmetry. apply Z.ltb_lt.
    destruct (Z.lt_ge_cases (e * 1000) now) as [Hlt|Hge]; [exact Hlt|].
    rewrite Zle_Qle, inject_Z_mult in Hge.
    apply Qle_bool_iff in Hge. congruence.
Qed.

(** ** [refreshAccessToken], case by case *)

Section Refresh.
Import AuthUtils.
Context (env : Env) (w : World) (refreshToken : string).
Hypothesis stored :
  truthy (localStorage w !! "refresh_token") = Some refreshToken.

Let request := refresh_request refreshToken.

(** Reads the refresh token and steps up to the answer of the server. *)
Local Ltac enter_refresh :=
  unfold refreshAccessToken, bind, localStorage_getItem; rewrite stored;
  unfold try_catch, fetch;
  change (mkRequest refresh_url (refresh_init refreshToken)) with request.

Lemma refresh_unreachable (reason : string) :
  net env (sent w) request = Unreachable reason ->
  refreshAccessToken env w =
    (Returned false,
     logged (LogError "Token refresh failed:" (FetchFailed reason))
            (record request w)).
Proof.
  intros Hnet.
  enter_refresh. now rewrite Hnet.
Qed.

Lemma refresh_rejected (r : Response) :
  net env (sent w) request = Responded r ->
  ok r = false ->
  refreshAccessToken env w =
    (Returned false,
     with_localStorage
       (fun store => delete "refresh_token" (delete "access_token" store))
       (record request w)).
Proof.
  intros Hnet Hok.
  enter_refresh. now rewrite Hnet, Hok.
Qed.

Lemma refresh_accepted (r : Response) (data access : JsVal)
    (text : string) :
  net env (sent w) request = Responded r ->
  ok r = true ->
  json r = Some data ->
  get data "access" = inr access ->
  to_string (number_to_string env) access = inr text ->
  refreshAccessToken env w =
    (Returned true,
     with_localStorage (insert "access_token" text) (record request w)).
Proof.
  intros Hnet Hok Hjson Hget Htext.
  enter_refresh. rewrite Hnet, Hok.
  unfold response_json. rewrite Hjson. cbn. rewrite Hget. cbn.
  unfold localStorage_setItem. now rewrite Htext.
Qed.

(** An [access] member without a text makes [setItem] throw inside the
    [try]. *)
Lemma refresh_textless (r : Response) (data access : JsVal) (e : JsError) :
  net env (sent w) request = Responded r ->
  ok r = true ->
  json r = Some data ->
  get data "access" = inr access ->
  to_string (number_to_string env) access = inl e ->
  refreshAccessToken env w =
    (Returned false,
     logged (LogError "Token refresh failed:" e) (record request w)).
Proof.
  intros Hnet Hok Hjson Hget Htext.
  enter_refresh. rewrite Hnet, Hok.
  unfold response_json. rewrite Hjson. cbn. rewrite Hget. cbn.
  unfold localStorage_setItem. now rewrite Htext.
Qed.

Lemma refresh_unreadable (r : Response) :
  net env (sent w) request = Responded r ->
  ok r = true ->
  json r = None ->
  refreshAccessToken env w =
    (Returned false,
     logged (LogError "Token refresh failed:" BodyNotJson)
            (record request w)).
Proof.
  intros Hnet Hok Hjson.
  enter_refresh. rewrite Hnet, Hok.
  unfold response_json. now rewrite Hjson.
Qed.

Lemma refresh_nullish (r : Response) (data : JsVal) (e : JsError) :
  net env (sent w) request = Responded r ->
  ok r = true ->
  json r = Some data ->
  get data "access" = inl e ->
  refreshAccessToken env w =
    (Returned false,
     logged (LogError "Token refresh failed:" e) (record request w)).
Proof.
  intros Hnet Hok Hjson Hget.
  enter_refresh. rewrite Hnet, Hok.
  unfold response_json. rewrite Hjson. cbn. now rewrite Hget.
Qed.

(** The only way to [true]: one request, a 2xx answer with a JSON body
    that is not [null], and the text of its [access] member stored. *)
Lemma refresh_true_inv (w' : World) :
  refreshAccessToken env w = (Returned true, w') ->
  exists r data access text,
    net env (sent w) request = Responded r /\ ok r = true /\
    json r = Some data /\ get data "access" = inr access /\
    to_string (number_to_string env) access = inr text /\
    w' = with_localStorage (insert "access_token" text) (record request w).
Proof.
  destruct (net env (sent w) request) as [r|reason] eqn:Hnet.
  - destruct (ok r) eqn:Hok.
    + destruct (json r) as [data|] eqn:Hjson.
      * destruct (get data "access") as [e|access] eqn:Hget.
        -- rewrite (refresh_nullish r data e) by assumption. discriminate.
        -- destruct (to_string (number_to_string env) access)
             as [e|text] eqn:Htext.
           ++ rewrite (refresh_textless r data access e) by assumption.
              discriminate.
           ++ rewrite (refresh_accepted r data access text) by assumption.
              intros [= <-]. now exists r, data, access, text.
      * rewrite (refresh_unreadable r) by assumption. discriminate.
    + rewrite (refresh_rejected r) by assumption. discriminate.
  - rewrite (refresh_unreachable reason) by assumption. discriminate.
Qed.

End Refresh.

Lemma refresh_without_token (env : Env) (w : World) :
  truthy (localStorage w !! "refresh_token") = None ->
  AuthUtils.refreshAccessToken env w = (Returned false, w).
Proof.
  intros Hnone.
  unfold AuthUtils.refreshAccessToken, bind, localStorage_getItem.
  now rewrite Hnone.
Qed.

Lemma refresh_unreachable_keeps_store (env : Env) (w : World)
    (refreshToken reason : string) :
  truthy (localStorage w !! "refresh_token") = Some refreshToken ->
  net env (sent w) (AuthUtils.refresh_request refreshToken)
    = Unreachable reason ->
  exists w',
    AuthUtils.refreshAccessToken env w = (Returned false, w') /\
    localStorage w' = localStorage w /\
    sessionStorage w' = sessionStorage w.
Proof.
  intros Hstored Hnet. eexists. split.
  - eapply refresh_unreachable; eassumption.
  - now split.
Qed.

(** ** The claims about [refresh] *)

(** C3.  With a refresh token stored, a refresh that the endpoint answers
    with any status outside 200..299 returns [false], and when it returns
    neither the access token nor the refresh token is in the store. *)
Theorem refresh_rejection_clears_both_tokens (env : Env) (w : World)
    (refreshToken : string) (r : Response) :
  truthy (localStorage w !! "refresh_token") = Some refreshToken ->
  net env (sent w) (AuthUtils.refresh_request refreshToken) = Responded r ->
  ~ (200 <= status r <= 299) ->
  exists w',
    AuthUtils.refreshAccessToken env w = (Returned false, w') /\
    localStorage w' !! "access_token" = None /\
    localStorage w' !! "refresh_token" = None /\
    sent w' = (sent w ++ [AuthUtils.refresh_request refreshToken])%list.
Proof.
  intros Hstored Hnet Hstatus. apply not_ok_iff in Hstatus.
  eexists. split; [eapply refresh_rejected; eassumption|].
  cbn. repeat split; auto with store.
Qed.

Lemma refresh_rejection_clears_both_tokens_witness :
  exists w',
    AuthUtils.refreshAccessToken
      (Reference.browser (Scenario.always Scenario.unauthorized))
      (Scenario.session "old" "r") = (Returned false, w') /\
    localStorage w' !! "access_token" = None /\
    localStorage w' !! "refresh_token" = None /\
    sent w' = [AuthUtils.refresh_request "r"].
Proof.
  apply (refresh_rejection_clears_both_tokens
           (Reference.browser (Scenario.always Scenario.unauthorized))
           (Scenario.session "old" "r") "r" Scenario.unauthorized).
  - vm_compute. reflexivity.
  - reflexivity.
  - simpl. lia.
Defined.

(** C4.  With a refresh token stored, a refresh answered 200 with a body
    whose [access] member is the text [X] returns [true]; afterwards the
    store holds [X] as access token and is otherwise what it was, the
    refresh token included. *)
Theorem refresh_success_overwrites_access_only (env : Env) (w : World)
    (refreshToken : string) (r : Response) (data : JsVal) (X : string) :
  truthy (localStorage w !! "refresh_token") = Some refreshToken ->
  net env (sent w) (AuthUtils.refresh_request refreshToken) = Responded r ->
  status r = 200 ->
  json r = Some data ->
  get data "access" = inr (JStr X) ->
  exists w',
    AuthUtils.refreshAccessToken env w = (Returned true, w') /\
    localStorage w' !! "access_token" = Some X /\
    localStorage w' !! "refresh_token" = localStorage w !! "refresh_token" /\
    localStorage w' = <[ "access_token" := X ]> (localStorage w) /\
    sessionStorage w' = sessionStorage w.
Proof.
  intros Hstored Hnet Hstatus Hjson Hget.
  assert (Hok : ok r = true) by (apply ok_iff; lia).
  eexists. split.
  - eapply refresh_accepted; try eassumption. reflexivity.
  - cbn. repeat split.
    + apply lookup_insert_eq.
    + now rewrite lookup_insert_ne.
Qed.

Lemma refresh_success_overwrites_access_only_witness :
  exists w',
    AuthUtils.refreshAccessToken
      (Reference.browser (Scenario.always (Scenario.new_access "X")))
      (Scenario.session "old" "r") = (Returned true, w') /\
    localStorage w' !! "access_token" = Some "X" /\
    localStorage w' !! "refresh_token"
      = localStorage (Scenario.session "old" "r") !! "refresh_token" /\
    localStorage w'
      = <[ "access_token" := "X" ]> (localStorage (Scenario.session "old" "r")) /\
    sessionStorage w' = sessionStorage (Scenario.session "old" "r").
Proof.
  apply (refresh_success_overwrites_access_only
           (Reference.browser (Scenario.always (Scenario.new_access "X")))
           (Scenario.session "old" "r") "r" (Scenario.new_access "X")
           (JObj [("access", JStr "X")]) "X").
  - vm_compute. reflexivity.
  - reflexivity.
  - reflexivity.
  - reflexivity.
  - reflexivity.
Defined.

(** The [AuthManager] copy of the refresh on a 2xx answer. *)
Lemma manager_refresh_accepted (env : Env) (base csrf : string) (w : World)
    (refreshToken : string) (r : Response) (data access : JsVal) :
  net env (sent w) (AuthManager.refresh_request base csrf refreshToken)
    = Responded r ->
  ok r = true ->
  json r = Some data ->
  get data "access" = inr access ->
  AuthManager.refreshAccessToken env base csrf refreshToken w =
    match to_string (number_to_string env) access with
    | inr text =>
        (Returned true,
         with_localStorage (insert "access_token" text)
           (record (AuthManager.refresh_request base csrf refreshToken) w))
    | inl e =>
        (Returned false,
         logged (LogError "Token refresh failed:" e)
           (record (AuthManager.refresh_request base csrf refreshToken) w))
    end.
Proof.
  intros Hnet Hok Hjson Hget.
  unfold AuthManager.refreshAccessToken, try_catch, bind, fetch.
  change (mkRequest (base ++ "/token/refresh/")
                    (AuthManager.refresh_init csrf refreshToken))
    with (AuthManager.refresh_request base csrf refreshToken).
  rewrite Hnet, Hok. unfold response_json. rewrite Hjson. cbn.
  rewrite Hget. cbn. unfold localStorage_setItem.
  now destruct (to_string (number_to_string env) access).
Qed.

(** C10, as the code has it.  A refresh answered with a 2xx status and a
    JSON body other than [null] returns [true] whenever the body's
    [access] member has a text, whatever else the body is, in
    [auth-utils.js] and in [AuthManager] alike: that text becomes the
    stored access token, and for an object without such a member it is
    "undefined".  Every member that is not an array or an object has a
    text.  A member without one, which is an object with a member
    [toString] of its own or an array that holds one, makes the refresh
    return [false] with the store as it was. *)
Theorem refresh_accepts_any_body_but_null (env : Env) (base csrf : string)
    (w : World) (refreshToken : string) (r : Response) (data : JsVal) :
  truthy (localStorage w !! "refresh_token") = Some refreshToken ->
  net env (sent w) (AuthUtils.refresh_request refreshToken) = Responded r ->
  net env (sent w) (AuthManager.refresh_request base csrf refreshToken)
    = Responded r ->
  200 <= status r <= 299 ->
  json r = Some data ->
  data <> JNull ->
  data <> JUndefined ->
  exists access,
    get data "access" = inr access /\
    (forall fields,
        data = JObj fields -> own_property "access" fields = None ->
        to_string (number_to_string env) access = inr "undefined") /\
    ((forall items, access <> JArr items) ->
     (forall fields, access <> JObj fields) ->
     exists text, to_string (number_to_string env) access = inr text) /\
    match to_string (number_to_string env) access with
    | inr text =>
        AuthUtils.refreshAccessToken env w =
          (Returned true,
           with_localStorage (insert "access_token" text)
             (record (AuthUtils.refresh_request refreshToken) w)) /\
        AuthManager.refreshAccessToken env base csrf refreshToken w =
          (Returned true,
           with_localStorage (insert "access_token" text)
             (record (AuthManager.refresh_request base csrf refreshToken) w))
    | inl e =>
        AuthUtils.refreshAccessToken env w =
          (Returned false,
           logged (LogError "Token refresh failed:" e)
             (record (AuthUtils.refresh_request refreshToken) w)) /\
        AuthManager.refreshAccessToken env base csrf refreshToken w =
          (Returned false,
           logged (LogError "Token refresh failed:" e)
             (record (AuthManager.refresh_request base csrf refreshToken) w))
    end.
Proof.
  intros Hstored Hnet Hnet' Hstatus Hjson Hnull Hundef.
  apply ok_iff in Hstatus.
  destruct (get_of_value data "access" Hnull Hundef) as [access Hget].
  exists access. split; [assumption|]. split; [|split].
  - intros fields -> Hmissing. cbn in Hget. rewrite Hmissing in Hget.
    now injection Hget as <-.
  - apply to_string_primitive.
  - rewrite (manager_refresh_accepted env base csrf w refreshToken r data
               access) by assumption.
    destruct (to_string (number_to_string env) access) as [e|text] eqn:Htext.
    + split; [|reflexivity]. eapply refresh_textless; eassumption.
    + split; [|reflexivity]. eapply refresh_accepted; eassumption.
Qed.

Lemma refresh_accepts_any_body_but_null_witness :
  let env := Reference.browser (Scenario.always Scenario.no_access_member) in
  let w := Scenario.session "old" "r" in
  exists access,
    get (JObj [("detail", JStr "ok")]) "access" = inr access /\
    (forall fields,
        JObj [("detail", JStr "ok")] = JObj fields ->
        own_property "access" fields = None ->
        to_string (number_to_string env) access = inr "undefined") /\
    ((forall items, access <> JArr items) ->
     (forall fields, access <> JObj fields) ->
     exists text, to_string (number_to_string env) access = inr text) /\
    match to_string (number_to_string env) access with
    | inr text =>
        AuthUtils.refreshAccessToken env w =
          (Returned true,
           with_localStorage (insert "access_token" text)
             (record (AuthUtils.refresh_request "r") w)) /\
        AuthManager.refreshAccessToken env "/api" "c" "r" w =
          (Returned true,
           with_localStorage (insert "access_token" text)
             (record (AuthManager.refresh_request "/api" "c" "r") w))
    | inl e =>
        AuthUtils.refreshAccessToken env w =
          (Returned false,
           logged (LogError "Token refresh failed:" e)
             (record (AuthUtils.refresh_request "r") w)) /\
        AuthManager.refreshAccessToken env "/api" "c" "r" w =
          (Returned false,
           logged (LogError "Token refresh failed:" e)
             (record (AuthManager.refresh_request "/api" "c" "r") w))
    end.
Proof.
  intros env w.
  apply (refresh_accepts_any_body_but_null env "/api" "c" w "r"
           Scenario.no_access_member (JObj [("detail", JStr "ok")])).
  - vm_compute. reflexivity.
  - reflexivity.
  - reflexivity.
  - simpl. lia.
  - reflexivity.
  - discriminate.
  - discriminate.
Defined.

(** A refresh answered 200 without an [access] member stores the text
    "undefined" as the access token. *)
Example refresh_stores_undefined :
  let env := Reference.browser (Scenario.always Scenario.no_access_member) in
  let '(completion, w') :=
    AuthUtils.refreshAccessToken env (Scenario.session "old" "r") in
  completion = Returned true /\
  localStorage w' !! "access_token" = Some "undefined" /\
  localStorage w' !! "refresh_token" = Some "r".
Proof. vm_compute. repeat split. Qed.

(** C10, as stated, fails: a 200 answer whose JSON body is [null] makes
    the read of [data.access] throw inside the [try] block, and the refresh
    returns [false]; so does a 200 answer whose body is not JSON. *)
Lemma refresh_null_body_returns_false :
  ok (mkResponse 200 (Some JNull)) = true /\
  fst (AuthUtils.refreshAccessToken
         (Reference.browser (Scenario.always (mkResponse 200 (Some JNull))))
         (Scenario.session "old" "r")) = Returned false /\
  fst (AuthManager.refreshAccessToken
         (Reference.browser (Scenario.always (mkResponse 200 (Some JNull))))
         "/api" "c" "r" (Scenario.session "old" "r")) = Returned false /\
  fst (AuthUtils.refreshAccessToken
         (Reference.browser (Scenario.always (mkResponse 200 None)))
         (Scenario.session "old" "r")) = Returned false.
Proof. vm_compute. repeat split. Qed.

(** So does a 200 answer whose [access] member is an object with a member
    [toString]: [setItem] cannot turn it into text and throws, the stored
    tokens stay as they were. *)
Example refresh_textless_access_returns_false :
  let env :=
    Reference.browser (Scenario.always Scenario.textless_access) in
  let '(completion, w') :=
    AuthUtils.refreshAccessToken env (Scenario.session "old" "r") in
  completion = Returned false /\
  localStorage w' = localStorage (Scenario.session "old" "r") /\
  console w' = [LogError "Token refresh failed:" NotPrimitive] /\
  fst (AuthManager.refreshAccessToken env "/api" "c" "r"
         (Scenario.session "old" "r")) = Returned false.
Proof. vm_compute. repeat split. Qed.

(** C2, where the code departs from it.  In the navbar, a refresh whose
    call throws ends in the same handler as a refresh the server rejected:
    with a refresh token stored and the endpoint unreachable,
    [tryRefreshToken] removes both tokens from the store.  (The same
    failure in [refreshAccessToken] leaves the store as it was, see
    [refresh_unreachable_keeps_store].) *)
Theorem tryRefreshToken_unreachable_clears_tokens (env : Env) (w : World)
    (refreshToken reason : string) (checkAuthStatus : Script unit) :
  truthy (localStorage w !! "refresh_token") = Some refreshToken ->
  net env (sent w) (Navbar.refresh_request refreshToken)
    = Unreachable reason ->
  exists w',
    Navbar.tryRefreshToken env checkAuthStatus w = (Returned tt, w') /\
    localStorage w' !! "access_token" = None /\
    localStorage w' !! "refresh_token" = None.
Proof.
  intros Hstored Hnet.
  unfold Navbar.tryRefreshToken, bind, localStorage_getItem.
  rewrite Hstored. unfold try_catch, fetch.
  change (mkRequest "/api/token/refresh/" (AuthUtils.refresh_init refreshToken))
    with (Navbar.refresh_request refreshToken).
  rewrite Hnet. eexists. split; [reflexivity|]. cbn.
  split; auto with store.
Qed.

Lemma tryRefreshToken_unreachable_clears_tokens_witness :
  exists w',
    Navbar.tryRefreshToken (Reference.browser Reference.offline) (ret tt)
      (Scenario.session "old" "r") = (Returned tt, w') /\
    localStorage w' !! "access_token" = None /\
    localStorage w' !! "refresh_token" = None.
Proof.
  apply (tryRefreshToken_unreachable_clears_tokens
           (Reference.browser Reference.offline)
           (Scenario.session "old" "r") "r" "Failed to fetch" (ret tt)).
  - vm_compute. reflexivity.
  - reflexivity.
Defined.

(** ** The claims about [authenticatedFetch] *)

(** The retried request is the first one but for its [Authorization]
    header. *)
Lemma set_authorization_only (value : string) (i : Init) :
  method (AuthUtils.set_authorization value i) = method i /\
  body (AuthUtils.set_authorization value i) = body i /\
  others (AuthUtils.set_authorization value i) = others i /\
  default ∅ (headers (AuthUtils.set_authorization value i)) !! "Authorization"
    = Some value /\
  forall name, name <> "Authorization" ->
    default ∅ (headers (AuthUtils.set_authorization value i)) !! name
    = default ∅ (headers i) !! name.
Proof.
  repeat split; cbn.
  - apply lookup_insert_eq.
  - intros name Hname. now rewrite lookup_insert_ne.
Qed.

(** The 401 path, once the refresh has stored [newToken]: what is left of
    the call is the second [fetch], inside the logging handler. *)
Lemma authenticatedFetch_after_refresh (env : Env) (url : string)
    (options : Init) (w : World) (token : string) (r1 : Response)
    (w2 : World) (newToken : string) :
  truthy (localStorage w !! "access_token") = Some token ->
  let request := mkRequest url (AuthUtils.requestOptions token options) in
  net env (sent w) request = Responded r1 ->
  status r1 = 401 ->
  AuthUtils.refreshAccessToken env
    (logged (Log "Token expired, attempting refresh...") (record request w))
    = (Returned true, w2) ->
  localStorage w2 !! "access_token" = Some newToken ->
  AuthUtils.authenticatedFetch env url options w =
    try_catch
      (fetch env url
         (AuthUtils.set_authorization ("Bearer " ++ newToken)%string
                                      (init request)))
      (fun error =>
         console_error "Authenticated fetch error:" error >> throw error)
      w2.
Proof.
  intros Htoken request Hnet Hstatus Hrefresh Hnew.
  unfold AuthUtils.authenticatedFetch, bind at 1.
  unfold localStorage_getItem at 1. rewrite Htoken.
  unfold try_catch, bind at 1, fetch at 1.
  change (mkRequest url (AuthUtils.requestOptions token options))
    with request.
  rewrite Hnet, Hstatus. cbn [Z.eqb Pos.eqb].
  unfold bind at 1, console_log.
  unfold bind at 1. rewrite Hrefresh.
  unfold bind at 1, localStorage_getItem. rewrite Hnew.
  reflexivity.
Qed.

(** The second [fetch] inside the logging handler, named by its
    request. *)
Lemma retry_logged (env : Env) (url : string) (i : Init) (w : World)
    (retry : Request) :
  retry = mkRequest url i ->
  try_catch (fetch env url i)
    (fun error =>
       console_error "Authenticated fetch error:" error >> throw error) w
  = match net env (sent w) retry with
    | Responded r => (Returned r, record retry w)
    | Unreachable reason =>
        (Thrown (FetchFailed reason),
         logged (LogError "Authenticated fetch error:" (FetchFailed reason))
                (record retry w))
    end.
Proof.
  intros ->. unfold try_catch, fetch.
  now destruct (net env (sent w) _).
Qed.

(** C1.  When the first answer to an [authenticatedFetch] is a 401 and the
    refresh that follows returns [true], the request is sent once more:
    to the same address, with the same method, body and other members,
    and with the same headers but for [Authorization], which is "Bearer "
    and the access token that the refresh stored.  Whatever comes back, a
    401 included, is the result of the call, and nothing else is sent:
    two requests to the resource with the one refresh request between
    them. *)
Theorem authenticatedFetch_retries_once (env : Env) (url : string)
    (options : Init) (w : World) (token : string) (r1 : Response)
    (w2 : World) :
  truthy (localStorage w !! "access_token") = Some token ->
  let first_headers :=
    default ∅ (headers options)
    ∪ <[ "Authorization" := ("Bearer " ++ token)%string ]>
        {[ "Content-Type" := "application/json" ]} in
  let request :=
    mkRequest url
      (mkInit (method options) (Some first_headers) (body options)
              (others options)) in
  net env (sent w) request = Responded r1 ->
  status r1 = 401 ->
  AuthUtils.refreshAccessToken env
    (logged (Log "Token expired, attempting refresh...") (record request w))
    = (Returned true, w2) ->
  exists refreshToken newToken,
    localStorage w2 !! "access_token" = Some newToken /\
    let refresh :=
      mkRequest "http://127.0.0.1:8000/api/token/refresh/"
        (mkInit (Some "POST")
                (Some {[ "Content-Type" := "application/json" ]})
                (Some (Stringified (JObj [("refresh", JStr refreshToken)])))
                ∅) in
    sent w2 = (sent w ++ [request; refresh])%list /\
    let retry :=
      mkRequest url
        (mkInit (method options)
                (Some (<[ "Authorization" := ("Bearer " ++ newToken)%string ]>
                         first_headers))
                (body options) (others options)) in
    match net env (sent w2) retry with
    | Responded r2 =>
        AuthUtils.authenticatedFetch env url options w
        = (Returned r2, record retry w2)
    | Unreachable reason =>
        AuthUtils.authenticatedFetch env url options w
        = (Thrown (FetchFailed reason),
           logged (LogError "Authenticated fetch error:" (FetchFailed reason))
                  (record retry w2))
    end.
Proof.
  intros Htoken first_headers request Hnet Hstatus Hrefresh.
  change request
    with (mkRequest url (AuthUtils.requestOptions token options)) in *.
  set (request' := mkRequest url (AuthUtils.requestOptions token options))
    in *.
  set (w1 := logged (Log "Token expired, attempting refresh...")
                    (record request' w)) in *.
  destruct (truthy (localStorage w1 !! "refresh_token"))
    as [refreshToken|] eqn:Hstored.
  2:{ rewrite refresh_without_token in Hrefresh by assumption.
      discriminate. }
  destruct (refresh_true_inv env w1 refreshToken Hstored w2 Hrefresh)
    as (r & data & access & text & _ & _ & _ & _ & _ & ->).
  exists refreshToken, text.
  split; [apply lookup_insert_eq|].
  intros refresh. split.
  { cbn. now rewrite <- app_assoc. }
  intros retry.
  rewrite (authenticatedFetch_after_refresh env url options w token r1 _
             text Htoken Hnet Hstatus Hrefresh)
    by apply lookup_insert_eq.
  rewrite (retry_logged env url _ _ retry) by reflexivity.
  destruct (net env _ retry); reflexivity.
Qed.

Lemma authenticatedFetch_retries_once_witness :
  let env :=
    Reference.browser
      (Scenario.backend (Scenario.new_access "fresh") Scenario.unauthorized) in
  let w := Scenario.session "stale" "r" in
  let first_headers :=
    default ∅ (headers no_init)
    ∪ <[ "Authorization" := ("Bearer " ++ "stale")%string ]>
        {[ "Content-Type" := "application/json" ]} in
  let request :=
    mkRequest "/api/profile/"
      (mkInit (method no_init) (Some first_headers) (body no_init)
              (others no_init)) in
  let w2 :=
    snd (AuthUtils.refreshAccessToken env
           (logged (Log "Token expired, attempting refresh...")
                   (record request w))) in
  exists refreshToken newToken,
    localStorage w2 !! "access_token" = Some newToken /\
    let refresh :=
      mkRequest "http://127.0.0.1:8000/api/token/refresh/"
        (mkInit (Some "POST")
                (Some {[ "Content-Type" := "application/json" ]})
                (Some (Stringified (JObj [("refresh", JStr refreshToken)])))
                ∅) in
    sent w2 = (sent w ++ [request; refresh])%list /\
    let retry :=
      mkRequest "/api/profile/"
        (mkInit (method no_init)
                (Some (<[ "Authorization" := ("Bearer " ++ newToken)%string ]>
                         first_headers))
                (body no_init) (others no_init)) in
    match net env (sent w2) retry with
    | Responded r2 =>
        AuthUtils.authenticatedFetch env "/api/profile/" no_init w
        = (Returned r2, record retry w2)
    | Unreachable reason =>
        AuthUtils.authenticatedFetch env "/api/profile/" no_init w
        = (Thrown (FetchFailed reason),
           logged (LogError "Authenticated fetch error:" (FetchFailed reason))
                  (record retry w2))
    end.
Proof.
  intros env w first_headers request w2.
  apply (authenticatedFetch_retries_once env "/api/profile/" no_init w
           "stale" Scenario.unauthorized w2).
  - vm_compute. reflexivity.
  - reflexivity.
  - reflexivity.
  - vm_compute. reflexivity.
Defined.

(** The same run, spelled out: a resource that answers 401 before and
    after a successful refresh is asked twice, the second time with the
    refreshed token, and its second 401 is what the caller gets. *)
Example authenticatedFetch_second_401 :
  let env :=
    Reference.browser
      (Scenario.backend (Scenario.new_access "fresh") Scenario.unauthorized) in
  let '(completion, w') :=
    AuthUtils.authenticatedFetch env "/api/profile/" no_init
      (Scenario.session "stale" "r") in
  completion = Returned Scenario.unauthorized /\
  List.map url (sent w')
    = ["/api/profile/"; AuthUtils.refresh_url; "/api/profile/"] /\
  List.map (fun request => default ∅ (headers (init request)) !! "Authorization")
      (sent w')
    = [Some "Bearer stale"; None; Some "Bearer fresh"].
Proof. vm_compute. repeat split. Qed.

(** [authenticatedFetch] of [auth-utils.js] with no access token. *)
Lemma authenticatedFetch_no_token (env : Env) (url : string)
    (options : Init) (w : World) :
  truthy (localStorage w !! "access_token") = None ->
  AuthUtils.authenticatedFetch env url options w
    = (Thrown (Error "No access token available"), w).
Proof.
  intros Hlocal.
  unfold AuthUtils.authenticatedFetch, bind, localStorage_getItem.
  now rewrite Hlocal.
Qed.

(** C6, as the code has it.  With no access token stored,
    [authenticatedFetch] of [auth-utils.js] throws its no-token error and
    sends nothing.  The chat-history page's function of the same name has
    no such precondition: with no token in either storage it sends the
    request once, with an [Authorization] header only if the caller
    supplied one, attempts no refresh and completes as that one [fetch]
    does. *)
Theorem authenticatedFetch_without_token (env : Env) (url : string)
    (options : Init) (w : World) :
  truthy (localStorage w !! "access_token") = None ->
  truthy (sessionStorage w !! "access_token") = None ->
  AuthUtils.authenticatedFetch env url options w
    = (Thrown (Error "No access token available"), w) /\
  ChatHistory.authenticatedFetch env url options w
    = fetch env url (ChatHistory.config None options) w /\
  default ∅ (headers (ChatHistory.config None options)) !! "Authorization"
    = default ∅ (headers options) !! "Authorization".
Proof.
  intros Hlocal Hsession. split; [now apply authenticatedFetch_no_token|].
  split.
  - unfold ChatHistory.authenticatedFetch, ChatHistory.getAuthToken,
      ChatHistory.either_storage, bind at 1 2, localStorage_getItem,
      sessionStorage_getItem, present.
    rewrite Hlocal.
    assert (Hconfig : ChatHistory.config (sessionStorage w !! "access_token")
                        options = ChatHistory.config None options).
    { unfold ChatHistory.config, ChatHistory.defaultHeaders.
      now rewrite Hsession. }
    rewrite Hconfig. unfold bind, fetch, present. rewrite Hsession.
    destruct (net env (sent w) _) as [r|reason]; [|reflexivity].
    now rewrite andb_false_r.
  - cbn. rewrite lookup_union, lookup_singleton_ne by discriminate.
    now destruct (default ∅ (headers options) !! "Authorization").
Qed.

Lemma authenticatedFetch_without_token_witness :
  let env := Reference.browser (Scenario.always Scenario.unauthorized) in
  AuthUtils.authenticatedFetch env "/api/chat-history/?page=1" no_init
    Scenario.signed_out
    = (Thrown (Error "No access token available"), Scenario.signed_out) /\
  ChatHistory.authenticatedFetch env "/api/chat-history/?page=1" no_init
    Scenario.signed_out
    = fetch env "/api/chat-history/?page=1" (ChatHistory.config None no_init)
            Scenario.signed_out /\
  default ∅ (headers (ChatHistory.config None no_init)) !! "Authorization"
    = default ∅ (headers no_init) !! "Authorization".
Proof.
  intros env.
  apply (authenticatedFetch_without_token env "/api/chat-history/?page=1"
           no_init Scenario.signed_out).
  - reflexivity.
  - reflexivity.
Defined.

(** C6, as stated, fails on the chat-history page: called with empty
    storage, its [authenticatedFetch] reaches the network and hands the
    server's answer back instead of failing. *)
Lemma chat_history_fetches_without_token :
  let env := Reference.browser (Scenario.always Scenario.unauthorized) in
  let '(completion, w') :=
    ChatHistory.authenticatedFetch env "/api/chat-history/?page=1" no_init
      Scenario.signed_out in
  localStorage Scenario.signed_out !! "access_token" = None /\
  sessionStorage Scenario.signed_out !! "access_token" = None /\
  completion = Returned Scenario.unauthorized /\
  sent w' = [mkRequest "/api/chat-history/?page=1"
                       (ChatHistory.config None no_init)].
Proof. vm_compute. repeat split. Qed.

(** ** The claims about [login] and [logout] *)

(** C7, as the code has it.  For a login request that the server answers
    with a JSON body other than [null]: on a 2xx status the texts of the
    body's [access] and [refresh] members are written as the stored pair
    and the result is a success; on any other status the result is a
    failure whose message is "Login failed: " followed by the body's
    [detail], or failing that its [message], or failing that "Invalid
    credentials", and the store is what it was.  This is so whenever the
    members in question have a text, as strings have.  A member without
    one stops the call where its text is asked for: the result is the
    connection error, and a text already written for [access] stays
    written. *)
Theorem login_result (env : Env) (base csrf email password : string)
    (w : World) (r : Response) (data : JsVal) :
  let request := AuthManager.login_request base csrf email password in
  net env (sent w) request = Responded r ->
  json r = Some data ->
  data <> JNull ->
  data <> JUndefined ->
  exists access refresh detail message,
    get data "access" = inr access /\
    get data "refresh" = inr refresh /\
    get data "detail" = inr detail /\
    get data "message" = inr message /\
    let text_of := to_string (number_to_string env) in
    let connection_error (e : JsError) (w' : World) :=
      (Returned
         (AuthManager.mkResult false
            "Connection error. Please check your connection and try again."),
       logged (LogError "Login error:" e) w') in
    (forall s, text_of (JStr s) = inr s) /\
    AuthManager.login env base csrf email password w =
      if ok r then
        match text_of access, text_of refresh with
        | inr access_text, inr refresh_text =>
            (Returned
               (AuthManager.mkResult true "Login successful! Welcome back."),
             with_localStorage
               (fun store =>
                  <[ "refresh_token" := refresh_text ]>
                    (<[ "access_token" := access_text ]> store))
               (record request w))
        | inr access_text, inl e =>
            connection_error e
              (with_localStorage (insert "access_token" access_text)
                 (record request w))
        | inl e, _ => connection_error e (record request w)
        end
      else
        match
          text_of (or_else detail
                     (or_else message (JStr "Invalid credentials")))
        with
        | inr reason =>
            (Returned
               (AuthManager.mkResult false
                  ("Login failed: " ++ reason)%string),
             record request w)
        | inl e => connection_error e (record request w)
        end.
Proof.
  intros request Hnet Hjson Hnull Hundef.
  destruct (get_of_value data "access" Hnull Hundef) as [access Haccess].
  destruct (get_of_value data "refresh" Hnull Hundef) as [refresh Hrefresh].
  destruct (get_of_value data "detail" Hnull Hundef) as [detail Hdetail].
  destruct (get_of_value data "message" Hnull Hundef) as [message Hmessage].
  exists access, refresh, detail, message.
  do 4 (split; [assumption|]). intros text_of connection_error.
  split; [reflexivity|].
  unfold AuthManager.login, try_catch, bind at 1, fetch.
  change (mkRequest (base ++ "/admin/login/")
                    (AuthManager.login_init csrf email password))
    with request.
  rewrite Hnet. destruct (ok r).
  - unfold bind, response_json. rewrite Hjson. cbn.
    rewrite Haccess. cbn. unfold localStorage_setItem. subst text_of.
    destruct (to_string (number_to_string env) access); [reflexivity|].
    rewrite Hrefresh. cbn.
    now destruct (to_string (number_to_string env) refresh).
  - unfold bind, response_json. rewrite Hjson. cbn.
    rewrite Hdetail. cbn. unfold or_else, ret. subst text_of.
    destruct (to_boolean detail).
    { now destruct (to_string (number_to_string env) detail). }
    cbn. rewrite Hmessage. cbn.
    destruct (to_boolean message);
      now destruct (to_string (number_to_string env) _).
Qed.

Lemma login_result_witness :
  let env := Reference.browser (Scenario.always Scenario.bad_credentials) in
  let w := Scenario.session "old" "r" in
  let request := AuthManager.login_request "/api" "c" "a@b.com" "pw" in
  exists access refresh detail message,
    get (JObj [("detail", JStr "bad credentials")]) "access" = inr access /\
    get (JObj [("detail", JStr "bad credentials")]) "refresh" = inr refresh /\
    get (JObj [("detail", JStr "bad credentials")]) "detail" = inr detail /\
    get (JObj [("detail", JStr "bad credentials")]) "message" = inr message /\
    let text_of := to_string (number_to_string env) in
    let connection_error (e : JsError) (w' : World) :=
      (Returned
         (AuthManager.mkResult false
            "Connection error. Please check your connection and try again."),
       logged (LogError "Login error:" e) w') in
    (forall s, text_of (JStr s) = inr s) /\
    AuthManager.login env "/api" "c" "a@b.com" "pw" w =
      if ok Scenario.bad_credentials then
        match text_of access, text_of refresh with
        | inr access_text, inr refresh_text =>
            (Returned
               (AuthManager.mkResult true "Login successful! Welcome back."),
             with_localStorage
               (fun store =>
                  <[ "refresh_token" := refresh_text ]>
                    (<[ "access_token" := access_text ]> store))
               (record request w))
        | inr access_text, inl e =>
            connection_error e
              (with_localStorage (insert "access_token" access_text)
                 (record request w))
        | inl e, _ => connection_error e (record request w)
        end
      else
        match
          text_of (or_else detail
                     (or_else message (JStr "Invalid credentials")))
        with
        | inr reason =>
            (Returned
               (AuthManager.mkResult false
                  ("Login failed: " ++ reason)%string),
             record request w)
        | inl e => connection_error e (record request w)
        end.
Proof.
  intros env w request.
  apply (login_result env "/api" "c" "a@b.com" "pw" w
           Scenario.bad_credentials
           (JObj [("detail", JStr "bad credentials")])).
  - reflexivity.
  - reflexivity.
  - discriminate.
  - discriminate.
Defined.

(** C7, as stated, fails in its failure half: the message of a rejected
    login is not the server's [detail] but that text behind the prefix
    "Login failed: ". *)
Lemma login_failure_message_is_prefixed :
  let env := Reference.browser (Scenario.always Scenario.bad_credentials) in
  let completion :=
    fst (AuthManager.login env "/api" "c" "a@b.com" "pw"
           (Scenario.session "old" "r")) in
  completion
    = Returned (AuthManager.mkResult false "Login failed: bad credentials") /\
  completion <> Returned (AuthManager.mkResult false "bad credentials").
Proof. vm_compute. split; [reflexivity|discriminate]. Qed.

(** The two runs of the specification's example. *)
Example login_accepted :
  let env :=
    Reference.browser (Scenario.always (Scenario.token_pair "A" "R")) in
  let '(completion, w') :=
    AuthManager.login env "/api" "c" "a@b.com" "pw" Scenario.signed_out in
  completion
    = Returned (AuthManager.mkResult true "Login successful! Welcome back.") /\
  localStorage w' = <[ "access_token" := "A" ]> {[ "refresh_token" := "R" ]}.
Proof. vm_compute. split; reflexivity. Qed.

Example login_rejected :
  let env := Reference.browser (Scenario.always Scenario.bad_credentials) in
  let '(completion, w') :=
    AuthManager.login env "/api" "c" "a@b.com" "pw"
      (Scenario.session "old" "r") in
  completion
    = Returned (AuthManager.mkResult false "Login failed: bad credentials") /\
  localStorage w' = localStorage (Scenario.session "old" "r").
Proof. vm_compute. split; reflexivity. Qed.

(** An accepted login whose [refresh] member has no text is reported as
    a connection error after the access token has been replaced: the
    stored pair is the new access token with the old refresh token. *)
Example login_half_written :
  let env :=
    Reference.browser
      (Scenario.always
         (mkResponse 200
            (Some (JObj [("access", JStr "A");
                         ("refresh", JObj [("toString", JNull)])])))) in
  let '(completion, w') :=
    AuthManager.login env "/api" "c" "a@b.com" "pw"
      (Scenario.session "old" "r") in
  completion
    = Returned
        (AuthManager.mkResult false
           "Connection error. Please check your connection and try again.") /\
  localStorage w' = <[ "access_token" := "A" ]> {[ "refresh_token" := "r" ]}.
Proof. vm_compute. split; reflexivity. Qed.

(** A login that does not succeed leaves the store as it was, whatever
    went wrong, an unreachable server, a body that is not JSON or is
    [null], or a rejection, with the one exception above: after a 2xx
    answer the access token may have been replaced.  The refresh token,
    every other key and [sessionStorage] are as they were in any case. *)
Lemma login_failure_keeps_store (env : Env)
    (base csrf email password : string) (w : World) :
  exists result w',
    AuthManager.login env base csrf email password w = (Returned result, w') /\
    (AuthManager.success result = false ->
     sessionStorage w' = sessionStorage w /\
     (forall key, key <> "access_token" ->
                  localStorage w' !! key = localStorage w !! key) /\
     ((forall r,
          net env (sent w)
              (AuthManager.login_request base csrf email password)
          = Responded r -> ok r = false) ->
      localStorage w' = localStorage w)).
Proof.
  unfold AuthManager.login, try_catch, bind at 1, fetch.
  change (mkRequest (base ++ "/admin/login/")
                    (AuthManager.login_init csrf email password))
    with (AuthManager.login_request base csrf email password).
  destruct (net env (sent w) _) as [r|reason] eqn:Hnet.
  2:{ eexists _, _. split; [reflexivity|]. now intros _. }
  destruct (ok r) eqn:Hok.
  - unfold bind at 1, response_json.
    destruct (json r) as [data|].
    2:{ eexists _, _. split; [reflexivity|]. now intros _. }
    cbn. destruct (get data "access") as [e|access] eqn:Haccess.
    { eexists _, _. split; [reflexivity|]. now intros _. }
    destruct (get_twice data "access" "refresh" access Haccess)
      as [refresh Hrefresh].
    cbn. unfold localStorage_setItem.
    destruct (to_string (number_to_string env) access) as [e|text].
    { eexists _, _. split; [reflexivity|]. now intros _. }
    rewrite Hrefresh. cbn.
    destruct (to_string (number_to_string env) refresh) as [e|text'].
    + eexists _, _. split; [reflexivity|]. intros _. cbn.
      split; [reflexivity|]. split.
      * intros key Hkey. now rewrite lookup_insert_ne.
      * intros Hrejected. specialize (Hrejected r eq_refl). congruence.
    + eexists _, _. split; [reflexivity|]. discriminate.
  - unfold bind at 1, response_json.
    destruct (json r) as [data|].
    2:{ eexists _, _. split; [reflexivity|]. now intros _. }
    cbn. destruct (get data "detail") as [e|detail] eqn:Hdetail.
    { eexists _, _. split; [reflexivity|]. now intros _. }
    destruct (get_twice data "detail" "message" detail Hdetail)
      as [message Hmessage].
    cbn. unfold bind, ret, lift, throw. rewrite Hmessage.
    destruct (to_boolean detail); cbn;
      destruct (to_string (number_to_string env) _);
      eexists _, _; (split; [reflexivity|]); now intros _.
Qed.

(** C8.  [logout] always completes normally, and when it does neither
    token is in the store, whether the logout request was answered,
    failed, or was never sent. *)
Theorem logout_always_clears_tokens (env : Env) (base csrf : string)
    (w : World) :
  exists w',
    AuthManager.logout env base csrf w
      = (Returned (AuthManager.mkResult true "Logged out successfully"), w') /\
    localStorage w' !! "access_token" = None /\
    localStorage w' !! "refresh_token" = None /\
    localStorage w'
      = delete "refresh_token" (delete "access_token" (localStorage w)) /\
    sessionStorage w' = sessionStorage w.
Proof.
  unfold AuthManager.logout, finally_return, AuthManager.clearTokens, bind,
    localStorage_removeItem.
  eexists. split; [reflexivity|]. cbn.
  set (w1 := snd _).
  assert (Hframe : localStorage w1 = localStorage w /\
                   sessionStorage w1 = sessionStorage w).
  { subst w1. unfold try_catch, AuthManager.getToken, localStorage_getItem.
    destruct (truthy (localStorage w !! AuthManager.TOKEN_KEY)); [|now split].
    unfold fetch. destruct (net env (sent w) _); now split. }
  destruct Hframe as [-> ->]. repeat split; auto with store.
Qed.

(** [logout] with the logout endpoint out of reach. *)
Example logout_offline :
  let '(completion, w') :=
    AuthManager.logout (Reference.browser Reference.offline) "/api" "c"
      (Scenario.session "old" "r") in
  completion
    = Returned (AuthManager.mkResult true "Logged out successfully") /\
  localStorage w' = ∅ /\
  console w'
    = [LogError "Logout API call failed:" (FetchFailed "Failed to fetch")].
Proof. vm_compute. repeat split. Qed.

(** ** The claims about reading the access token *)

(** Decoding a stored token, in [auth-utils.js]: what comes back when the
    claims cannot be had, and when they can. *)
Lemma getCurrentUserInfo_undecodable (env : Env) (w : World)
    (token : string) (err : JsError) :
  truthy (localStorage w !! "access_token") = Some token ->
  claims env token = inl err ->
  AuthUtils.getCurrentUserInfo env w
    = (Returned None, logged (LogError "Token decode error:" err) w).
Proof.
  intros Htoken Hclaims.
  unfold AuthUtils.getCurrentUserInfo, bind at 1, localStorage_getItem.
  rewrite Htoken. unfold try_catch, bind at 1, decode_payload.
  now rewrite Hclaims.
Qed.

Lemma getCurrentUserInfo_decoded (env : Env) (w : World)
    (token : string) (payload exp : JsVal) :
  truthy (localStorage w !! "access_token") = Some token ->
  claims env token = inr payload ->
  get payload "exp" = inr exp ->
  exists user_id email,
    AuthUtils.getCurrentUserInfo env w
      = (Returned (Some (AuthUtils.mkUserInfo user_id email exp)), w).
Proof.
  intros Htoken Hclaims Hexp.
  destruct (get_twice payload "exp" "user_id" exp Hexp) as [user_id Hid].
  destruct (get_twice payload "exp" "email" exp Hexp) as [email Hemail].
  exists user_id, email.
  unfold AuthUtils.getCurrentUserInfo, bind at 1, localStorage_getItem.
  rewrite Htoken. unfold try_catch, bind at 1, decode_payload.
  rewrite Hclaims. cbn. rewrite Hid. cbn. rewrite Hemail. cbn.
  now rewrite Hexp.
Qed.

(** C9, as the code has it.  Finding the stored access token undecodable
    clears nothing: [getCurrentUserInfo] answers [null], [isTokenExpired]
    answers [true] (in both scripts), and the store, refresh token
    included, is exactly what it was; [auth-utils.js] adds a line to the
    console and that is all. *)
Theorem undecodable_token_stays_stored (env : Env) (now : Z) (w : World)
    (token : string) (err : JsError) :
  truthy (localStorage w !! "access_token") = Some token ->
  claims env token = inl err ->
  let w' := logged (LogError "Token decode error:" err) w in
  AuthUtils.getCurrentUserInfo env w = (Returned None, w') /\
  AuthUtils.isTokenExpired env now w = (Returned true, w') /\
  AuthManager.isTokenExpired env now w = (Returned true, w) /\
  localStorage w' = localStorage w /\
  sessionStorage w' = sessionStorage w.
Proof.
  intros Htoken Hclaims w'.
  pose proof (getCurrentUserInfo_undecodable env w token err Htoken Hclaims)
    as Hinfo.
  repeat split.
  - exact Hinfo.
  - unfold AuthUtils.isTokenExpired, bind. now rewrite Hinfo.
  - unfold AuthManager.isTokenExpired, AuthManager.getToken, bind at 1,
      localStorage_getItem.
    change AuthManager.TOKEN_KEY with "access_token". rewrite Htoken.
    unfold try_catch, bind, decode_payload. now rewrite Hclaims.
Qed.

Lemma undecodable_token_stays_stored_witness :
  let env := Reference.browser Reference.offline in
  let w := Scenario.session "garbage" "r" in
  let w' := logged (LogError "Token decode error:" InvalidCharacter) w in
  AuthUtils.getCurrentUserInfo env w = (Returned None, w') /\
  AuthUtils.isTokenExpired env 0 w = (Returned true, w') /\
  AuthManager.isTokenExpired env 0 w = (Returned true, w) /\
  localStorage w' = localStorage w /\
  sessionStorage w' = sessionStorage w.
Proof.
  intros env w.
  apply (undecodable_token_stays_stored env 0 w "garbage" InvalidCharacter).
  - vm_compute. reflexivity.
  - reflexivity.
Defined.

(** C9, as stated, fails: after [isTokenExpired] has found the access
    token undecodable, that token and the refresh token are both still in
    the store. *)
Lemma malformed_token_is_not_cleared :
  let env := Reference.browser Reference.offline in
  let w := Scenario.session "garbage" "r" in
  let '(completion, w') := AuthUtils.isTokenExpired env 0 w in
  claims env "garbage" = inl InvalidCharacter /\
  completion = Returned true /\
  localStorage w' !! "access_token" = Some "garbage" /\
  localStorage w' !! "refresh_token" = Some "r".
Proof. vm_compute. repeat split. Qed.

(** C5, where the code departs from it.  At the instant of expiry, when
    [Date.now()] is exactly [exp * 1000], [AuthManager.isTokenExpired]
    still answers [false]: it tests [exp * 1000 < Date.now()].  The
    function of [auth-utils.js] answers [true] for the same token at the
    same instant. *)
Theorem manager_isTokenExpired_at_expiry (env : Env) (w : World)
    (token : string) (payload : JsVal) (e : Z) :
  truthy (localStorage w !! "access_token") = Some token ->
  claims env token = inr payload ->
  get payload "exp" = inr (JNum (integer e)) ->
  AuthManager.isTokenExpired env (e * 1000) w = (Returned false, w) /\
  AuthUtils.isTokenExpired env (e * 1000) w = (Returned true, w).
Proof.
  intros Htoken Hclaims Hexp. split.
  - unfold AuthManager.isTokenExpired, AuthManager.getToken, bind at 1,
      localStorage_getItem.
    change AuthManager.TOKEN_KEY with "access_token". rewrite Htoken.
    unfold try_catch, bind, decode_payload. rewrite Hclaims. cbn [lift ret].
    rewrite Hexp. cbn [lift ret to_number].
    now rewrite less_than_milliseconds, Z.ltb_irrefl.
  - destruct (getCurrentUserInfo_decoded env w token payload
                (JNum (integer e)) Htoken Hclaims Hexp)
      as (user_id & email & Hinfo).
    unfold AuthUtils.isTokenExpired, bind. rewrite Hinfo.
    cbn [AuthUtils.exp]. rewrite to_boolean_integer.
    destruct (e =? 0) eqn:Hzero; [reflexivity|].
    cbn [negb lift ret to_number].
    rewrite Z.div_mul, at_least_integer by discriminate.
    replace (e >=? e) with true; [reflexivity|].
    symmetry. apply Z.geb_le. lia.
Qed.

Lemma manager_isTokenExpired_at_expiry_witness :
  let env := Reference.browser Reference.offline in
  let w := Scenario.session Scenario.token_exp_1000 "r" in
  AuthManager.isTokenExpired env (1000 * 1000) w = (Returned false, w) /\
  AuthUtils.isTokenExpired env (1000 * 1000) w = (Returned true, w).
Proof.
  intros env w.
  apply (manager_isTokenExpired_at_expiry env w Scenario.token_exp_1000
           (JObj [("exp", JNum (integer 1000))]) 1000).
  - vm_compute. reflexivity.
  - vm_compute. reflexivity.
  - reflexivity.
Defined.

(** [isTokenExpired] of [auth-utils.js] writes to neither storage and
    sends nothing.  It ends with an answer, except for a token whose
    [exp] claim is truthy and has no number: the conversion in the
    comparison, which no [try] surrounds, then throws. *)
Lemma isTokenExpired_outcome (env : Env) (now : Z) (w : World) :
  exists completion w',
    AuthUtils.isTokenExpired env now w = (completion, w') /\
    localStorage w' = localStorage w /\
    sessionStorage w' = sessionStorage w /\
    sent w' = sent w /\
    forall e, completion = Thrown e ->
      exists token payload exp,
        truthy (localStorage w !! "access_token") = Some token /\
        claims env token = inr payload /\
        get payload "exp" = inr exp /\
        to_boolean exp = true /\
        to_number (number_to_string env) (string_to_number env) exp = inl e.
Proof.
  unfold AuthUtils.isTokenExpired, AuthUtils.getCurrentUserInfo, bind at 1 2,
    localStorage_getItem.
  destruct (truthy (localStorage w !! "access_token")) as [token|] eqn:Htoken.
  2:{ eexists _, _. split; [reflexivity|]. now repeat split. }
  unfold try_catch, bind at 1, decode_payload.
  destruct (claims env token) as [err|payload] eqn:Hclaims; cbn.
  { eexists _, _. split; [reflexivity|]. now repeat split. }
  destruct (get payload "user_id") as [err|user_id] eqn:Hid; cbn.
  { eexists _, _. split; [reflexivity|]. now repeat split. }
  destruct (get_twice payload "user_id" "email" user_id Hid) as [email ->].
  destruct (get_twice payload "user_id" "exp" user_id Hid) as [exp Hexp].
  rewrite Hexp. cbn.
  destruct (to_boolean exp) eqn:Htruthy; cbn.
  2:{ eexists _, _. split; [reflexivity|]. now repeat split. }
  unfold bind.
  destruct (to_number (number_to_string env) (string_to_number env) exp)
    as [e|n] eqn:Hnumber; cbn.
  - eexists _, _. split; [reflexivity|]. repeat split.
    intros e' [= <-]. now exists token, payload, exp.
  - eexists _, _. split; [reflexivity|]. now repeat split.
Qed.

(** A token whose [exp] claim is the object [{"toString": null}] makes
    [isTokenExpired] of [auth-utils.js] throw, while [AuthManager] and the
    chat-history page catch the same failure and report the token expired
    and the user signed out. *)
Example isTokenExpired_throws :
  let env := Reference.browser Reference.offline in
  let w := Scenario.session Scenario.token_exp_textless "r" in
  claims env Scenario.token_exp_textless
    = inr (JObj [("exp", JObj [("toString", JNull)])]) /\
  AuthUtils.isTokenExpired env 1700000000000 w = (Thrown NotPrimitive, w) /\
  AuthManager.isTokenExpired env 1700000000000 w = (Returned true, w) /\
  ChatHistory.isAuthenticated env 1700000000000 w = (Returned false, w).
Proof. vm_compute. repeat split. Qed.

Lemma manager_isTokenExpired_total (env : Env) (now : Z) (w : World) :
  exists expired,
    AuthManager.isTokenExpired env now w = (Returned expired, w).
Proof.
  unfold AuthManager.isTokenExpired, AuthManager.getToken, bind at 1,
    localStorage_getItem.
  destruct (truthy (localStorage w !! AuthManager.TOKEN_KEY)) as [token|].
  2:{ now eexists. }
  unfold try_catch, bind, decode_payload.
  destruct (claims env token) as [err|payload]; cbn.
  { now eexists. }
  destruct (get payload "exp") as [err|exp]; cbn; [now eexists|].
  destruct (to_number (number_to_string env) (string_to_number env) exp);
    cbn; now eexists.
Qed.

(** What C5 says, for [auth-utils.js]: on tokens whose claims, when they
    decode, carry a whole number as [exp], and with the clock past the
    epoch, [isTokenExpired] answers [true] exactly when no token is
    stored, or the stored one does not decode, or
    [exp * 1000 <= Date.now()]. *)
Lemma isTokenExpired_iff (env : Env) (now : Z) (w : World) :
  0 <= now ->
  (forall token payload,
      truthy (localStorage w !! "access_token") = Some token ->
      claims env token = inr payload ->
      exists e, get payload "exp" = inr (JNum (integer e))) ->
  exists expired w',
    AuthUtils.isTokenExpired env now w = (Returned expired, w') /\
    (expired = true <->
     truthy (localStorage w !! "access_token") = None \/
     (exists token err,
         truthy (localStorage w !! "access_token") = Some token /\
         claims env token = inl err) \/
     (exists token payload e,
         truthy (localStorage w !! "access_token") = Some token /\
         claims env token = inr payload /\
         get payload "exp" = inr (JNum (integer e)) /\
         e * 1000 <= now)).
Proof.
  intros Hnow Hwell.
  destruct (truthy (localStorage w !! "access_token")) as [token|] eqn:Htoken.
  2:{ exists true, w. split; [|tauto].
      unfold AuthUtils.isTokenExpired, AuthUtils.getCurrentUserInfo, bind,
        localStorage_getItem. now rewrite Htoken. }
  destruct (claims env token) as [err|payload] eqn:Hclaims.
  { exists true, (logged (LogError "Token decode error:" err) w). split.
    - unfold AuthUtils.isTokenExpired, bind.
      now rewrite (getCurrentUserInfo_undecodable env w token err).
    - split; [|reflexivity]. intros _. right. left. now exists token, err. }
  destruct (Hwell token payload eq_refl Hclaims) as [e Hexp].
  destruct (getCurrentUserInfo_decoded env w token payload
              (JNum (integer e)) Htoken Hclaims Hexp)
    as (user_id & email & Hinfo).
  assert (Hdiv : e <= now / 1000 <-> e * 1000 <= now).
  { split; intros H.
    - pose proof (Z.mul_div_le now 1000). lia.
    - apply Z.div_le_lower_bound; lia. }
  exists (if e =? 0 then true else now / 1000 >=? e), w. split.
  - unfold AuthUtils.isTokenExpired, bind. rewrite Hinfo.
    cbn [AuthUtils.exp]. rewrite to_boolean_integer.
    destruct (e =? 0); [reflexivity|].
    cbn [negb lift ret to_number]. now rewrite at_least_integer.
  - split.
    + intros Hexpired. right. right. exists token, payload, e.
      repeat split; try assumption.
      destruct (Z.eqb_spec e 0) as [->|_]; [lia|].
      apply Hdiv. now apply Z.geb_le.
    + intros [Hnone | [(t & err & Ht & Herr) | (t & p & e' & Ht & Hp & He & Hle)]].
      * discriminate.
      * injection Ht as <-. congruence.
      * injection Ht as <-. rewrite Hclaims in Hp. injection Hp as <-.
        rewrite Hexp in He. injection He as <-.
        destruct (e =? 0); [reflexivity|].
        apply Z.geb_le. now apply Hdiv.
Qed.

(** The same for [AuthManager], where the comparison is strict. *)
Lemma manager_isTokenExpired_iff (env : Env) (now : Z) (w : World) :
  (forall token payload,
      truthy (localStorage w !! "access_token") = Some token ->
      claims env token = inr payload ->
      exists e, get payload "exp" = inr (JNum (integer e))) ->
  exists expired,
    AuthManager.isTokenExpired env now w = (Returned expired, w) /\
    (expired = true <->
     truthy (localStorage w !! "access_token") = None \/
     (exists token err,
         truthy (localStorage w !! "access_token") = Some token /\
         claims env token = inl err) \/
     (exists token payload e,
         truthy (localStorage w !! "access_token") = Some token /\
         claims env token = inr payload /\
         get payload "exp" = inr (JNum (integer e)) /\
         e * 1000 < now)).
Proof.
  intros Hwell.
  unfold AuthManager.isTokenExpired, AuthManager.getToken, bind at 1,
    localStorage_getItem.
  change AuthManager.TOKEN_KEY with "access_token".
  destruct (truthy (localStorage w !! "access_token")) as [token|] eqn:Htoken.
  2:{ exists true. split; [reflexivity|tauto]. }
  unfold try_catch, bind, decode_payload.
  destruct (claims env token) as [err|payload] eqn:Hclaims.
  { exists true. split; [reflexivity|]. split; [|reflexivity].
    intros _. right. left. now exists token, err. }
  destruct (Hwell token payload eq_refl Hclaims) as [e Hexp].
  exists (e * 1000 <? now). cbn [lift ret]. rewrite Hexp.
  cbn [lift ret to_number]. rewrite less_than_milliseconds.
  split; [reflexivity|].
  rewrite Z.ltb_lt. split.
  - intros Hlt. right. right. now exists token, payload, e.
  - intros [Hnone | [(t & err & Ht & Herr) | (t & p & e' & Ht & Hp & He & Hlt)]].
    + discriminate.
    + injection Ht as <-. congruence.
    + injection Ht as <-. rewrite Hclaims in Hp. injection Hp as <-.
      rewrite Hexp in He. now injection He as <-.
Qed.

(** A token that expires in the far future is live in both scripts. *)
Example live_token :
  let env := Reference.browser Reference.offline in
  let w := Scenario.session Scenario.token_exp_2000000000 "r" in
  AuthUtils.isTokenExpired env 1700000000000 w = (Returned false, w) /\
  AuthManager.isTokenExpired env 1700000000000 w = (Returned false, w).
Proof. vm_compute. split; reflexivity. Qed.

(** A token whose URL-safe middle segment contains [_] carries readable
    claims with [exp] far in the future, yet [atob] rejects the segment
    and both scripts report the token expired. *)
Example base64url_token_reads_as_expired :
  let env := Reference.browser Reference.offline in
  let w := Scenario.session Scenario.token_zoe "r" in
  Reference.base64url_claims Scenario.token_zoe
    = Some (JObj [("exp", JNum (integer 2000000000));
                  ("name", JStr "Zoe?")]) /\
  claims env Scenario.token_zoe = inl InvalidCharacter /\
  fst (AuthUtils.isTokenExpired env 1700000000000 w) = Returned true /\
  fst (AuthManager.isTokenExpired env 1700000000000 w) = Returned true.
Proof. vm_compute. repeat split. Qed.

(** * Further properties of the scripts *)

(** ** [escapeHtml] of the chat-history page *)

Lemma append_cons (d : ascii) (a b : string) :
  (String d a ++ b)%string = String d (a ++ b).
Proof. reflexivity. Qed.

Lemma append_associative (a b c : string) :
  ((a ++ b) ++ c = a ++ (b ++ c))%string.
Proof.
  induction a as [|d a IH]; [reflexivity|].
  now rewrite !append_cons, IH.
Qed.

Lemma replace_all_app (c : ascii) (replacement a b : string) :
  replace_all c replacement (a ++ b)
  = (replace_all c replacement a ++ replace_all c replacement b)%string.
Proof.
  induction a as [|d a IH]; [reflexivity|].
  rewrite append_cons. cbn [replace_all]. rewrite IH.
  destruct (Ascii.eqb d c); [|reflexivity].
  now rewrite append_associative.
Qed.

Lemma replacements_of_one (c : ascii) :
  replace_all "'" "&#039;"
    (replace_all double_quote "&quot;"
       (replace_all ">" "&gt;"
          (replace_all "<" "&lt;" (replace_all "&" "&amp;" (String c "")))))
  = ChatHistory.entity c.
Proof. destruct c as [[] [] [] [] [] [] [] []]; reflexivity. Qed.

Lemma replacements_of_text (s : string) :
  replace_all "'" "&#039;"
    (replace_all double_quote "&quot;"
       (replace_all ">" "&gt;"
          (replace_all "<" "&lt;" (replace_all "&" "&amp;" s))))
  = ChatHistory.entities s.
Proof.
  induction s as [|c rest IH]; [reflexivity|].
  change (String c rest) with (String c "" ++ rest)%string at 1.
  now rewrite !replace_all_app, IH, replacements_of_one.
Qed.

(** X1.  The five replacements of [escapeHtml], made one after the other,
    come to one pass over the text of the argument in which each of [&],
    [<], [>], the double quote and the apostrophe is replaced by its
    entity and every other character is kept: no replacement touches what
    an earlier one wrote.  The text is the one the argument's [toString]
    gives, and when that call throws so does [escapeHtml]. *)
Theorem escapeHtml_is_one_pass (env : Env) (unsafe : JsVal) :
  to_boolean unsafe = true ->
  ChatHistory.escapeHtml env unsafe =
    match toString_method (number_to_string env) unsafe with
    | inr text => inr (ChatHistory.entities text)
    | inl e => inl e
    end.
Proof.
  intros Htruthy. unfold ChatHistory.escapeHtml. rewrite Htruthy.
  cbn [negb].
  destruct (toString_method (number_to_string env) unsafe); [reflexivity|].
  now rewrite replacements_of_text.
Qed.

Lemma escapeHtml_is_one_pass_witness :
  let env := Reference.browser Reference.offline in
  ChatHistory.escapeHtml env (JStr "a<b & 'c'") =
    match toString_method (number_to_string env) (JStr "a<b & 'c'") with
    | inr text => inr (ChatHistory.entities text)
    | inl e => inl e
    end.
Proof.
  intros env.
  apply (escapeHtml_is_one_pass env (JStr "a<b & 'c'")). reflexivity.
Defined.

(** The run of the witness, read off. *)
Example escapeHtml_of_text :
  ChatHistory.escapeHtml (Reference.browser Reference.offline)
    (JStr "a<b & 'c'")
  = inr "a&lt;b &amp; &#039;c&#039;".
Proof. reflexivity. Qed.

Lemma list_ascii_of_append (a b : string) :
  list_ascii_of_string (a ++ b)
  = (list_ascii_of_string a ++ list_ascii_of_string b)%list.
Proof.
  induction a as [|d a IH]; [reflexivity|].
  rewrite append_cons. cbn. now rewrite IH.
Qed.

Lemma entity_has_no_markup (c : ascii) :
  forallb (fun d => negb (ChatHistory.markup d))
          (list_ascii_of_string (ChatHistory.entity c)) = true.
Proof. destruct c as [[] [] [] [] [] [] [] []]; reflexivity. Qed.

Lemma entities_have_no_markup (text : string) :
  forallb (fun c => negb (ChatHistory.markup c))
          (list_ascii_of_string (ChatHistory.entities text)) = true.
Proof.
  induction text as [|c rest IH]; [reflexivity|].
  cbn [ChatHistory.entities].
  now rewrite list_ascii_of_append, forallb_app, entity_has_no_markup, IH.
Qed.

(** X2.  Whatever it is given, [escapeHtml] either hands back a text in
    which none of [<], [>], the double quote and the apostrophe occurs, or
    throws; and it throws only for an object that has a member [toString]
    of its own, whose call fails, or for an array that has no text. *)
Theorem escapeHtml_has_no_markup (env : Env) (unsafe : JsVal) :
  match ChatHistory.escapeHtml env unsafe with
  | inr text =>
      forallb (fun c => negb (ChatHistory.markup c))
              (list_ascii_of_string text) = true
  | inl e =>
      (exists fields member,
          unsafe = JObj fields /\
          own_property "toString" fields = Some member /\
          e = NotAFunction "toString") \/
      (exists items,
          unsafe = JArr items /\
          to_string (number_to_string env) unsafe = inl e)
  end.
Proof.
  unfold ChatHistory.escapeHtml.
  destruct (to_boolean unsafe) eqn:Htruthy; [|reflexivity].
  cbn [negb].
  destruct (toString_method (number_to_string env) unsafe)
    as [e|text] eqn:Htext.
  - destruct unsafe as [| |[|]|n|s|items|fields]; try discriminate.
    + right. now exists items.
    + left. cbn in Htext.
      destruct (own_property "toString" fields) as [member|] eqn:Hown;
        [|discriminate].
      injection Htext as <-. now exists fields, member.
  - rewrite replacements_of_text. apply entities_have_no_markup.
Qed.

(** Both ways of throwing, and an object that has a text. *)
Example escapeHtml_throws :
  let env := Reference.browser Reference.offline in
  ChatHistory.escapeHtml env (JObj [("toString", JNull)])
    = inl (NotAFunction "toString") /\
  ChatHistory.escapeHtml env (JArr [JObj [("toString", JNull)]])
    = inl NotPrimitive /\
  ChatHistory.escapeHtml env (JObj [("a", JStr "<")])
    = inr "[object Object]".
Proof. repeat split. Qed.

(** ** [getCSRFToken] of [AuthManager] *)

Lemma split_without (c : ascii) (a : string) :
  occurs c a = false -> split c a = [a].
Proof.
  induction a as [|d a IH]; [reflexivity|].
  cbn. intros [Hd Ha]%orb_false_iff. now rewrite Hd, IH.
Qed.

Lemma split_at_first (c : ascii) (a t : string) :
  occurs c a = false ->
  split c (a ++ String c t) = a :: split c t.
Proof.
  induction a as [|d a IH]; intros Ha.
  - change (split c (String c t) = ["" : string] ++ split c t)%list.
    cbn [split]. now rewrite Ascii.eqb_refl.
  - cbn in Ha. apply orb_false_iff in Ha as [Hd Ha].
    rewrite append_cons. cbn [split]. now rewrite Hd, IH.
Qed.

Lemma split_pair_without (row : string) :
  occurs ";" row = false -> split_pair ";" " " row = [row].
Proof.
  induction row as [|c row IH]; [reflexivity|].
  cbn [occurs]. intros [Hc Hrow]%orb_false_iff.
  cbn [split_pair]. rewrite IH, Hc by assumption.
  now destruct row.
Qed.

Lemma split_pair_at_first (row t : string) :
  occurs ";" row = false ->
  split_pair ";" " " (row ++ String ";" (String " " t))
  = row :: split_pair ";" " " t.
Proof.
  induction row as [|c row IH]; intros Hrow; [reflexivity|].
  cbn [occurs] in Hrow. apply orb_false_iff in Hrow as [Hc Hrow].
  rewrite append_cons. cbn [split_pair]. rewrite IH, Hc by assumption.
  now destruct (row ++ String ";" (String " " t))%string.
Qed.

Lemma join_cons (sep p q : string) (rest : list string) :
  join sep (p :: q :: rest) = (p ++ sep ++ join sep (q :: rest))%string.
Proof. reflexivity. Qed.

(** Cutting a cookie text at "; " gives back the cookies it was joined
    from, as long as none of them holds a semicolon. *)
Lemma split_pair_join (rows : list string) :
  rows <> [] ->
  Forall (fun row => occurs ";" row = false) rows ->
  split_pair ";" " " (join "; " rows) = rows.
Proof.
  induction rows as [|row rows IH]; [congruence|]. intros _ Hrows.
  apply Forall_cons in Hrows as [Hrow Hrows].
  destruct rows as [|next rows].
  - now apply split_pair_without.
  - rewrite join_cons.
    change (row ++ "; " ++ join "; " (next :: rows))%string
      with (row ++ String ";" (String " " (join "; " (next :: rows))))%string.
    rewrite split_pair_at_first by assumption.
    now rewrite IH.
Qed.

Lemma prefix_append (a b : string) : String.prefix a (a ++ b) = true.
Proof.
  induction a as [|c a IH]; [now destruct b|].
  rewrite append_cons. cbn. now destruct (ascii_dec c c).
Qed.

Lemma find_first {A} (f : A -> bool) (before after : list A) (x : A) :
  Forall (fun y => f y = false) before ->
  f x = true ->
  List.find f (before ++ x :: after) = Some x.
Proof.
  induction before as [|y before IH]; intros Hbefore Hx; cbn.
  - now rewrite Hx.
  - apply Forall_cons in Hbefore as [-> Hbefore]. now apply IH.
Qed.

Lemma find_nothing {A} (f : A -> bool) (l : list A) :
  Forall (fun y => f y = false) l -> List.find f l = None.
Proof.
  induction l as [|y l IH]; [reflexivity|].
  intros [Hy Hl]%Forall_cons. cbn. rewrite Hy. now apply IH.
Qed.

(** X3.  From a cookie text made of cookies joined by "; ", none holding
    a semicolon, [getCSRFToken] reads the value of the first cookie named
    [csrftoken], whatever comes before or after it, when that value holds
    no [=]. *)
Theorem getCSRFToken_reads_first (before after : list string)
    (value : string) :
  Forall (fun row => occurs ";" row = false) before ->
  Forall (fun row => occurs ";" row = false) after ->
  Forall (fun row => String.prefix "csrftoken=" row = false) before ->
  occurs ";" value = false ->
  occurs "=" value = false ->
  AuthManager.getCSRFToken
    (join "; " (before ++ ("csrftoken=" ++ value)%string :: after))
  = value.
Proof.
  intros Hbefore Hafter Hnames Hsemi Hequal.
  unfold AuthManager.getCSRFToken.
  rewrite split_pair_join.
  - rewrite find_first; [|assumption|apply prefix_append].
    change ("csrftoken=" ++ value)%string
      with ("csrftoken" ++ String "=" value)%string.
    rewrite split_at_first by reflexivity.
    now rewrite (split_without "=" value).
  - now destruct before.
  - apply Forall_app. split; [assumption|].
    apply Forall_cons. split; [|assumption].
    cbn. assumption.
Qed.

Lemma getCSRFToken_reads_first_witness :
  AuthManager.getCSRFToken
    (join "; " (["theme=dark"]
                ++ ("csrftoken=" ++ "abc123")%string
                :: ["sessionid=xyz"; "csrftoken=later"]))
  = "abc123".
Proof.
  apply (getCSRFToken_reads_first ["theme=dark"]
           ["sessionid=xyz"; "csrftoken=later"] "abc123").
  - repeat constructor.
  - repeat constructor.
  - repeat constructor.
  - reflexivity.
  - reflexivity.
Defined.

(** X4.  A value that holds an [=] is cut at it: [getCSRFToken] hands
    back only what stands before the first [=] of the value. *)
Theorem getCSRFToken_cuts_at_equals (before after : list string)
    (front back : string) :
  Forall (fun row => occurs ";" row = false) before ->
  Forall (fun row => occurs ";" row = false) after ->
  Forall (fun row => String.prefix "csrftoken=" row = false) before ->
  occurs ";" front = false ->
  occurs ";" back = false ->
  occurs "=" front = false ->
  AuthManager.getCSRFToken
    (join "; "
       (before ++ ("csrftoken=" ++ front ++ String "=" back)%string :: after))
  = front.
Proof.
  intros Hbefore Hafter Hnames Hfront Hback Hequal.
  unfold AuthManager.getCSRFToken.
  rewrite split_pair_join.
  - rewrite find_first; [|assumption|apply prefix_append].
    change ("csrftoken=" ++ front ++ String "=" back)%string
      with ("csrftoken" ++ String "=" (front ++ String "=" back))%string.
    rewrite split_at_first by reflexivity.
    now rewrite split_at_first by assumption.
  - now destruct before.
  - apply Forall_app. split; [assumption|].
    apply Forall_cons. split; [|assumption].
    change (occurs ";" ("csrftoken=" ++ front ++ String "=" back) = false).
    clear -Hfront Hback. 
    assert (Happ : forall a b, occurs ";" a = false -> occurs ";" b = false ->
                               occurs ";" (a ++ b) = false).
    { intros a b Ha Hb. induction a as [|d a IH]; [assumption|].
      cbn in Ha. apply orb_false_iff in Ha as [Hd Ha].
      rewrite append_cons. cbn. now rewrite Hd, IH. }
    apply Happ; [reflexivity|]. apply Happ; [assumption|].
    cbn. assumption.
Qed.

Lemma getCSRFToken_cuts_at_equals_witness :
  AuthManager.getCSRFToken
    (join "; " ([] ++ ("csrftoken=" ++ "dG9rZW4" ++ String "=" "=")%string
                :: ["theme=dark"]))
  = "dG9rZW4".
Proof.
  apply (getCSRFToken_cuts_at_equals [] ["theme=dark"] "dG9rZW4" "=").
  - constructor.
  - repeat constructor.
  - constructor.
  - reflexivity.
  - reflexivity.
  - reflexivity.
Defined.

(** X5.  With no cookie named [csrftoken] among them, [getCSRFToken]
    hands back the empty text; so it does for an empty cookie text. *)
Theorem getCSRFToken_without_cookie (rows : list string) :
  Forall (fun row => occurs ";" row = false) rows ->
  Forall (fun row => String.prefix "csrftoken=" row = false) rows ->
  AuthManager.getCSRFToken (join "; " rows) = "".
Proof.
  intros Hrows Hnames. unfold AuthManager.getCSRFToken.
  destruct rows as [|row rows]; [reflexivity|].
  rewrite split_pair_join by (assumption || discriminate).
  now rewrite find_nothing.
Qed.

Lemma getCSRFToken_without_cookie_witness :
  AuthManager.getCSRFToken (join "; " ["theme=dark"; "sessionid=xyz"]) = "".
Proof.
  apply (getCSRFToken_without_cookie ["theme=dark"; "sessionid=xyz"]).
  - repeat constructor.
  - repeat constructor.
Defined.

(** ** [renderPagination] of the chat-history page *)







(** The controls for page 7 of 12. *)
Example pagination_7_of_12 :
  ChatHistory.renderPagination 7 12
  = [ChatHistory.PreviousButton false 6;
     ChatHistory.PageButton false 1; ChatHistory.PageDots;
     ChatHistory.PageButton false 5; ChatHistory.PageButton false 6;
     ChatHistory.PageButton true 7; ChatHistory.PageButton false 8;
     ChatHistory.PageButton false 9;
     ChatHistory.PageDots; ChatHistory.PageButton false 12;
     ChatHistory.NextButton false 8].
Proof. reflexivity. Qed.

(** ** The chat-history page and its token *)

Lemma either_storage_reads (key : string) (w : World) :
  ChatHistory.either_storage key w = (Returned (ChatHistory.stored key w), w).
Proof.
  unfold ChatHistory.either_storage, ChatHistory.stored, bind,
    localStorage_getItem, sessionStorage_getItem.
  now destruct (present (localStorage w !! key)).
Qed.

Lemma stored_local (key : string) (w : World) (text : string) :
  truthy (localStorage w !! key) = Some text ->
  ChatHistory.stored key w = localStorage w !! key.
Proof. unfold ChatHistory.stored, present. now intros ->. Qed.

(** The two checks on a token whose [exp] claim is a number. *)
Lemma chat_isAuthenticated_number (env : Env) (now : Z) (w : World)
    (token : string) (payload : JsVal) (n : Number) :
  truthy (localStorage w !! "access_token") = Some token ->
  claims env token = inr payload ->
  get payload "exp" = inr (JNum n) ->
  ChatHistory.isAuthenticated env now w
  = (Returned (greater_than n (Finite (Qmake now 1000))), w).
Proof.
  intros Htoken Hclaims Hexp.
  unfold ChatHistory.isAuthenticated, ChatHistory.getAuthToken, bind at 1.
  rewrite either_storage_reads.
  rewrite (stored_local _ _ token Htoken), Htoken.
  unfold try_catch, bind, decode_payload. rewrite Hclaims. cbn [lift ret].
  now rewrite Hexp.
Qed.

Lemma isTokenExpired_number (env : Env) (now : Z) (w : World)
    (token : string) (payload : JsVal) (n : Number) :
  truthy (localStorage w !! "access_token") = Some token ->
  claims env token = inr payload ->
  get payload "exp" = inr (JNum n) ->
  AuthUtils.isTokenExpired env now w
  = (Returned (if to_boolean (JNum n)
               then at_least (integer (now / 1000)) n
               else true), w).
Proof.
  intros Htoken Hclaims Hexp.
  destruct (getCurrentUserInfo_decoded env w token payload (JNum n)
              Htoken Hclaims Hexp) as (user_id & email & Hinfo).
  unfold AuthUtils.isTokenExpired, bind. rewrite Hinfo.
  cbn [AuthUtils.exp]. now destruct (to_boolean (JNum n)).
Qed.

(** X8.  For a token kept in [localStorage] whose claims carry a number
    as [exp], and a clock past the epoch: a user whom the chat-history
    page holds signed in has a token that [isTokenExpired] of
    [auth-utils.js] does not call expired.  When [exp] is a whole number
    of seconds the two agree: the page holds the user signed in exactly
    while [Date.now() < exp * 1000], and [auth-utils.js] calls the token
    expired exactly from then on.  Neither of the two writes anything. *)
Theorem chat_isAuthenticated_agrees (env : Env) (now : Z) (w : World)
    (token : string) (payload : JsVal) (q : Q) :
  0 <= now ->
  truthy (localStorage w !! "access_token") = Some token ->
  claims env token = inr payload ->
  get payload "exp" = inr (JNum (Finite q)) ->
  exists signed_in expired : bool,
    ChatHistory.isAuthenticated env now w = (Returned signed_in, w) /\
    AuthUtils.isTokenExpired env now w = (Returned expired, w) /\
    (signed_in = true -> expired = false) /\
    (forall e : Z,
        (q == inject_Z e)%Q ->
        signed_in = (now <? e * 1000) /\
        expired = negb (now <? e * 1000)).
Proof.
  intros Hnow Htoken Hclaims Hexp.
  exists (greater_than (Finite q) (Finite (Qmake now 1000))),
         (if to_boolean (JNum (Finite q))
          then at_least (integer (now / 1000)) (Finite q)
          else true).
  split; [now apply (chat_isAuthenticated_number env now w token payload)|].
  split; [now apply (isTokenExpired_number env now w token payload)|].
  destruct q as [n d].
  unfold greater_than, at_least, less_than, to_boolean, integer, is_NaN.
  cbn [orb]. rewrite ?negb_involutive.
  unfold Qle_bool, Qeq_bool, Qeq, inject_Z.
  cbn [Qnum Qden]. rewrite ?Z.mul_1_r, ?Pos.mul_1_r.
  change (0 * Z.pos d) with 0.
  pose proof (Z.mul_div_le now 1000 ltac:(lia)) as Hfloor.
  pose proof (Z.mod_pos_bound now 1000 ltac:(lia)) as Hmod.
  pose proof (Z.div_mod now 1000 ltac:(lia)) as Hdivmod.
  assert (Hd : 0 < Z.pos d) by lia.
  set (D := Z.pos d) in *. set (k := now / 1000) in *.
  split.
  - destruct (Z.leb_spec (n * 1000) (now * D)) as [Hdead|Hlive];
      [discriminate|]. intros _.
    destruct (Z.eqb_spec n 0) as [Hzero|Hnonzero]; cbn [negb]; [nia|].
    destruct (Z.leb_spec n (k * D)) as [Hpast|Hahead]; [nia|reflexivity].
  - intros e ->.
    assert (Hsame : e * D * 1000 <= now * D <-> e * 1000 <= now) by nia.
    assert (Hwhole : e * D <= k * D <-> e * 1000 <= now).
    { split; intros H.
      - assert (e <= k) by nia. lia.
      - assert (e <= k) by (apply Z.div_le_lower_bound; lia). nia. }
    destruct (Z.ltb_spec now (e * 1000)) as [Hlive|Hdead];
      destruct (Z.leb_spec (e * D * 1000) (now * D)) as [Hdead'|Hlive'];
      destruct (Z.eqb_spec (e * D) 0) as [Hzero|Hnonzero];
      destruct (Z.leb_spec (e * D) (k * D)) as [Hpast|Hahead];
      cbn [negb]; split; try reflexivity; exfalso; try lia; nia.
Qed.

Lemma chat_isAuthenticated_agrees_witness :
  let env := Reference.browser Reference.offline in
  let w := Scenario.session Scenario.token_exp_2000000000 "r" in
  exists signed_in expired : bool,
    ChatHistory.isAuthenticated env 1700000000000 w
      = (Returned signed_in, w) /\
    AuthUtils.isTokenExpired env 1700000000000 w = (Returned expired, w) /\
    (signed_in = true -> expired = false) /\
    (forall e : Z,
        (inject_Z 2000000000 == inject_Z e)%Q ->
        signed_in = (1700000000000 <? e * 1000) /\
        expired = negb (1700000000000 <? e * 1000)).
Proof.
  intros env w.
  apply (chat_isAuthenticated_agrees env 1700000000000 w
           Scenario.token_exp_2000000000
           (JObj [("exp", JNum (integer 2000000000))])
           (inject_Z 2000000000)).
  - lia.
  - vm_compute. reflexivity.
  - vm_compute. reflexivity.
  - reflexivity.
Defined.

(** With a fraction in [exp] the two checks can part: for [exp] 1000.5
    and the clock at 1000600 milliseconds the chat-history page holds the
    user signed out, while [auth-utils.js], which drops the fraction of
    the clock's seconds, does not yet call the token expired. *)
Example fractional_exp_parts_the_checks :
  let env := Reference.browser Reference.offline in
  let w := Scenario.session Scenario.token_exp_1000_5 "r" in
  claims env Scenario.token_exp_1000_5
    = inr (JObj [("exp", JNum (Finite (Qmake 2001 2)))]) /\
  ChatHistory.isAuthenticated env 1000600 w = (Returned false, w) /\
  AuthUtils.isTokenExpired env 1000600 w = (Returned false, w) /\
  AuthManager.isTokenExpired env 1000600 w = (Returned true, w).
Proof. vm_compute. repeat split. Qed.

(** The chat-history [authenticatedFetch], up to the first answer. *)
Lemma chat_fetch_first (env : Env) (url : string) (options : Init)
    (w : World) (r1 : Response) :
  let token := ChatHistory.stored "access_token" w in
  let request := mkRequest url (ChatHistory.config token options) in
  net env (sent w) request = Responded r1 ->
  ChatHistory.authenticatedFetch env url options w =
    (if (status r1 =? 401) && present token then
       let* refreshToken := ChatHistory.either_storage "refresh_token" in
       match truthy refreshToken with
       | Some refreshToken =>
           try_catch
             (let* refreshResponse :=
                fetch env "/api/token/refresh/"
                      (AuthUtils.refresh_init refreshToken) in
              if ok refreshResponse then
                let* data := response_json refreshResponse in
                let* kept := localStorage_getItem "access_token" in
                let* access := lift (get data "access") in
                (if present kept
                 then localStorage_setItem env "access_token" access
                 else sessionStorage_setItem env "access_token" access) >>
                let* bearer :=
                  lift (to_string (number_to_string env) access) in
                fetch env url
                  (AuthUtils.set_authorization
                     ("Bearer " ++ bearer)%string
                     (ChatHistory.config token options))
              else ret r1)
             (fun error =>
                console_error "Token refresh failed:" error >> ret r1)
       | None => ret r1
       end
     else ret r1) (record request w).
Proof.
  intros token request Hnet.
  unfold ChatHistory.authenticatedFetch, ChatHistory.getAuthToken, bind at 1.
  rewrite either_storage_reads. fold token.
  unfold bind at 1, fetch at 1. fold request. now rewrite Hnet.
Qed.

(** X9.  Once the server has answered the first request, the chat-history
    [authenticatedFetch] never fails: it hands back a response, and it has
    sent three requests at the most; an answer other than 401 is handed
    back at once, with nothing else sent and nothing stored. *)
Theorem chat_fetch_always_answers (env : Env) (url : string)
    (options : Init) (w : World) (r1 : Response) :
  let token := ChatHistory.stored "access_token" w in
  let request := mkRequest url (ChatHistory.config token options) in
  net env (sent w) request = Responded r1 ->
  exists r w',
    ChatHistory.authenticatedFetch env url options w = (Returned r, w') /\
    (length (sent w') <= length (sent w) + 3)%nat /\
    (status r1 <> 401 -> r = r1 /\ w' = record request w).
Proof.
  intros token request Hnet.
  rewrite (chat_fetch_first env url options w r1 Hnet).
  fold token. fold request. clear Hnet.
  assert (Hcount : forall a b : Request,
             (length ((sent w ++ [a]) ++ [b]) <= length (sent w) + 3)%nat).
  { intros a b. rewrite !length_app. cbn. lia. }
  assert (Hcount' : forall a b c : Request,
             (length (((sent w ++ [a]) ++ [b]) ++ [c])
              <= length (sent w) + 3)%nat).
  { intros a b c. rewrite !length_app. cbn. lia. }
  assert (Hone : (length (sent (record request w)) <= length (sent w) + 3)%nat).
  { cbn. rewrite length_app. cbn. lia. }
  destruct (Z.eqb_spec (status r1) 401) as [H401|Hother]; cbn [andb].
  2:{ exists r1, (record request w). now repeat split. }
  destruct (present token).
  2:{ exists r1, (record request w). split; [reflexivity|].
      split; [assumption|congruence]. }
  unfold bind at 1. rewrite either_storage_reads.
  destruct (truthy (ChatHistory.stored "refresh_token" (record request w)))
    as [refreshToken|].
  2:{ exists r1, (record request w). split; [reflexivity|].
      split; [assumption|congruence]. }
  unfold try_catch, bind at 1, fetch at 1.
  destruct (net env _ (mkRequest "/api/token/refresh/" _)) as [r2|reason].
  2:{ eexists _, _. split; [reflexivity|].
      split; [apply Hcount|congruence]. }
  destruct (ok r2).
  2:{ eexists _, _. split; [reflexivity|].
      split; [apply Hcount|congruence]. }
  unfold bind at 1, response_json. destruct (json r2) as [data|].
  2:{ eexists _, _. split; [reflexivity|].
      split; [apply Hcount|congruence]. }
  cbn [ret]. unfold bind at 1, localStorage_getItem.
  unfold bind at 1. destruct (get data "access") as [e|access]; cbn [lift].
  { eexists _, _. split; [reflexivity|].
    split; [apply Hcount|congruence]. }
  cbv beta iota delta [ret lift throw bind localStorage_setItem
                       sessionStorage_setItem].
  destruct (present _);
    destruct (to_string (number_to_string env) access) as [e|text];
    try (eexists _, _; (split; [reflexivity|]);
         (split; [apply Hcount|congruence]));
    unfold fetch; destruct (net env _ _) as [r3|reason];
    eexists _, _; (split; [reflexivity|]);
    (split; [apply Hcount'|congruence]).
Qed.

Lemma chat_fetch_always_answers_witness :
  let env :=
    Reference.browser
      (Scenario.always Scenario.unauthorized) in
  let w := Scenario.session "stale" "r" in
  let request :=
    mkRequest "/api/chat-history/?page=1"
      (ChatHistory.config (ChatHistory.stored "access_token" w) no_init) in
  exists r w',
    ChatHistory.authenticatedFetch env "/api/chat-history/?page=1" no_init w
      = (Returned r, w') /\
    (length (sent w') <= length (sent w) + 3)%nat /\
    (status Scenario.unauthorized <> 401 ->
     r = Scenario.unauthorized /\ w' = record request w).
Proof.
  intros env w request.
  apply (chat_fetch_always_answers env "/api/chat-history/?page=1" no_init
           w Scenario.unauthorized).
  reflexivity.
Defined.

(** X10.  When the chat-history [authenticatedFetch] meets a 401 and the
    refresh endpoint then rejects the refresh token, the call hands back
    the 401 it first got and leaves both storages as they were: unlike
    [refreshAccessToken], this copy of the refresh removes no token. *)
Theorem chat_fetch_rejected_refresh_keeps_tokens (env : Env) (url : string)
    (options : Init) (w : World) (token refreshToken : string)
    (r1 r2 : Response) :
  let kept := ChatHistory.stored "access_token" w in
  let request := mkRequest url (ChatHistory.config kept options) in
  let refresh := ChatHistory.refresh_request refreshToken in
  truthy kept = Some token ->
  truthy (ChatHistory.stored "refresh_token" w) = Some refreshToken ->
  net env (sent w) request = Responded r1 ->
  status r1 = 401 ->
  net env (sent w ++ [request]) refresh = Responded r2 ->
  ok r2 = false ->
  ChatHistory.authenticatedFetch env url options w
    = (Returned r1, record refresh (record request w)) /\
  localStorage (record refresh (record request w)) = localStorage w /\
  sessionStorage (record refresh (record request w)) = sessionStorage w.
Proof.
  intros kept request refresh Htoken Hrefresh Hnet H401 Hnet' Hok.
  split; [|now split].
  rewrite (chat_fetch_first env url options w r1 Hnet).
  fold kept. fold request. unfold present at 1. rewrite Htoken, H401.
  cbn [Z.eqb Pos.eqb andb].
  unfold bind at 1. rewrite either_storage_reads.
  change (ChatHistory.stored "refresh_token" (record request w))
    with (ChatHistory.stored "refresh_token" w).
  rewrite Hrefresh. unfold try_catch, bind at 1, fetch.
  change (mkRequest "/api/token/refresh/" (AuthUtils.refresh_init refreshToken))
    with refresh.
  change (sent (record request w)) with (sent w ++ [request])%list.
  now rewrite Hnet', Hok.
Qed.

Lemma chat_fetch_rejected_refresh_keeps_tokens_witness :
  let env := Reference.browser (Scenario.always Scenario.unauthorized) in
  let w := Scenario.session "stale" "r" in
  let request :=
    mkRequest "/api/chat-history/?page=1"
      (ChatHistory.config (ChatHistory.stored "access_token" w) no_init) in
  let refresh := ChatHistory.refresh_request "r" in
  ChatHistory.authenticatedFetch env "/api/chat-history/?page=1" no_init w
    = (Returned Scenario.unauthorized, record refresh (record request w)) /\
  localStorage (record refresh (record request w)) = localStorage w /\
  sessionStorage (record refresh (record request w)) = sessionStorage w.
Proof.
  intros env w request refresh.
  apply (chat_fetch_rejected_refresh_keeps_tokens env
           "/api/chat-history/?page=1" no_init w "stale" "r"
           Scenario.unauthorized Scenario.unauthorized).
  - vm_compute. reflexivity.
  - vm_compute. reflexivity.
  - reflexivity.
  - reflexivity.
  - reflexivity.
  - reflexivity.
Defined.

(** The accepted refresh, up to the retry. *)
Lemma chat_fetch_after_refresh (env : Env) (url : string)
    (options : Init) (w : World) (token refreshToken : string)
    (r1 r2 : Response) (data access : JsVal) :
  let kept := ChatHistory.stored "access_token" w in
  let request := mkRequest url (ChatHistory.config kept options) in
  let refresh := ChatHistory.refresh_request refreshToken in
  truthy kept = Some token ->
  truthy (ChatHistory.stored "refresh_token" w) = Some refreshToken ->
  net env (sent w) request = Responded r1 ->
  status r1 = 401 ->
  net env (sent w ++ [request]) refresh = Responded r2 ->
  ok r2 = true ->
  json r2 = Some data ->
  get data "access" = inr access ->
  ChatHistory.authenticatedFetch env url options w =
    match to_string (number_to_string env) access with
    | inr text =>
        try_catch
          (fetch env url
             (AuthUtils.set_authorization ("Bearer " ++ text)%string
                                          (init request)))
          (fun error => console_error "Token refresh failed:" error >> ret r1)
          ((if present (localStorage w !! "access_token")
            then with_localStorage (insert "access_token" text)
            else with_sessionStorage (insert "access_token" text))
             (record refresh (record request w)))
    | inl e =>
        (Returned r1,
         logged (LogError "Token refresh failed:" e)
                (record refresh (record request w)))
    end.
Proof.
  intros kept request refresh Htoken Hrefresh Hnet H401 Hnet' Hok Hjson Hget.
  rewrite (chat_fetch_first env url options w r1 Hnet).
  fold kept. fold request. unfold present at 1. rewrite Htoken, H401.
  cbn [Z.eqb Pos.eqb andb].
  unfold bind at 1. rewrite either_storage_reads.
  change (ChatHistory.stored "refresh_token" (record request w))
    with (ChatHistory.stored "refresh_token" w).
  rewrite Hrefresh. unfold try_catch, bind at 1, fetch at 1.
  change (mkRequest "/api/token/refresh/" (AuthUtils.refresh_init refreshToken))
    with refresh.
  change (sent (record request w)) with (sent w ++ [request])%list.
  rewrite Hnet', Hok. unfold bind at 1, response_json. rewrite Hjson.
  cbn [ret]. unfold bind at 1, localStorage_getItem. unfold bind at 1.
  rewrite Hget.
  change (localStorage (record refresh (record request w)))
    with (localStorage w).
  cbv beta iota delta [ret lift throw bind localStorage_setItem
                       sessionStorage_setItem console_error].
  destruct (present (localStorage w !! "access_token"));
    now destruct (to_string (number_to_string env) access).
Qed.

(** X11.  When the chat-history [authenticatedFetch] meets a 401 and the
    refresh is accepted with an [access] member that has a text, that
    text goes into [localStorage] if that holds an access token and into
    [sessionStorage] otherwise, never into both; the request is sent once
    more, to the same address with the same method, body and other
    members and with the same headers but for [Authorization], which is
    "Bearer " and that text, and its answer is the result.  If that retry
    cannot reach the server the failure is only logged, and the caller
    gets the 401 of the first attempt although the token has been
    renewed.  An [access] member without a text is logged as a failed
    refresh: nothing is stored, nothing more is sent, and the caller gets
    the first 401. *)
Theorem chat_fetch_accepted_refresh (env : Env) (url : string)
    (options : Init) (w : World) (token refreshToken : string)
    (r1 r2 : Response) (data access : JsVal) :
  let first_headers :=
    default ∅ (headers options)
    ∪ <[ "Authorization" := ("Bearer " ++ token)%string ]>
        {[ "Content-Type" := "application/json" ]} in
  let request :=
    mkRequest url
      (mkInit (method options) (Some first_headers) (body options)
              (others options)) in
  let refresh :=
    mkRequest "/api/token/refresh/"
      (mkInit (Some "POST")
              (Some {[ "Content-Type" := "application/json" ]})
              (Some (Stringified (JObj [("refresh", JStr refreshToken)])))
              ∅) in
  truthy (ChatHistory.stored "access_token" w) = Some token ->
  truthy (ChatHistory.stored "refresh_token" w) = Some refreshToken ->
  net env (sent w) request = Responded r1 ->
  status r1 = 401 ->
  net env (sent w ++ [request]) refresh = Responded r2 ->
  200 <= status r2 <= 299 ->
  json r2 = Some data ->
  get data "access" = inr access ->
  match to_string (number_to_string env) access with
  | inr text =>
      let renewed :=
        (if present (localStorage w !! "access_token")
         then with_localStorage (insert "access_token" text)
         else with_sessionStorage (insert "access_token" text))
          (record refresh (record request w)) in
      let retry :=
        mkRequest url
          (mkInit (method options)
                  (Some (<[ "Authorization" := ("Bearer " ++ text)%string ]>
                           first_headers))
                  (body options) (others options)) in
      match net env (sent w ++ [request; refresh]) retry with
      | Responded r3 =>
          ChatHistory.authenticatedFetch env url options w
          = (Returned r3, record retry renewed)
      | Unreachable reason =>
          ChatHistory.authenticatedFetch env url options w
          = (Returned r1,
             logged (LogError "Token refresh failed:" (FetchFailed reason))
                    (record retry renewed))
      end
  | inl e =>
      ChatHistory.authenticatedFetch env url options w
      = (Returned r1,
         logged (LogError "Token refresh failed:" e)
                (record refresh (record request w)))
  end.
Proof.
  intros first_headers request refresh Htoken Hrefresh Hnet H401 Hnet'
    Hok Hjson Hget.
  apply ok_iff in Hok.
  assert (Hrequest :
            mkRequest url
              (ChatHistory.config (ChatHistory.stored "access_token" w)
                 options) = request).
  { unfold ChatHistory.config, ChatHistory.defaultHeaders.
    now rewrite Htoken. }
  rewrite <- Hrequest in Hnet, Hnet'.
  rewrite (chat_fetch_after_refresh env url options w token refreshToken
             r1 r2 data access Htoken Hrefresh Hnet H401 Hnet' Hok Hjson Hget).
  rewrite Hrequest.
  change (ChatHistory.refresh_request refreshToken) with refresh.
  destruct (to_string (number_to_string env) access) as [e|text];
    [reflexivity|].
  intros renewed retry.
  assert (Hsent : sent renewed = (sent w ++ [request; refresh])%list).
  { subst renewed. destruct (present (localStorage w !! "access_token"));
      cbn; now rewrite <- app_assoc. }
  rewrite <- Hsent. fold renewed. unfold try_catch, fetch.
  change (mkRequest url
            (AuthUtils.set_authorization ("Bearer " ++ text)%string
                                         (init request)))
    with retry.
  destruct (net env (sent renewed) retry); reflexivity.
Qed.

Lemma chat_fetch_accepted_refresh_witness :
  let env :=
    Reference.browser
      (Scenario.site (Scenario.new_access "fresh") Scenario.unauthorized) in
  let w := mkWorld ∅ (<[ "access_token" := "stale" ]>
                        {[ "refresh_token" := "r" ]}) [] [] ∅ in
  let first_headers :=
    default ∅ (headers no_init)
    ∪ <[ "Authorization" := ("Bearer " ++ "stale")%string ]>
        {[ "Content-Type" := "application/json" ]} in
  let request :=
    mkRequest "/api/chat-history/?page=1"
      (mkInit (method no_init) (Some first_headers) (body no_init)
              (others no_init)) in
  let refresh :=
    mkRequest "/api/token/refresh/"
      (mkInit (Some "POST")
              (Some {[ "Content-Type" := "application/json" ]})
              (Some (Stringified (JObj [("refresh", JStr "r")])))
              ∅) in
  match to_string (number_to_string env) (JStr "fresh") with
  | inr text =>
      let renewed :=
        (if present (localStorage w !! "access_token")
         then with_localStorage (insert "access_token" text)
         else with_sessionStorage (insert "access_token" text))
          (record refresh (record request w)) in
      let retry :=
        mkRequest "/api/chat-history/?page=1"
          (mkInit (method no_init)
                  (Some (<[ "Authorization" := ("Bearer " ++ text)%string ]>
                           first_headers))
                  (body no_init) (others no_init)) in
      match net env (sent w ++ [request; refresh]) retry with
      | Responded r3 =>
          ChatHistory.authenticatedFetch env "/api/chat-history/?page=1"
            no_init w
          = (Returned r3, record retry renewed)
      | Unreachable reason =>
          ChatHistory.authenticatedFetch env "/api/chat-history/?page=1"
            no_init w
          = (Returned Scenario.unauthorized,
             logged (LogError "Token refresh failed:" (FetchFailed reason))
                    (record retry renewed))
      end
  | inl e =>
      ChatHistory.authenticatedFetch env "/api/chat-history/?page=1"
        no_init w
      = (Returned Scenario.unauthorized,
         logged (LogError "Token refresh failed:" e)
                (record refresh (record request w)))
  end.
Proof.
  intros env w first_headers request refresh.
  apply (chat_fetch_accepted_refresh env "/api/chat-history/?page=1"
           no_init w "stale" "r" Scenario.unauthorized
           (Scenario.new_access "fresh")
           (JObj [("access", JStr "fresh")]) (JStr "fresh")).
  - vm_compute. reflexivity.
  - vm_compute. reflexivity.
  - reflexivity.
  - reflexivity.
  - reflexivity.
  - simpl. lia.
  - reflexivity.
  - reflexivity.
Defined.

(** The same run, read off: the token kept in [sessionStorage] is renewed
    there and [localStorage] stays empty. *)
Example chat_fetch_renews_in_sessionStorage :
  let env :=
    Reference.browser
      (Scenario.site (Scenario.new_access "fresh") Scenario.unauthorized) in
  let w := mkWorld ∅ (<[ "access_token" := "stale" ]>
                        {[ "refresh_token" := "r" ]}) [] [] ∅ in
  let w' :=
    snd (ChatHistory.authenticatedFetch env "/api/chat-history/?page=1"
           no_init w) in
  sessionStorage w' !! "access_token" = Some "fresh" /\
  localStorage w' = ∅ /\
  List.map url (sent w')
    = ["/api/chat-history/?page=1"; "/api/token/refresh/";
       "/api/chat-history/?page=1"] /\
  List.map (fun request => default ∅ (headers (init request)) !! "Authorization")
      (sent w')
    = [Some "Bearer stale"; None; Some "Bearer fresh"].
Proof. vm_compute. repeat split. Qed.

(** An accepted refresh whose [access] member has no text: the page logs
    a failed refresh, stores nothing and does not try again. *)
Example chat_fetch_textless_access :
  let env :=
    Reference.browser
      (Scenario.site Scenario.textless_access Scenario.unauthorized) in
  let w := Scenario.session "stale" "r" in
  let '(completion, w') :=
    ChatHistory.authenticatedFetch env "/api/chat-history/?page=1"
      no_init w in
  completion = Returned Scenario.unauthorized /\
  localStorage w' = localStorage w /\
  sessionStorage w' = sessionStorage w /\
  length (sent w') = 2%nat /\
  console w' = [LogError "Token refresh failed:" NotPrimitive].
Proof. vm_compute. repeat split. Qed.

(** ** More of [auth-utils.js] *)

(** Whatever the server does, a refresh ends with a boolean, at most one
    request more in the log, and a store that differs from the old one in
    the two token slots at the most. *)
Lemma refresh_outcome (env : Env) (w : World) :
  exists (success : bool) (w' : World),
    AuthUtils.refreshAccessToken env w = (Returned success, w') /\
    (length (sent w') <= length (sent w) + 1)%nat /\
    (forall key, key <> "access_token" -> key <> "refresh_token" ->
                 localStorage w' !! key = localStorage w !! key) /\
    sessionStorage w' = sessionStorage w.
Proof.
  destruct (truthy (localStorage w !! "refresh_token"))
    as [refreshToken|] eqn:Hstored.
  2:{ exists false, w. rewrite refresh_without_token by assumption.
      repeat split. lia. }
  assert (Hlen : forall request : Request,
             (length (sent w ++ [request]) <= length (sent w) + 1)%nat).
  { intros request. rewrite length_app. cbn. lia. }
  destruct (net env (sent w) (AuthUtils.refresh_request refreshToken))
    as [r|reason] eqn:Hnet.
  2:{ eexists _, _. split; [eapply refresh_unreachable; eassumption|].
      repeat split. apply Hlen. }
  destruct (ok r) eqn:Hok.
  2:{ eexists _, _. split; [eapply refresh_rejected; eassumption|].
      split; [apply Hlen|]. split; [|reflexivity].
      intros key Haccess Hrefresh. cbn.
      now rewrite !lookup_delete_ne by congruence. }
  destruct (json r) as [data|] eqn:Hjson.
  2:{ eexists _, _. split; [eapply refresh_unreadable; eassumption|].
      repeat split. apply Hlen. }
  destruct (get data "access") as [e|access] eqn:Hget.
  { eexists _, _. split; [eapply refresh_nullish; eassumption|].
    repeat split. apply Hlen. }
  destruct (to_string (number_to_string env) access) as [e|text] eqn:Htext.
  { eexists _, _. split; [eapply refresh_textless; eassumption|].
    repeat split. apply Hlen. }
  eexists _, _. split; [eapply refresh_accepted; eassumption|].
  split; [apply Hlen|]. split; [|reflexivity].
  intros key Haccess Hrefresh. cbn.
  now rewrite lookup_insert_ne by congruence.
Qed.

(** X12.  [refreshAccessToken] never throws: whatever the server answers,
    or if it cannot be reached at all, the call ends with a boolean,
    having sent one request at the most, and having touched nothing in
    either storage but the access and refresh tokens. *)
Theorem refreshAccessToken_never_throws (env : Env) (w : World) :
  exists (success : bool) (w' : World),
    AuthUtils.refreshAccessToken env w = (Returned success, w') /\
    (length (sent w') <= length (sent w) + 1)%nat /\
    (forall key, key <> "access_token" -> key <> "refresh_token" ->
                 localStorage w' !! key = localStorage w !! key) /\
    sessionStorage w' = sessionStorage w.
Proof. apply refresh_outcome. Qed.

(** [authenticatedFetch], up to the first answer. *)
Lemma authenticatedFetch_first (env : Env) (url : string) (options : Init)
    (w : World) (token : string) :
  truthy (localStorage w !! "access_token") = Some token ->
  let request := mkRequest url (AuthUtils.requestOptions token options) in
  AuthUtils.authenticatedFetch env url options w =
    match net env (sent w) request with
    | Responded response =>
        try_catch
          (if status response =? 401 then
             console_log "Token expired, attempting refresh..." >>
             let* refreshSuccess := AuthUtils.refreshAccessToken env in
             if refreshSuccess then
               let* newToken := localStorage_getItem "access_token" in
               fetch env url
                 (AuthUtils.set_authorization
                    ("Bearer " ++ in_template newToken)%string
                    (AuthUtils.requestOptions token options))
             else
               throw (Error "Authentication failed - please login again")
           else ret response)
          (fun error =>
             console_error "Authenticated fetch error:" error >> throw error)
          (record request w)
    | Unreachable reason =>
        (Thrown (FetchFailed reason),
         logged (LogError "Authenticated fetch error:" (FetchFailed reason))
                (record request w))
    end.
Proof.
  intros Htoken request.
  unfold AuthUtils.authenticatedFetch, bind at 1.
  unfold localStorage_getItem at 1. rewrite Htoken.
  unfold try_catch, bind at 1, fetch at 1. fold request.
  now destruct (net env (sent w) request).
Qed.

(** X13.  An answer other than 401 is the result of [authenticatedFetch]
    as it came, error statuses included: one request has been sent, no
    refresh was tried, and nothing was stored or logged. *)
Theorem authenticatedFetch_passes_other_answers (env : Env) (url : string)
    (options : Init) (w : World) (token : string) (r : Response) :
  truthy (localStorage w !! "access_token") = Some token ->
  let request := mkRequest url (AuthUtils.requestOptions token options) in
  net env (sent w) request = Responded r ->
  status r <> 401 ->
  AuthUtils.authenticatedFetch env url options w
    = (Returned r, record request w).
Proof.
  intros Htoken request Hnet Hstatus.
  rewrite (authenticatedFetch_first env url options w token Htoken).
  fold request. rewrite Hnet. unfold try_catch.
  now destruct (Z.eqb_spec (status r) 401).
Qed.

Lemma authenticatedFetch_passes_other_answers_witness :
  let env :=
    Reference.browser (Scenario.always (mkResponse 500 None)) in
  let w := Scenario.session "token" "r" in
  AuthUtils.authenticatedFetch env "/api/profile/" no_init w
    = (Returned (mkResponse 500 None),
       record (mkRequest "/api/profile/"
                 (AuthUtils.requestOptions "token" no_init)) w).
Proof.
  intros env w.
  apply (authenticatedFetch_passes_other_answers env "/api/profile/"
           no_init w "token" (mkResponse 500 None)).
  - vm_compute. reflexivity.
  - reflexivity.
  - discriminate.
Defined.

(** X14.  When the answer is 401 and the refresh comes back [false],
    [authenticatedFetch] throws "Authentication failed - please login
    again" after logging it, and the request is not sent again: the log
    of requests is the one the refresh left. *)
Theorem authenticatedFetch_fails_without_refresh (env : Env) (url : string)
    (options : Init) (w : World) (token : string) (r : Response)
    (w2 : World) :
  truthy (localStorage w !! "access_token") = Some token ->
  let request := mkRequest url (AuthUtils.requestOptions token options) in
  net env (sent w) request = Responded r ->
  status r = 401 ->
  AuthUtils.refreshAccessToken env
    (logged (Log "Token expired, attempting refresh...") (record request w))
    = (Returned false, w2) ->
  let failure := Error "Authentication failed - please login again" in
  AuthUtils.authenticatedFetch env url options w
    = (Thrown failure,
       logged (LogError "Authenticated fetch error:" failure) w2).
Proof.
  intros Htoken request Hnet Hstatus Hrefresh failure.
  rewrite (authenticatedFetch_first env url options w token Htoken).
  fold request. rewrite Hnet, Hstatus. cbn [Z.eqb Pos.eqb].
  unfold try_catch, bind at 1, console_log. unfold bind at 1.
  now rewrite Hrefresh.
Qed.

Lemma authenticatedFetch_fails_without_refresh_witness :
  let env := Reference.browser (Scenario.always Scenario.unauthorized) in
  let w := Scenario.session "stale" "r" in
  let request :=
    mkRequest "/api/profile/" (AuthUtils.requestOptions "stale" no_init) in
  let w2 :=
    snd (AuthUtils.refreshAccessToken env
           (logged (Log "Token expired, attempting refresh...")
                   (record request w))) in
  let failure := Error "Authentication failed - please login again" in
  AuthUtils.authenticatedFetch env "/api/profile/" no_init w
    = (Thrown failure,
       logged (LogError "Authenticated fetch error:" failure) w2).
Proof.
  intros env w request w2.
  apply (authenticatedFetch_fails_without_refresh env "/api/profile/"
           no_init w "stale" Scenario.unauthorized w2).
  - vm_compute. reflexivity.
  - reflexivity.
  - reflexivity.
  - vm_compute. reflexivity.
Defined.

(** X15.  [authenticatedFetch] never sends more than three requests,
    whatever is stored, whatever the server answers and however the
    refresh goes. *)
Theorem authenticatedFetch_sends_at_most_three (env : Env) (url : string)
    (options : Init) (w : World) :
  (length (sent (snd (AuthUtils.authenticatedFetch env url options w)))
   <= length (sent w) + 3)%nat.
Proof.
  destruct (truthy (localStorage w !! "access_token")) as [token|] eqn:Htoken.
  2:{ rewrite authenticatedFetch_no_token by assumption. cbn. lia. }
  rewrite (authenticatedFetch_first env url options w token Htoken).
  set (request := mkRequest url (AuthUtils.requestOptions token options)).
  assert (Hone : length (sent (record request w)) = S (length (sent w))).
  { cbn. rewrite length_app. cbn. lia. }
  destruct (net env (sent w) request) as [r|reason]; [|cbn in *; lia].
  unfold try_catch.
  destruct (status r =? 401); [|cbn in *; lia].
  unfold bind at 1, console_log. unfold bind at 1.
  destruct (refresh_outcome env
              (logged (Log "Token expired, attempting refresh...")
                      (record request w)))
    as (success & w2 & -> & Hlen & _).
  change (sent (logged (Log "Token expired, attempting refresh...")
                       (record request w)))
    with (sent (record request w)) in Hlen.
  destruct success.
  - unfold bind at 1, localStorage_getItem, fetch.
    destruct (net env (sent w2) _); cbn; rewrite length_app; cbn; lia.
  - cbn. lia.
Qed.

(** X16.  [logout] of [auth-utils.js] sends nothing and sends the page to
    the site's home address.  It leaves [sessionStorage] empty and
    [localStorage] without the two tokens, the cached user info and the
    user data, every other key being kept; afterwards [isAuthenticated]
    answers [false] and [authenticatedFetch] fails before any request. *)
Theorem logout_signs_out (env : Env) (w : World) :
  exists w',
    AuthUtils.logout w = (Returned "http://127.0.0.1:8000/website/", w') /\
    sessionStorage w' = ∅ /\
    (forall key,
        localStorage w' !! key =
          if bool_decide (key ∈ ["access_token"; "refresh_token";
                                 "user_info"; "user_data"])
          then None else localStorage w !! key) /\
    sent w' = sent w /\
    AuthUtils.isAuthenticated w' = (Returned false, w') /\
    forall url options,
      AuthUtils.authenticatedFetch env url options w'
      = (Thrown (Error "No access token available"), w').
Proof.
  set (store := delete "user_data" (delete "user_info"
                  (delete "refresh_token"
                     (delete "access_token" (localStorage w))))).
  exists (mkWorld store ∅ (sent w) (console w) (document w)).
  split; [reflexivity|].
  assert (Hkeys : forall key,
    store !! key =
    if bool_decide (key ∈ ["access_token"; "refresh_token";
                           "user_info"; "user_data"])
    then None else localStorage w !! key).
  { intros key. subst store.
    destruct (decide (key = "user_data")) as [->|Hdata];
      [now rewrite lookup_delete_eq|].
    rewrite lookup_delete_ne by congruence.
    destruct (decide (key = "user_info")) as [->|Hinfo];
      [now rewrite lookup_delete_eq|].
    rewrite lookup_delete_ne by congruence.
    destruct (decide (key = "refresh_token")) as [->|Hrefresh];
      [now rewrite lookup_delete_eq|].
    rewrite lookup_delete_ne by congruence.
    destruct (decide (key = "access_token")) as [->|Haccess];
      [now rewrite lookup_delete_eq|].
    rewrite lookup_delete_ne by congruence.
    rewrite bool_decide_eq_false_2; [reflexivity|].
    rewrite !elem_of_cons, elem_of_nil. tauto. }
  split; [reflexivity|]. split; [exact Hkeys|]. split; [reflexivity|].
  split.
  - unfold AuthUtils.isAuthenticated, bind, localStorage_getItem.
    cbn [localStorage]. now rewrite (Hkeys "access_token").
  - intros url options. apply authenticatedFetch_no_token.
    cbn [localStorage]. now rewrite (Hkeys "access_token").
Qed.

(** X17.  A refresh that the server rejects signs the user out for the
    rest of [auth-utils.js]: right after it [isAuthenticated] answers
    [false], and [authenticatedFetch] fails with its no-token error
    without sending anything. *)
Theorem rejected_refresh_signs_out (env : Env) (w : World)
    (refreshToken : string) (r : Response) :
  truthy (localStorage w !! "refresh_token") = Some refreshToken ->
  net env (sent w) (AuthUtils.refresh_request refreshToken) = Responded r ->
  ~ (200 <= status r <= 299) ->
  exists w',
    AuthUtils.refreshAccessToken env w = (Returned false, w') /\
    AuthUtils.isAuthenticated w' = (Returned false, w') /\
    forall url options,
      AuthUtils.authenticatedFetch env url options w'
      = (Thrown (Error "No access token available"), w').
Proof.
  intros Hstored Hnet Hstatus. apply not_ok_iff in Hstatus.
  eexists. split; [eapply refresh_rejected; eassumption|].
  split.
  - unfold AuthUtils.isAuthenticated, bind, localStorage_getItem.
    cbn [localStorage with_localStorage record with_sent].
    now rewrite cleared_access_token.
  - intros url options. apply authenticatedFetch_no_token.
    cbn [localStorage with_localStorage record with_sent].
    now rewrite cleared_access_token.
Qed.

Lemma rejected_refresh_signs_out_witness :
  let env := Reference.browser (Scenario.always Scenario.unauthorized) in
  exists w',
    AuthUtils.refreshAccessToken env (Scenario.session "old" "r")
      = (Returned false, w') /\
    AuthUtils.isAuthenticated w' = (Returned false, w') /\
    forall url options,
      AuthUtils.authenticatedFetch env url options w'
      = (Thrown (Error "No access token available"), w').
Proof.
  intros env.
  apply (rejected_refresh_signs_out env (Scenario.session "old" "r") "r"
           Scenario.unauthorized).
  - vm_compute. reflexivity.
  - reflexivity.
  - simpl. lia.
Defined.

(** ** More of [AuthManager] *)

(** The [AuthManager] refresh always sends its one request and always
    ends with a boolean. *)
Lemma manager_refresh_outcome (env : Env) (base csrf refreshToken : string)
    (w : World) :
  exists (success : bool) (w' : World),
    AuthManager.refreshAccessToken env base csrf refreshToken w
      = (Returned success, w') /\
    sent w' = (sent w ++ [AuthManager.refresh_request base csrf refreshToken])%list /\
    sessionStorage w' = sessionStorage w.
Proof.
  unfold AuthManager.refreshAccessToken, try_catch, bind at 1, fetch.
  change (mkRequest (base ++ "/token/refresh/")
                    (AuthManager.refresh_init csrf refreshToken))
    with (AuthManager.refresh_request base csrf refreshToken).
  destruct (net env (sent w) _) as [r|reason]; [|now eexists _, _].
  destruct (ok r); [|now eexists _, _].
  unfold bind at 1, response_json.
  destruct (json r) as [data|]; [|now eexists _, _].
  cbn [ret]. unfold bind at 1.
  destruct (get data "access") as [e|access]; [now eexists _, _|].
  cbv beta iota delta [ret lift throw bind localStorage_setItem].
  destruct (to_string (number_to_string env) access); now eexists _, _.
Qed.

(** X18.  [checkAuthStatus] always ends with an answer, and never with
    one that says both "authenticated" and "needs refresh".  It sends one
    request at the most, and "needs refresh" is only ever said after that
    request, a refresh, has been sent: the POST of the stored refresh
    token to the refresh endpoint. *)
Theorem checkAuthStatus_answers (env : Env) (base csrf : string) (now : Z)
    (w : World) :
  exists (answer : AuthManager.AuthStatus) (w' : World),
    AuthManager.checkAuthStatus env base csrf now w = (Returned answer, w') /\
    AuthManager.isAuthenticated answer && AuthManager.needsRefresh answer
      = false /\
    (length (sent w') <= length (sent w) + 1)%nat /\
    (AuthManager.needsRefresh answer = true ->
     length (sent w') = S (length (sent w))) /\
    (AuthManager.needsRefresh answer = true ->
     exists refreshToken,
       truthy (localStorage w !! "refresh_token") = Some refreshToken /\
       sent w'
       = (sent w ++
          [mkRequest (base ++ "/token/refresh/")
             (mkInit (Some "POST")
                     (Some (<[ "Content-Type" := "application/json" ]>
                              {[ "X-CSRFToken" := csrf ]}))
                     (Some (Stringified
                              (JObj [("refresh", JStr refreshToken)])))
                     ∅)])%list).
Proof.
  unfold AuthManager.checkAuthStatus, AuthManager.getToken,
    AuthManager.getRefreshToken, bind at 1, localStorage_getItem.
  assert (Hlive : exists live : bool,
    (if present (localStorage w !! AuthManager.TOKEN_KEY)
     then let* expired := AuthManager.isTokenExpired env now in
          ret (negb expired)
     else ret false) w = (Returned live, w)).
  { destruct (present _); [|now exists false].
    destruct (manager_isTokenExpired_total env now w) as [expired Hexpired].
    exists (negb expired). unfold bind. now rewrite Hexpired. }
  destruct Hlive as [live Hlive].
  unfold bind at 1. rewrite Hlive.
  destruct live.
  { exists (AuthManager.mkAuthStatus true false), w. repeat split.
    - lia.
    - discriminate.
    - discriminate. }
  unfold bind at 1.
  change AuthManager.REFRESH_KEY with "refresh_token".
  destruct (truthy (localStorage w !! "refresh_token"))
    as [refreshToken|] eqn:Hstored.
  2:{ exists (AuthManager.mkAuthStatus false false), w. repeat split.
      - lia.
      - discriminate.
      - discriminate. }
  destruct (manager_refresh_outcome env base csrf refreshToken w)
    as (success & w' & Hrefresh & Hsent & _).
  unfold bind. rewrite Hrefresh.
  exists (AuthManager.mkAuthStatus success (negb success)), w'.
  rewrite Hsent, length_app. cbn. repeat split.
  - now destruct success.
  - lia.
  - intros _. lia.
  - intros _. now exists refreshToken.
Qed.



(** X20.  With no access token stored, or one that [isTokenExpired]
    calls expired, and a refresh token that the server rejects,
    [checkAuthStatus] answers "not authenticated, needs refresh" and
    leaves neither token in the store. *)
Theorem checkAuthStatus_rejected_refresh (env : Env) (base csrf : string)
    (now : Z) (w : World) (refreshToken : string) (r : Response) :
  (present (localStorage w !! "access_token") = false \/
   AuthManager.isTokenExpired env now w = (Returned true, w)) ->
  truthy (localStorage w !! "refresh_token") = Some refreshToken ->
  net env (sent w) (AuthManager.refresh_request base csrf refreshToken)
    = Responded r ->
  ~ (200 <= status r <= 299) ->
  exists w',
    AuthManager.checkAuthStatus env base csrf now w
      = (Returned (AuthManager.mkAuthStatus false true), w') /\
    localStorage w' !! "access_token" = None /\
    localStorage w' !! "refresh_token" = None.
Proof.
  intros Hdead Hstored Hnet Hstatus. apply not_ok_iff in Hstatus.
  unfold AuthManager.checkAuthStatus, AuthManager.getToken,
    AuthManager.getRefreshToken, bind at 1, localStorage_getItem.
  change AuthManager.TOKEN_KEY with "access_token".
  change AuthManager.REFRESH_KEY with "refresh_token".
  assert (Hlive :
    (if present (localStorage w !! "access_token")
     then let* expired := AuthManager.isTokenExpired env now in
          ret (negb expired)
     else ret false) w = (Returned false, w)).
  { destruct Hdead as [-> | Hexpired]; [reflexivity|].
    destruct (present _); [|reflexivity].
    unfold bind. now rewrite Hexpired. }
  unfold bind at 1. rewrite Hlive.
  unfold bind at 1. rewrite Hstored.
  unfold bind at 1, AuthManager.refreshAccessToken, try_catch, bind at 1,
    fetch.
  change (mkRequest (base ++ "/token/refresh/")
                    (AuthManager.refresh_init csrf refreshToken))
    with (AuthManager.refresh_request base csrf refreshToken).
  rewrite Hnet, Hstatus.
  eexists. split; [reflexivity|]. cbn. split; auto with store.
Qed.

Lemma checkAuthStatus_rejected_refresh_witness :
  let env := Reference.browser (Scenario.always Scenario.unauthorized) in
  exists w',
    AuthManager.checkAuthStatus env "/api" "c" 0
      (Scenario.session "garbage" "r")
      = (Returned (AuthManager.mkAuthStatus false true), w') /\
    localStorage w' !! "access_token" = None /\
    localStorage w' !! "refresh_token" = None.
Proof.
  intros env.
  apply (checkAuthStatus_rejected_refresh env "/api" "c" 0
           (Scenario.session "garbage" "r") "r" Scenario.unauthorized).
  - right. vm_compute. reflexivity.
  - vm_compute. reflexivity.
  - reflexivity.
  - simpl. lia.
Defined.

(** X21.  [validateSession] answers the opposite of [isTokenExpired],
    always and without writing or sending anything; and when it answers
    [true] there is a token stored, which [getAuthHeader] then sends as
    the bearer next to the CSRF token. *)
Theorem validateSession_is_not_expired (env : Env) (csrf : string) (now : Z)
    (w : World) :
  exists expired : bool,
    AuthManager.isTokenExpired env now w = (Returned expired, w) /\
    AuthManager.validateSession env now w = (Returned (negb expired), w) /\
    (expired = false ->
     exists token,
       truthy (localStorage w !! "access_token") = Some token /\
       AuthManager.getAuthHeader csrf w
       = (Returned (<[ "Authorization" := ("Bearer " ++ token)%string ]>
                      {[ "X-CSRFToken" := csrf ]}), w)).
Proof.
  destruct (manager_isTokenExpired_total env now w) as [expired Hexpired].
  exists expired. split; [assumption|].
  unfold AuthManager.validateSession, AuthManager.getAuthHeader,
    AuthManager.getToken, bind at 1, localStorage_getItem.
  change AuthManager.TOKEN_KEY with "access_token".
  destruct (truthy (localStorage w !! "access_token")) as [token|] eqn:Htoken.
  - unfold present. rewrite Htoken. unfold bind at 1. rewrite Hexpired.
    split; [now destruct expired|].
    intros _. exists token. split; [reflexivity|].
    unfold bind, localStorage_getItem. now rewrite Htoken.
  - unfold present. rewrite Htoken.
    assert (expired = true) as ->.
    { unfold AuthManager.isTokenExpired, AuthManager.getToken, bind,
        localStorage_getItem in Hexpired.
      change AuthManager.TOKEN_KEY with "access_token" in Hexpired.
      rewrite Htoken in Hexpired. now injection Hexpired as <-. }
    split; [reflexivity|discriminate].
Qed.

(** X22.  A login whose request cannot reach the server, or whose answer
    has a body that is not JSON whatever its status, ends with the
    failure "Connection error. Please check your connection and try
    again.": the error is logged, and nothing is stored. *)
Theorem login_reports_connection_error (env : Env)
    (base csrf email password : string) (w : World) (e : JsError) :
  let request := AuthManager.login_request base csrf email password in
  (exists reason,
      net env (sent w) request = Unreachable reason /\
      e = FetchFailed reason) \/
  (exists r,
      net env (sent w) request = Responded r /\ json r = None /\
      e = BodyNotJson) ->
  AuthManager.login env base csrf email password w
    = (Returned
         (AuthManager.mkResult false
            "Connection error. Please check your connection and try again."),
       logged (LogError "Login error:" e) (record request w)) /\
  localStorage (logged (LogError "Login error:" e) (record request w))
    = localStorage w.
Proof.
  intros request Hfailure. split; [|reflexivity].
  unfold AuthManager.login, try_catch, bind at 1, fetch.
  change (mkRequest (base ++ "/admin/login/")
                    (AuthManager.login_init csrf email password))
    with request.
  destruct Hfailure as [(reason & -> & ->) | (r & -> & Hjson & ->)];
    [reflexivity|].
  unfold bind at 1 2, response_json. rewrite Hjson.
  now destruct (ok r).
Qed.

Lemma login_reports_connection_error_witness :
  let env := Reference.browser (Scenario.always (mkResponse 502 None)) in
  let w := Scenario.session "old" "r" in
  let request := AuthManager.login_request "/api" "c" "a@b.com" "pw" in
  AuthManager.login env "/api" "c" "a@b.com" "pw" w
    = (Returned
         (AuthManager.mkResult false
            "Connection error. Please check your connection and try again."),
       logged (LogError "Login error:" BodyNotJson) (record request w)) /\
  localStorage (logged (LogError "Login error:" BodyNotJson)
                       (record request w))
    = localStorage w.
Proof.
  intros env w request.
  apply (login_reports_connection_error env "/api" "c" "a@b.com" "pw" w
           BodyNotJson).
  right. exists (mkResponse 502 None). repeat split.
Defined.

(** X23.  [logout] of [AuthManager] tells the server only when there is
    a token to send: with one stored it sends a single request, a POST to
    the logout endpoint without a body whose headers are [Authorization],
    "Bearer " and that token, and [X-CSRFToken], the CSRF token; with
    none stored it sends nothing. *)
Theorem logout_request_needs_token (env : Env) (base csrf : string)
    (w : World) :
  sent (snd (AuthManager.logout env base csrf w))
  = (sent w ++
     match truthy (localStorage w !! "access_token") with
     | Some token =>
         [mkRequest (base ++ "/admin/logout/")
            (mkInit (Some "POST")
                    (Some (<[ "Authorization" := ("Bearer " ++ token)%string ]>
                             {[ "X-CSRFToken" := csrf ]}))
                    None ∅)]
     | None => []
     end)%list.
Proof.
  unfold AuthManager.logout, finally_return, AuthManager.clearTokens, bind,
    localStorage_removeItem, try_catch, AuthManager.getToken,
    localStorage_getItem.
  change AuthManager.TOKEN_KEY with "access_token".
  destruct (truthy (localStorage w !! "access_token")) as [token|]; cbn.
  - unfold fetch.
    change (mkRequest (base ++ "/admin/logout/")
                      (AuthManager.logout_init csrf token))
      with (AuthManager.logout_request base csrf token).
    now destruct (net env (sent w) _).
  - now rewrite app_nil_r.
Qed.

(** A logout with a token stored, read off. *)
Example logout_request_sent :
  let w' :=
    snd (AuthManager.logout
           (Reference.browser (Scenario.always Scenario.unauthorized))
           "/api" "c" (Scenario.session "old" "r")) in
  List.map url (sent w') = ["/api/admin/logout/"] /\
  List.map (fun request => method (init request)) (sent w') = [Some "POST"] /\
  List.map (fun request => default ∅ (headers (init request)) !! "Authorization")
      (sent w')
    = [Some "Bearer old"] /\
  List.map (fun request => default ∅ (headers (init request)) !! "X-CSRFToken")
      (sent w')
    = [Some "c"].
Proof. vm_compute. repeat split. Qed.

(** ** The navbar *)

(** What [showAuthButtons] does to the page, and to nothing else. *)
Lemma showAuthButtons_effect (w : World) :
  exists w',
    Navbar.showAuthButtons w = (Returned tt, w') /\
    localStorage w' = localStorage w /\
    sessionStorage w' = sessionStorage w /\
    sent w' = sent w /\
    console w' = console w /\
    (forall e, document w !! "authButtons" = Some e ->
               document w' !! "authButtons"
               = Some (mkElement "flex" (textContent e))) /\
    (forall e, document w !! "userMenu" = Some e ->
               document w' !! "userMenu"
               = Some (mkElement "none" (textContent e))).
Proof.
  eexists. split; [reflexivity|]. cbn. repeat split.
  - intros e He. rewrite He.
    destruct (<["authButtons":=_]> (document w) !! "userMenu");
      [rewrite lookup_insert_ne by discriminate|];
      apply lookup_insert_eq.
  - intros e He.
    destruct (document w !! "authButtons") as [a|].
    + rewrite lookup_insert_ne, He by discriminate. apply lookup_insert_eq.
    + rewrite He. apply lookup_insert_eq.
Qed.

(** X24.  When the navbar's refresh finds no refresh token it shows the
    sign-in buttons and stops: nothing is sent, and the access token that
    the server has just refused stays in the store. *)
Theorem tryRefreshToken_without_refresh_token (env : Env) (w : World)
    (checkAuthStatus : Script unit) :
  truthy (localStorage w !! "refresh_token") = None ->
  exists w',
    Navbar.tryRefreshToken env checkAuthStatus w = (Returned tt, w') /\
    localStorage w' = localStorage w /\
    sent w' = sent w /\
    (forall e, document w !! "authButtons" = Some e ->
               document w' !! "authButtons"
               = Some (mkElement "flex" (textContent e))) /\
    (forall e, document w !! "userMenu" = Some e ->
               document w' !! "userMenu"
               = Some (mkElement "none" (textContent e))).
Proof.
  intros Hnone.
  destruct (showAuthButtons_effect w)
    as (w' & Hshow & Hlocal & _ & Hsent & _ & Hbuttons & Hmenu).
  exists w'. repeat split; try assumption.
  unfold Navbar.tryRefreshToken, bind, localStorage_getItem.
  now rewrite Hnone.
Qed.

Lemma tryRefreshToken_without_refresh_token_witness :
  let w :=
    mkWorld {[ "access_token" := "refused" ]} ∅ [] []
            (<[ "authButtons" := mkElement "none" "" ]>
               {[ "userMenu" := mkElement "flex" "" ]}) in
  exists w',
    Navbar.tryRefreshToken (Reference.browser Reference.offline) (ret tt) w
      = (Returned tt, w') /\
    localStorage w' = localStorage w /\
    sent w' = sent w /\
    (forall e, document w !! "authButtons" = Some e ->
               document w' !! "authButtons"
               = Some (mkElement "flex" (textContent e))) /\
    (forall e, document w !! "userMenu" = Some e ->
               document w' !! "userMenu"
               = Some (mkElement "none" (textContent e))).
Proof.
  intros w.
  apply (tryRefreshToken_without_refresh_token
           (Reference.browser Reference.offline) w (ret tt)).
  reflexivity.
Defined.

(** X25.  When the navbar's check of the stored token cannot reach the
    server, it logs the failure and shows the sign-in buttons in place of
    the user menu, and both tokens stay in the store; no refresh is
    tried: the one request sent is the check, a request without method or
    body to [/api/admin/verify/] with the token as bearer. *)
Theorem checkAuthStatus_unreachable_keeps_tokens (env : Env) (fuel : nat)
    (w : World) (token reason : string) :
  let verify :=
    mkRequest "/api/admin/verify/"
      (mkInit None
              (Some (<[ "Authorization" := ("Bearer " ++ token)%string ]>
                       {[ "Content-Type" := "application/json" ]}))
              None ∅) in
  truthy (localStorage w !! "access_token") = Some token ->
  net env (sent w) verify = Unreachable reason ->
  exists w',
    Navbar.checkAuthStatus env fuel w = (Returned tt, w') /\
    localStorage w' = localStorage w /\
    sent w' = (sent w ++ [verify])%list /\
    console w'
    = (console w ++ [LogError "Auth check failed:" (FetchFailed reason)])%list /\
    (forall e, document w !! "authButtons" = Some e ->
               document w' !! "authButtons"
               = Some (mkElement "flex" (textContent e))) /\
    (forall e, document w !! "userMenu" = Some e ->
               document w' !! "userMenu"
               = Some (mkElement "none" (textContent e))).
Proof.
  intros verify Htoken Hnet.
  destruct (showAuthButtons_effect
              (logged (LogError "Auth check failed:" (FetchFailed reason))
                      (record verify w)))
    as (w' & Hshow & Hlocal & _ & Hsent & Hconsole & Hbuttons & Hmenu).
  exists w'. repeat split; try assumption.
  destruct fuel; cbn [Navbar.checkAuthStatus];
    unfold bind at 1, localStorage_getItem; rewrite Htoken;
    unfold try_catch, bind at 1, fetch;
    change (mkRequest "/api/admin/verify/" (Navbar.verify_init token))
      with verify;
    rewrite Hnet; unfold bind, console_error; exact Hshow.
Qed.

Lemma checkAuthStatus_unreachable_keeps_tokens_witness :
  let env := Reference.browser Reference.offline in
  let w := Scenario.navbar_page "token" "r" in
  let verify :=
    mkRequest "/api/admin/verify/"
      (mkInit None
              (Some (<[ "Authorization" := ("Bearer " ++ "token")%string ]>
                       {[ "Content-Type" := "application/json" ]}))
              None ∅) in
  exists w',
    Navbar.checkAuthStatus env 1 w = (Returned tt, w') /\
    localStorage w' = localStorage w /\
    sent w' = (sent w ++ [verify])%list /\
    console w'
    = (console w
       ++ [LogError "Auth check failed:" (FetchFailed "Failed to fetch")])%list /\
    (forall e, document w !! "authButtons" = Some e ->
               document w' !! "authButtons"
               = Some (mkElement "flex" (textContent e))) /\
    (forall e, document w !! "userMenu" = Some e ->
               document w' !! "userMenu"
               = Some (mkElement "none" (textContent e))).
Proof.
  intros env w verify.
  apply (checkAuthStatus_unreachable_keeps_tokens env 1 w "token"
           "Failed to fetch").
  - vm_compute. reflexivity.
  - reflexivity.
Defined.

(** The same run, read off. *)
Example navbar_offline :
  let w' :=
    snd (Navbar.checkAuthStatus (Reference.browser Reference.offline) 1
           (Scenario.navbar_page "token" "r")) in
  document w' !! "authButtons" = Some (mkElement "flex" "") /\
  document w' !! "userMenu" = Some (mkElement "none" "") /\
  localStorage w' = localStorage (Scenario.navbar_page "token" "r").
Proof. vm_compute. repeat split. Qed.

(** The page after a guarded write to one element. *)
Lemma set_display_document (id value : string) (w : World) (key : string) :
  document (snd (set_display id value w)) !! key
  = if decide (key = id)
    then (fun e => mkElement value (textContent e)) <$> document w !! id
    else document w !! key.
Proof.
  cbn. destruct (document w !! id) as [e|] eqn:He; case_decide; subst;
    cbn; try reflexivity.
  - apply lookup_insert_eq.
  - now apply lookup_insert_ne.
  - assumption.
Qed.

Lemma set_textContent_document (id value : string) (w : World)
    (key : string) :
  document (snd (set_textContent id value w)) !! key
  = if decide (key = id)
    then (fun e => mkElement (display e) value) <$> document w !! id
    else document w !! key.
Proof.
  cbn. destruct (document w !! id) as [e|] eqn:He; case_decide; subst;
    cbn; try reflexivity.
  - apply lookup_insert_eq.
  - now apply lookup_insert_ne.
  - assumption.
Qed.

(** The two ways the navbar shows itself, as writes to the page. *)
Lemma showUserMenu_writes (w : World) :
  Navbar.showUserMenu w
  = (Returned tt,
     snd (set_display "userMenu" "flex"
            (snd (set_display "authButtons" "none" w)))).
Proof. reflexivity. Qed.

Lemma showAuthButtons_writes (w : World) :
  Navbar.showAuthButtons w
  = (Returned tt,
     snd (set_display "userMenu" "none"
            (snd (set_display "authButtons" "flex" w)))).
Proof. reflexivity. Qed.

(** The navbar's check, once the server has accepted the token. *)
Lemma checkAuthStatus_accepted (env : Env) (fuel : nat) (w : World)
    (token : string) (r : Response) (userData username name : JsVal) :
  truthy (localStorage w !! "access_token") = Some token ->
  net env (sent w) (Navbar.verify_request token) = Responded r ->
  ok r = true ->
  json r = Some userData ->
  get userData "username" = inr username ->
  get userData "name" = inr name ->
  let w1 := record (Navbar.verify_request token) w in
  Navbar.checkAuthStatus env fuel w =
    match document w !! "userName" with
    | Some _ =>
        match
          to_string (number_to_string env)
                    (or_else username (or_else name (JStr "Admin")))
        with
        | inr text =>
            Navbar.showUserMenu (snd (set_textContent "userName" text w1))
        | inl e =>
            Navbar.showAuthButtons
              (logged (LogError "Auth check failed:" e) w1)
        end
    | None => Navbar.showUserMenu w1
    end.
Proof.
  intros Htoken Hnet Hok Hjson Husername Hname w1.
  destruct fuel; cbn [Navbar.checkAuthStatus];
    unfold bind at 1, localStorage_getItem; rewrite Htoken;
    unfold try_catch, bind at 1, fetch;
    change (mkRequest "/api/admin/verify/" (Navbar.verify_init token))
      with (Navbar.verify_request token);
    rewrite Hnet, Hok; fold w1; unfold bind at 1, response_json;
    rewrite Hjson; cbn [ret]; unfold bind at 1, bind at 1, has_element;
    change (document w1) with (document w);
    (destruct (document w !! "userName") as [element|] eqn:Helement;
     [rewrite bool_decide_eq_true_2 by eauto
     |rewrite bool_decide_eq_false_2 by (intros [? ?]; discriminate)]);
    try reflexivity;
    rewrite Husername, Hname;
    cbv beta iota delta [bind lift ret throw or_else console_error];
    destruct (to_boolean username);
    try destruct (to_boolean name);
    now destruct (to_string (number_to_string env) _).
Qed.

(** X26.  When the server accepts the stored token with a JSON body other
    than [null], one request has been sent, the check, and the store is
    as it was.  The name to show is the [username] of the answer, or
    failing that its [name], or failing that "Admin".  If the page has no
    name element, or the name has a text, the navbar shows the user menu
    in place of the sign-in buttons, with that text in the name element.
    If the page has a name element and the name has no text, the write
    throws: the failure is logged, the name element is left alone and the
    sign-in buttons are shown in place of the user menu. *)
Theorem checkAuthStatus_verified (env : Env) (fuel : nat) (w : World)
    (token : string) (r : Response) (userData : JsVal) :
  let verify :=
    mkRequest "/api/admin/verify/"
      (mkInit None
              (Some (<[ "Authorization" := ("Bearer " ++ token)%string ]>
                       {[ "Content-Type" := "application/json" ]}))
              None ∅) in
  truthy (localStorage w !! "access_token") = Some token ->
  net env (sent w) verify = Responded r ->
  200 <= status r <= 299 ->
  json r = Some userData ->
  userData <> JNull ->
  userData <> JUndefined ->
  exists username name w',
    get userData "username" = inr username /\
    get userData "name" = inr name /\
    Navbar.checkAuthStatus env fuel w = (Returned tt, w') /\
    localStorage w' = localStorage w /\
    sent w' = (sent w ++ [verify])%list /\
    let shown := or_else username (or_else name (JStr "Admin")) in
    (forall element text,
        document w !! "userName" = Some element ->
        to_string (number_to_string env) shown = inr text ->
        document w' !! "userName"
        = Some (mkElement (display element) text)) /\
    (document w !! "userName" = None \/
     (exists text, to_string (number_to_string env) shown = inr text) ->
     console w' = console w /\
     (forall e, document w !! "userMenu" = Some e ->
        document w' !! "userMenu" = Some (mkElement "flex" (textContent e))) /\
     (forall e, document w !! "authButtons" = Some e ->
        document w' !! "authButtons"
        = Some (mkElement "none" (textContent e)))) /\
    (forall element failure,
        document w !! "userName" = Some element ->
        to_string (number_to_string env) shown = inl failure ->
        console w'
        = (console w ++ [LogError "Auth check failed:" failure])%list /\
        document w' !! "userName" = Some element /\
        (forall e, document w !! "authButtons" = Some e ->
           document w' !! "authButtons"
           = Some (mkElement "flex" (textContent e))) /\
        (forall e, document w !! "userMenu" = Some e ->
           document w' !! "userMenu"
           = Some (mkElement "none" (textContent e)))).
Proof.
  intros verify Htoken Hnet Hstatus Hjson Hnull Hundef.
  apply ok_iff in Hstatus.
  destruct (get_of_value userData "username" Hnull Hundef)
    as [username Husername].
  destruct (get_of_value userData "name" Hnull Hundef) as [name Hname].
  exists username, name.
  rewrite (checkAuthStatus_accepted env fuel w token r userData username
             name Htoken Hnet Hstatus Hjson Husername Hname).
  change (Navbar.verify_request token) with verify.
  set (w1 := record verify w).
  set (shown := or_else username (or_else name (JStr "Admin"))).
  destruct (document w !! "userName") as [element|] eqn:Helement;
    [destruct (to_string (number_to_string env) shown)
       as [failure|text] eqn:Htext|].
  - (* a name element, and a name without a text *)
    rewrite showAuthButtons_writes. eexists.
    do 2 (split; [assumption|]). split; [reflexivity|].
    split; [reflexivity|]. split; [reflexivity|]. cbn zeta. fold shown.
    rewrite Htext.
    split; [intros ? ? _ [=]|]. split.
    { intros [[=]|[text [=]]]. }
    intros element' failure' [= <-] [= <-].
    split; [reflexivity|].
    repeat split; try intros e He; rewrite !set_display_document;
      repeat case_decide; try discriminate; try (exfalso; congruence);
      change (document (logged _ w1)) with (document w);
      try rewrite He; try rewrite Helement; reflexivity.
  - (* a name element, and a name with a text *)
    rewrite showUserMenu_writes. eexists.
    do 2 (split; [assumption|]). split; [reflexivity|].
    split; [reflexivity|]. split; [reflexivity|]. cbn zeta. fold shown.
    rewrite Htext.
    split; [|split; [|intros ? ? _ [=]]].
    + intros element' text' [= <-] [= <-].
      rewrite !set_display_document.
      repeat case_decide; try discriminate.
      rewrite set_textContent_document. case_decide; [|congruence].
      change (document w1) with (document w). now rewrite Helement.
    + intros _. split; [reflexivity|].
      split; intros e He; rewrite !set_display_document;
        repeat case_decide; try discriminate; try (exfalso; congruence);
        rewrite set_textContent_document; case_decide; try discriminate;
        change (document w1) with (document w); now rewrite He.
  - (* no name element *)
    rewrite showUserMenu_writes. eexists.
    do 2 (split; [assumption|]). split; [reflexivity|].
    split; [reflexivity|]. split; [reflexivity|]. cbn zeta.
    split; [intros ? ? [=]|]. split; [|intros ? ? [=]].
    intros _. split; [reflexivity|].
    split; intros e He; rewrite !set_display_document;
      repeat case_decide; try discriminate; try (exfalso; congruence);
      change (document w1) with (document w); now rewrite He.
Qed.

Lemma checkAuthStatus_verified_witness :
  let env :=
    Reference.browser
      (Scenario.always (mkResponse 200 (Some (JObj [("name", JStr "Zoe")]))))
  in
  let w := Scenario.navbar_page "token" "r" in
  let verify :=
    mkRequest "/api/admin/verify/"
      (mkInit None
              (Some (<[ "Authorization" := ("Bearer " ++ "token")%string ]>
                       {[ "Content-Type" := "application/json" ]}))
              None ∅) in
  exists username name w',
    get (JObj [("name", JStr "Zoe")]) "username" = inr username /\
    get (JObj [("name", JStr "Zoe")]) "name" = inr name /\
    Navbar.checkAuthStatus env 1 w = (Returned tt, w') /\
    localStorage w' = localStorage w /\
    sent w' = (sent w ++ [verify])%list /\
    let shown := or_else username (or_else name (JStr "Admin")) in
    (forall element text,
        document w !! "userName" = Some element ->
        to_string (number_to_string env) shown = inr text ->
        document w' !! "userName"
        = Some (mkElement (display element) text)) /\
    (document w !! "userName" = None \/
     (exists text, to_string (number_to_string env) shown = inr text) ->
     console w' = console w /\
     (forall e, document w !! "userMenu" = Some e ->
        document w' !! "userMenu" = Some (mkElement "flex" (textContent e))) /\
     (forall e, document w !! "authButtons" = Some e ->
        document w' !! "authButtons"
        = Some (mkElement "none" (textContent e)))) /\
    (forall element failure,
        document w !! "userName" = Some element ->
        to_string (number_to_string env) shown = inl failure ->
        console w'
        = (console w ++ [LogError "Auth check failed:" failure])%list /\
        document w' !! "userName" = Some element /\
        (forall e, document w !! "authButtons" = Some e ->
           document w' !! "authButtons"
           = Some (mkElement "flex" (textContent e))) /\
        (forall e, document w !! "userMenu" = Some e ->
           document w' !! "userMenu"
           = Some (mkElement "none" (textContent e)))).
Proof.
  intros env w verify.
  apply (checkAuthStatus_verified env 1 w "token"
           (mkResponse 200 (Some (JObj [("name", JStr "Zoe")])))
           (JObj [("name", JStr "Zoe")])).
  - vm_compute. reflexivity.
  - reflexivity.
  - simpl. lia.
  - reflexivity.
  - discriminate.
  - discriminate.
Defined.

(** The same page, read off: the name of the answer is on show. *)
Example navbar_shows_name :
  let env :=
    Reference.browser
      (Scenario.always (mkResponse 200 (Some (JObj [("name", JStr "Zoe")]))))
  in
  let w' :=
    snd (Navbar.checkAuthStatus env 1 (Scenario.navbar_page "token" "r")) in
  document w' !! "userName" = Some (mkElement "" "Zoe") /\
  document w' !! "userMenu" = Some (mkElement "flex" "") /\
  document w' !! "authButtons" = Some (mkElement "none" "").
Proof. vm_compute. repeat split. Qed.

(** A [username] without a text: the token was accepted, and the page
    shows the sign-in buttons. *)
Example navbar_textless_name :
  let env :=
    Reference.browser
      (Scenario.always
         (mkResponse 200
            (Some (JObj [("username", JObj [("toString", JNull)])])))) in
  let w' :=
    snd (Navbar.checkAuthStatus env 1 (Scenario.navbar_page "token" "r")) in
  document w' !! "userName" = Some (mkElement "" "") /\
  document w' !! "userMenu" = Some (mkElement "none" "") /\
  document w' !! "authButtons" = Some (mkElement "flex" "") /\
  console w' = [LogError "Auth check failed:" NotPrimitive].
Proof. vm_compute. repeat split. Qed.

(** One turn of the navbar's cycle: a rejected check followed by an
    accepted refresh stores the new token and starts the next check. *)
Lemma checkAuthStatus_turn (env : Env) (fuel : nat) (w : World)
    (token refreshToken : string) (rejected accepted : Response)
    (data access : JsVal) (text : string) :
  truthy (localStorage w !! "access_token") = Some token ->
  truthy (localStorage w !! "refresh_token") = Some refreshToken ->
  net env (sent w) (Navbar.verify_request token) = Responded rejected ->
  ok rejected = false ->
  net env (sent w ++ [Navbar.verify_request token])
      (Navbar.refresh_request refreshToken) = Responded accepted ->
  ok accepted = true ->
  json accepted = Some data ->
  get data "access" = inr access ->
  to_string (number_to_string env) access = inr text ->
  Navbar.checkAuthStatus env fuel w
  = (Returned tt,
     snd (match fuel with
          | S fuel' => Navbar.checkAuthStatus env fuel'
          | O => ret tt
          end
            (with_localStorage (insert "access_token" text)
               (record (Navbar.refresh_request refreshToken)
                  (record (Navbar.verify_request token) w))))).
Proof.
  intros Htoken Hrefresh Hverify Hrejected Hnet Haccepted Hjson Haccess
    Htext.
  destruct fuel; cbn [Navbar.checkAuthStatus];
    unfold bind at 1, localStorage_getItem; rewrite Htoken;
    unfold try_catch, bind at 1, fetch;
    change (mkRequest "/api/admin/verify/" (Navbar.verify_init token))
      with (Navbar.verify_request token);
    rewrite Hverify, Hrejected;
    unfold Navbar.tryRefreshToken, bind at 1, localStorage_getItem;
    change (localStorage (record (Navbar.verify_request token) w))
      with (localStorage w);
    rewrite Hrefresh; unfold try_catch, bind at 1, fetch;
    change (mkRequest "/api/token/refresh/"
              (AuthUtils.refresh_init refreshToken))
      with (Navbar.refresh_request refreshToken);
    change (sent (record (Navbar.verify_request token) w))
      with (sent w ++ [Navbar.verify_request token])%list;
    rewrite Hnet, Haccepted; unfold bind at 1, response_json;
    rewrite Hjson; cbn [ret]; unfold bind at 1, lift; rewrite Haccess;
    unfold ret at 1, bind at 1, localStorage_setItem; rewrite Htext;
    reflexivity.
Qed.

(** X27.  Nothing bounds the navbar's cycle of check and refresh.  Against
    a server that rejects every check and accepts every refresh with an
    [access] member whose text is not empty, each re-check that is
    followed sends two more requests and leaves both tokens stored:
    following [fuel] re-checks sends [2 * (fuel + 1)] requests.  The
    check is the request to [/api/admin/verify/] with the stored token as
    bearer, the refresh the POST of the stored refresh token to
    [/api/token/refresh/]. *)
Theorem checkAuthStatus_keeps_rechecking (env : Env)
    (rejected accepted : Response) (data access : JsVal) (text : string) :
  let verify (token : string) :=
    mkRequest "/api/admin/verify/"
      (mkInit None
              (Some (<[ "Authorization" := ("Bearer " ++ token)%string ]>
                       {[ "Content-Type" := "application/json" ]}))
              None ∅) in
  let refresh (refreshToken : string) :=
    mkRequest "/api/token/refresh/"
      (mkInit (Some "POST")
              (Some {[ "Content-Type" := "application/json" ]})
              (Some (Stringified (JObj [("refresh", JStr refreshToken)])))
              ∅) in
  (forall log token, net env log (verify token) = Responded rejected) ->
  (forall log refreshToken,
     net env log (refresh refreshToken) = Responded accepted) ->
  ~ (200 <= status rejected <= 299) ->
  200 <= status accepted <= 299 ->
  json accepted = Some data ->
  get data "access" = inr access ->
  to_string (number_to_string env) access = inr text ->
  text <> "" ->
  forall (fuel : nat) (w : World) (token refreshToken : string),
    truthy (localStorage w !! "access_token") = Some token ->
    truthy (localStorage w !! "refresh_token") = Some refreshToken ->
    exists w',
      Navbar.checkAuthStatus env fuel w = (Returned tt, w') /\
      length (sent w') = (length (sent w) + 2 * S fuel)%nat /\
      localStorage w' !! "access_token" = Some text /\
      localStorage w' !! "refresh_token" = Some refreshToken.
Proof.
  intros verify refresh Hverify Hrefresh Hrejected Haccepted Hjson Haccess
    Htext Hfilled.
  apply not_ok_iff in Hrejected. apply ok_iff in Haccepted.
  induction fuel as [|fuel IH]; intros w token refreshToken Htoken Hstored;
    rewrite (checkAuthStatus_turn env _ w token refreshToken rejected
               accepted data access text)
      by (auto; try apply Hverify; try apply Hrefresh);
    set (w2 := with_localStorage (insert "access_token" text)
                 (record (Navbar.refresh_request refreshToken)
                    (record (Navbar.verify_request token) w)));
    assert (Hnew : localStorage w2 !! "access_token" = Some text)
      by apply lookup_insert_eq;
    assert (Hkept : localStorage w2 !! "refresh_token"
                    = localStorage w !! "refresh_token")
      by (now apply lookup_insert_ne);
    assert (Hsent : length (sent w2) = (length (sent w) + 2)%nat)
      by (subst w2; cbn; rewrite !length_app; cbn; lia).
  - exists w2. apply truthy_Some in Hstored as [Hstored _].
    split; [reflexivity|]. split; [cbn [ret snd]; lia|].
    split; [exact Hnew|]. cbn [ret snd]. congruence.
  - destruct (IH w2 text refreshToken) as (w' & Hrun & Hlen & Hrest).
    + apply truthy_Some. auto.
    + now rewrite Hkept.
    + exists w'. rewrite Hrun. split; [reflexivity|]. split; [lia|exact Hrest].
Qed.

Lemma checkAuthStatus_keeps_rechecking_witness :
  let env :=
    Reference.browser
      (Scenario.site (Scenario.new_access "fresh") Scenario.unauthorized) in
  let w := Scenario.navbar_page "token" "r" in
  exists w',
    Navbar.checkAuthStatus env 3 w = (Returned tt, w') /\
    length (sent w') = (length (sent w) + 2 * 4)%nat /\
    localStorage w' !! "access_token" = Some "fresh" /\
    localStorage w' !! "refresh_token" = Some "r".
Proof.
  intros env w.
  apply (checkAuthStatus_keeps_rechecking env Scenario.unauthorized
           (Scenario.new_access "fresh") (JObj [("access", JStr "fresh")])
           (JStr "fresh") "fresh")
    with (token := "token").
  - reflexivity.
  - reflexivity.
  - simpl. lia.
  - simpl. lia.
  - reflexivity.
  - reflexivity.
  - reflexivity.
  - discriminate.
  - vm_compute. reflexivity.
  - vm_compute. reflexivity.
Defined.

(** With an [access] member that has no text the cycle stops at once:
    the navbar's refresh throws on storing it, and its handler removes
    both tokens. *)
Example navbar_textless_access :
  let env :=
    Reference.browser
      (Scenario.site Scenario.textless_access Scenario.unauthorized) in
  let w' :=
    snd (Navbar.checkAuthStatus env 3 (Scenario.navbar_page "token" "r")) in
  length (sent w') = 2%nat /\
  localStorage w' = ∅ /\
  console w' = [LogError "Token refresh failed:" NotPrimitive].
Proof. vm_compute. repeat split. Qed.

(** X28.  When the server rejects the navbar's refresh, both tokens are
    removed and the sign-in buttons are shown; one request has been sent
    and the re-check is not started, whatever it would have done. *)
Theorem tryRefreshToken_rejected_signs_out (env : Env) (w : World)
    (checkAuthStatus : Script unit) (refreshToken : string) (r : Response) :
  truthy (localStorage w !! "refresh_token") = Some refreshToken ->
  net env (sent w) (Navbar.refresh_request refreshToken) = Responded r ->
  ~ (200 <= status r <= 299) ->
  exists w',
    Navbar.tryRefreshToken env checkAuthStatus w = (Returned tt, w') /\
    localStorage w' !! "access_token" = None /\
    localStorage w' !! "refresh_token" = None /\
    sent w' = (sent w ++ [Navbar.refresh_request refreshToken])%list /\
    (forall e, document w !! "authButtons" = Some e ->
               document w' !! "authButtons"
               = Some (mkElement "flex" (textContent e))) /\
    (forall e, document w !! "userMenu" = Some e ->
               document w' !! "userMenu"
               = Some (mkElement "none" (textContent e))).
Proof.
  intros Hstored Hnet Hstatus. apply not_ok_iff in Hstatus.
  set (w1 := with_localStorage (delete "refresh_token")
               (with_localStorage (delete "access_token")
                  (record (Navbar.refresh_request refreshToken) w))).
  destruct (showAuthButtons_effect w1)
    as (w' & Hshow & Hlocal & _ & Hsent & _ & Hbuttons & Hmenu).
  exists w'. split.
  { unfold Navbar.tryRefreshToken, bind at 1, localStorage_getItem.
    rewrite Hstored. unfold try_catch, bind at 1, fetch.
    change (mkRequest "/api/token/refresh/"
              (AuthUtils.refresh_init refreshToken))
      with (Navbar.refresh_request refreshToken).
    rewrite Hnet, Hstatus. unfold Navbar.clearTokensAndShowAuth, bind.
    cbn [localStorage_removeItem]. fold w1. now rewrite Hshow. }
  rewrite Hlocal, Hsent. repeat split; try assumption.
  - apply cleared_access_token.
  - apply cleared_refresh_token.
Qed.

Lemma tryRefreshToken_rejected_signs_out_witness :
  let env :=
    Reference.browser
      (Scenario.site Scenario.unauthorized Scenario.unauthorized) in
  let w := Scenario.navbar_page "token" "r" in
  exists w',
    Navbar.tryRefreshToken env (ret tt) w = (Returned tt, w') /\
    localStorage w' !! "access_token" = None /\
    localStorage w' !! "refresh_token" = None /\
    sent w' = (sent w ++ [Navbar.refresh_request "r"])%list /\
    (forall e, document w !! "authButtons" = Some e ->
               document w' !! "authButtons"
               = Some (mkElement "flex" (textContent e))) /\
    (forall e, document w !! "userMenu" = Some e ->
               document w' !! "userMenu"
               = Some (mkElement "none" (textContent e))).
Proof.
  intros env w.
  apply (tryRefreshToken_rejected_signs_out env w (ret tt) "r"
           Scenario.unauthorized).
  - vm_compute. reflexivity.
  - reflexivity.
  - simpl. lia.
Defined.

(** X29.  The navbar's [logout] tells the server nothing: it removes both
    tokens, keeps every other key of the store, shows the sign-in buttons
    and leaves for the login page, without a request. *)
Theorem navbar_logout_is_local (w : World) :
  exists w',
    Navbar.logout w = (Returned "/login/", w') /\
    localStorage w' !! "access_token" = None /\
    localStorage w' !! "refresh_token" = None /\
    (forall key, key <> "access_token" -> key <> "refresh_token" ->
                 localStorage w' !! key = localStorage w !! key) /\
    sessionStorage w' = sessionStorage w /\
    sent w' = sent w /\
    (forall e, document w !! "authButtons" = Some e ->
               document w' !! "authButtons"
               = Some (mkElement "flex" (textContent e))) /\
    (forall e, document w !! "userMenu" = Some e ->
               document w' !! "userMenu"
               = Some (mkElement "none" (textContent e))).
Proof.
  set (w1 := with_localStorage (delete "refresh_token")
               (with_localStorage (delete "access_token") w)).
  destruct (showAuthButtons_effect w1)
    as (w' & Hshow & Hlocal & Hsession & Hsent & _ & Hbuttons & Hmenu).
  exists w'. split.
  { unfold Navbar.logout, Navbar.clearTokensAndShowAuth, bind.
    cbn [localStorage_removeItem]. fold w1. now rewrite Hshow. }
  rewrite Hlocal, Hsession, Hsent. repeat split; try assumption.
  - apply cleared_access_token.
  - apply cleared_refresh_token.
  - intros key Haccess Hrefresh. cbn.
    now rewrite !lookup_delete_ne by congruence.
Qed.

(** X30.  [AuthManager.getCurrentUserInfo] never throws and changes
    nothing; when it hands back a user, neither the first nor the last
    name is empty or missing, and the first name is the [first_name]
    claim of the token when that is truthy and "Admin" otherwise. *)
Theorem manager_getCurrentUserInfo_names (env : Env) (w : World) :
  exists result,
    AuthManager.getCurrentUserInfo env w = (Returned result, w) /\
    forall info, result = Some info ->
      to_boolean (AuthManager.first_name info) = true /\
      to_boolean (AuthManager.last_name info) = true /\
      (forall payload claim,
         claims env (default "" (localStorage w !! "access_token"))
         = inr payload ->
         get payload "first_name" = inr claim ->
         AuthManager.first_name info
         = if to_boolean claim then claim else JStr "Admin").
Proof.
  unfold AuthManager.getCurrentUserInfo, AuthManager.getToken, bind at 1,
    localStorage_getItem.
  destruct (truthy (localStorage w !! AuthManager.TOKEN_KEY))
    as [token|] eqn:Htoken.
  2: { eexists. split; [reflexivity|]. discriminate. }
  apply truthy_Some in Htoken as [Htoken _].
  change AuthManager.TOKEN_KEY with "access_token" in Htoken.
  rewrite Htoken. cbn [default].
  unfold try_catch, bind, decode_payload, lift, ret, throw.
  destruct (claims env token) as [e|payload] eqn:Hclaims;
    [eexists; split; [reflexivity|discriminate]|].
  destruct (get payload "user_id") as [e|userId];
    [eexists; split; [reflexivity|discriminate]|].
  destruct (get payload "email") as [e|email];
    [eexists; split; [reflexivity|discriminate]|].
  destruct (get payload "first_name") as [e|first] eqn:Hfirst;
    [eexists; split; [reflexivity|discriminate]|].
  destruct (get payload "last_name") as [e|last];
    [eexists; split; [reflexivity|discriminate]|].
  destruct (get payload "exp") as [e|exp];
    [eexists; split; [reflexivity|discriminate]|].
  eexists. split; [reflexivity|]. intros info [= <-]. cbn.
  unfold or_else. repeat split.
  - now destruct (to_boolean first) eqn:H.
  - now destruct (to_boolean last) eqn:H.
  - intros payload' claim Hpayload. cbn in Hpayload.
    rewrite Hclaims in Hpayload. injection Hpayload as <-.
    rewrite Hfirst. now intros [= <-].
Qed.
